(** * Classroom optimizer: seating validation, model building and explanation

    A shallow embedding of [src/tools/optimizer_tools.py].  The three tool
    functions [validate_constraints], [optimize_seating] and
    [explain_solution] are transcribed statement by statement.  Python dicts
    are finite maps ([gmap]), Python ints are [Z], the values that end up in
    a returned dict live in the universe [pyval], and an uncaught Python
    exception is the [Raise] branch of [result]. *)

From Stdlib Require Import ZArith String List DecimalString.
From Stdlib Require PrimFloat.
From stdpp Require Import gmap strings list fin_maps.

Set Warnings "-register-all,-clear-no-such-hyp".

Local Open Scope string_scope.
Local Open Scope list_scope.
Local Open Scope Z_scope.

(* ===================================================================== *)
(** ** Python values *)
(* ===================================================================== *)

(** Hashable scalars: what the code uses as dict keys, student ids and
    constraint types ([None], an int or a str). *)
Inductive atom : Type :=
| ANone
| AInt (z : Z)
| AStr (s : string).

#[global] Instance atom_eq_dec : EqDecision atom.
Proof. solve_decision. Defined.

#[global] Instance atom_countable : Countable atom.
Proof.
  refine (inj_countable'
    (fun a => match a with
              | ANone => inl ()
              | AInt z => inr (inl z)
              | AStr s => inr (inr s)
              end)
    (fun x => match x with
              | inl _ => ANone
              | inr (inl z) => AInt z
              | inr (inr s) => AStr s
              end) _).
  by intros [].
Defined.

(** The values stored in the dicts the tools return. *)
Inductive pyval : Type :=
| VNone
| VBool (b : bool)
| VInt (z : Z)
| VFloat (f : PrimFloat.float)
| VStr (s : string)
| VList (l : list pyval)
| VDict (d : gmap atom pyval).

Definition of_atom (a : atom) : pyval :=
  match a with
  | ANone => VNone
  | AInt z => VInt z
  | AStr s => VStr s
  end.

(** Python truthiness ([if v:], [all(...)], [if e.get('satisfied')]). *)
Definition truthy (v : pyval) : bool :=
  match v with
  | VNone => false
  | VBool b => b
  | VInt z => negb (Z.eqb z 0)
  | VFloat f => negb (PrimFloat.eqb f PrimFloat.zero)
  | VStr s => negb (String.eqb s "")
  | VList l => match l with [] => false | _ :: _ => true end
  | VDict d => match map_to_list d with [] => false | _ :: _ => true end
  end.

(** [str(n)] for an int, as an f-string renders it. *)
Definition str_of_Z (z : Z) : string := NilZero.string_of_int (Z.to_int z).

(** [f"{a}"] for a hashable scalar. *)
Definition str_of_atom (a : atom) : string :=
  match a with
  | ANone => "None"
  | AInt z => str_of_Z z
  | AStr s => s
  end.

(** A dict literal [{"k1": v1, "k2": v2, ...}]: keys are inserted left to
    right. *)
Definition dict_of (kvs : list (string * pyval)) : gmap atom pyval :=
  foldl (fun d kv => <[AStr kv.1 := kv.2]> d) ∅ kvs.

(** [d[k].append(v)] on a dict whose entry [k] is a list. *)
Definition dict_append (k : string) (v : pyval) (d : gmap atom pyval)
  : gmap atom pyval :=
  match d !! AStr k with
  | Some (VList l) => <[AStr k := VList (l ++ [v])]> d
  | _ => d
  end.

(** [range(n)] over Python ints: empty when [n <= 0]. *)
Definition range (n : Z) : list Z := Z.of_nat <$> seq 0 (Z.to_nat n).

(** [needle in haystack] for strings, as a proposition. *)
Definition mentions (haystack needle : string) : Prop :=
  ∃ pre post, haystack = pre +:+ needle +:+ post.

(** A constraint as it arrives on the wire: a dict from field name to a
    scalar ([type], [student], [student1], [student2]). *)
Abbreviation constraint := (gmap string atom).

(** [constraint.get(k)]: [None] when the key is absent. *)
Definition get (c : constraint) (k : string) : atom := default ANone (c !! k).

(* ===================================================================== *)
(** ** Exceptions *)
(* ===================================================================== *)

Inductive pyexc : Type := KeyError | IndexError.

Inductive result (A : Type) : Type :=
| Ok (a : A)
| Raise (e : pyexc).
Arguments Ok {A} a.
Arguments Raise {A} e.

#[global] Instance result_ret : MRet result := fun _ a => Ok a.
#[global] Instance result_bind : MBind result := fun _ _ f m =>
  match m with
  | Ok a => f a
  | Raise e => Raise e
  end.

(** [d[k]] on a dict: [KeyError] when the key is absent. *)
Definition subscript `{Countable K} {A} (d : gmap K A) (k : K) : result A :=
  match d !! k with
  | Some a => Ok a
  | None => Raise KeyError
  end.

(** [l[i]] on a list with a non-negative index: [IndexError] out of range. *)
Definition index {A} (l : list A) (i : Z) : result A :=
  match l !! Z.to_nat i with
  | Some a => Ok a
  | None => Raise IndexError
  end.

(** A [for x in xs:] loop whose body may raise, threading the loop state. *)
Fixpoint for_each {A S} (xs : list A) (body : A → S → result S) (s : S)
  : result S :=
  match xs with
  | [] => Ok s
  | x :: xs' => s' ← body x s; for_each xs' body s'
  end.

(** A generator [e(x) for x in xs] consumed eagerly; the first raising
    element aborts it. *)
Fixpoint gen {A B} (f : A → result B) (xs : list A) : result (list B) :=
  match xs with
  | [] => Ok []
  | x :: xs' => b ← f x; bs ← gen f xs'; Ok (b :: bs)
  end.

(* ===================================================================== *)
(** ** [validate_constraints] *)
(* ===================================================================== *)

(** Loop state of the tally: [constraint_counts], [front_row_requirements],
    [back_row_exclusions]. *)
Definition tally_step (st : gmap atom Z * Z * Z) (c : constraint)
  : gmap atom Z * Z * Z :=
  let '(constraint_counts, front_row_requirements, back_row_exclusions) := st in
  let constraint_type := default (AStr "unknown") (c !! "type") in
  let constraint_counts :=
    <[constraint_type := default 0 (constraint_counts !! constraint_type) + 1]>
      constraint_counts in
  if decide (constraint_type = AStr "must_front_row") then
    (constraint_counts, front_row_requirements + 1, back_row_exclusions)
  else if decide (constraint_type = AStr "cannot_back_row") then
    (constraint_counts, front_row_requirements, back_row_exclusions + 1)
  else
    (constraint_counts, front_row_requirements, back_row_exclusions).

Definition not_enough_seats (num_students total_seats : Z) : string :=
  "Not enough seats: " +:+ str_of_Z num_students +:+ " students need "
    +:+ str_of_Z total_seats +:+ " seats".

Definition front_row_warning (columns front_row_requirements : Z) : string :=
  "Front row has only " +:+ str_of_Z columns +:+ " seats but "
    +:+ str_of_Z front_row_requirements +:+ " students require it".

Definition back_row_warning : string :=
  "Too many students excluding back row - may be difficult to satisfy".

Definition validate_constraints (classroom_size : gmap string Z)
    (num_students : Z) (constraints : list constraint) : gmap atom pyval :=
  let rows := default 0 (classroom_size !! "rows") in
  let columns := default 0 (classroom_size !! "columns") in
  let total_seats := rows * columns in
  let validation_result :=
    dict_of [ ("valid", VBool true);
              ("warnings", VList []);
              ("errors", VList []);
              ("info", VDict (dict_of
                 [ ("total_seats", VInt total_seats);
                   ("students", VInt num_students);
                   ("available_seats", VInt (total_seats - num_students)) ])) ] in
  (* Check basic feasibility *)
  if num_students >? total_seats then
    let validation_result := <[AStr "valid" := VBool false]> validation_result in
    let validation_result :=
      dict_append "errors" (VStr (not_enough_seats num_students total_seats))
        validation_result in
    validation_result
  else
    (* Count constraint types *)
    let '(constraint_counts, front_row_requirements, back_row_exclusions) :=
      foldl tally_step (∅, 0, 0) constraints in
    (* Check front row capacity *)
    let validation_result :=
      if front_row_requirements >? columns then
        dict_append "warnings"
          (VStr (front_row_warning columns front_row_requirements))
          validation_result
      else validation_result in
    (* Check if too many students exclude back row *)
    let non_back_row_seats := (rows - 1) * columns in
    let validation_result :=
      if back_row_exclusions + front_row_requirements >? non_back_row_seats then
        dict_append "warnings" (VStr back_row_warning) validation_result
      else validation_result in
    <[AStr "constraint_summary" := VDict (VInt <$> constraint_counts)]>
      validation_result.


(* ===================================================================== *)
(** ** [explain_solution] *)
(* ===================================================================== *)

(** A student as the tools exchange it: [{"id": ..., "name": ...}]. *)
Record student : Type := Student { id : atom; name : string }.

(** A seating chart: a list of rows, each cell [None] or a student dict. *)
Abbreviation seating_chart := (list (list (option student))).

(** Body of the position scan: [if seating_chart[row][col]: ...]. *)
Definition record_position (chart : seating_chart) (row col : Z)
    (student_positions : gmap atom (Z * Z)) : result (gmap atom (Z * Z)) :=
  r ← index chart row;
  cell ← index r col;
  match cell with
  | Some s => Ok (<[id s := (row, col)]> student_positions)
  | None => Ok student_positions
  end.

(** The two nested [for] loops that find the student positions. *)
Definition find_positions (chart : seating_chart) (rows columns : Z)
  : result (gmap atom (Z * Z)) :=
  for_each (range rows)
    (fun row => for_each (range columns) (record_position chart row)) ∅.

Definition together_entry (student1_id student2_id : atom) (distance : Z)
  : gmap atom pyval :=
  dict_of
    [ ("constraint",
       VStr ("Students " +:+ str_of_atom student1_id +:+ " and "
               +:+ str_of_atom student2_id +:+ " cannot sit together"));
      ("satisfied", VBool (distance >? 1));
      ("explanation",
       VStr ("They are " +:+ str_of_Z distance
               +:+ " seats apart (row/col distance)")) ].

Definition front_row_entry (student_id : atom) (row col : Z)
  : gmap atom pyval :=
  dict_of
    [ ("constraint",
       VStr ("Student " +:+ str_of_atom student_id
               +:+ " must sit in front row"));
      ("satisfied", VBool (row =? 0));
      ("explanation",
       VStr ("Seated in row " +:+ str_of_Z (row + 1) +:+ ", column "
               +:+ str_of_Z (col + 1))) ].

Definition back_row_entry (student_id : atom) (rows row : Z)
  : gmap atom pyval :=
  dict_of
    [ ("constraint",
       VStr ("Student " +:+ str_of_atom student_id
               +:+ " cannot sit in back row"));
      ("satisfied", VBool (row <? rows - 1));
      ("explanation",
       VStr ("Seated in row " +:+ str_of_Z (row + 1)
               +:+ " (not back row)")) ].

(** Body of the loop over the constraints: the explanations one constraint
    appends (none or one). *)
Definition explain_constraint (rows : Z) (student_positions : gmap atom (Z * Z))
    (c : constraint) : list (gmap atom pyval) :=
  let constraint_type := get c "type" in
  if decide (constraint_type = AStr "cannot_sit_together") then
    let student1_id := get c "student1" in
    let student2_id := get c "student2" in
    match student_positions !! student1_id, student_positions !! student2_id with
    | Some pos1, Some pos2 =>
        let distance :=
          Z.max (Z.abs (pos1.1 - pos2.1)) (Z.abs (pos1.2 - pos2.2)) in
        [together_entry student1_id student2_id distance]
    | _, _ => []
    end
  else if decide (constraint_type = AStr "must_front_row") then
    let student_id := get c "student" in
    match student_positions !! student_id with
    | Some (row, col) => [front_row_entry student_id row col]
    | None => []
    end
  else if decide (constraint_type = AStr "cannot_back_row") then
    let student_id := get c "student" in
    match student_positions !! student_id with
    | Some (row, col) => [back_row_entry student_id rows row]
    | None => []
    end
  else [].

(** [exp.get('satisfied', True)] and [e.get('satisfied')]. *)
Definition get_satisfied (dflt : pyval) (e : gmap atom pyval) : pyval :=
  default dflt (e !! AStr "satisfied").

Definition summary_text (satisfied total : Z) : string :=
  "Successfully satisfied " +:+ str_of_Z satisfied +:+ " out of "
    +:+ str_of_Z total +:+ " constraints".

Definition explain_solution (chart : seating_chart)
    (constraints : list constraint) : result (gmap atom pyval) :=
  let rows := Z.of_nat (length chart) in
  let columns :=
    match chart with
    | row0 :: _ => Z.of_nat (length row0)
    | [] => 0
    end in
  (* Find student positions *)
  student_positions ← find_positions chart rows columns;
  (* Explain each constraint *)
  let explanations :=
    foldl (fun explanations c =>
             explanations ++ explain_constraint rows student_positions c)
      [] constraints in
  let all_satisfied :=
    forallb (fun exp => truthy (get_satisfied (VBool true) exp)) explanations in
  Ok (dict_of
    [ ("all_constraints_satisfied", VBool all_satisfied);
      ("total_constraints", VInt (Z.of_nat (length constraints)));
      ("explanations", VList (VDict <$> explanations));
      ("summary",
       VStr (summary_text
               (Z.of_nat (length (filter (fun e => truthy (get_satisfied VNone e) = true)
                                    explanations)))
               (Z.of_nat (length constraints)))) ]).

(* ===================================================================== *)
(** ** The CP-SAT interface used by [optimize_seating] *)
(* ===================================================================== *)

(** The solver is the external library [ortools.sat.python.cp_model]; only
    the calls the tool makes are represented.  A Boolean variable is its
    index in creation order; a model records the variables created by
    [NewBoolVar] and the constraints passed to [Add] and [AddBoolOr], in call
    order. *)
Inductive literal : Type :=
| Var (v : nat)
| Not (v : nat).

Inductive cp_constraint : Type :=
| SumEq (vars : list nat) (k : Z)     (* model.Add(sum(vars) == k) *)
| SumLe (vars : list nat) (k : Z)     (* model.Add(sum(vars) <= k) *)
| BoolOr (lits : list literal).       (* model.AddBoolOr(lits) *)

Record CpModel : Type := {
  bool_vars : list string;
  added : list cp_constraint
}.

Definition new_model : CpModel := {| bool_vars := []; added := [] |}.

Definition NewBoolVar (name : string) (model : CpModel) : nat * CpModel :=
  (length (bool_vars model),
   {| bool_vars := bool_vars model ++ [name]; added := added model |}).

Definition Add (ct : cp_constraint) (model : CpModel) : CpModel :=
  {| bool_vars := bool_vars model; added := added model ++ [ct] |}.

Inductive cp_status : Type :=
| UNKNOWN | MODEL_INVALID | FEASIBLE | INFEASIBLE | OPTIMAL.

(** What the tool reads off the solver object after [Solve]. *)
Record CpSolver : Type := {
  status : cp_status;
  Value : nat → Z;
  WallTime : PrimFloat.float
}.

(** A sample solver for the interface: it tries every assignment of the
    model's variables.  It only serves to run [optimize_seating] on small
    classrooms; the results below hold for any solver. *)
Definition holds (val : nat → bool) (ct : cp_constraint) : bool :=
  let total vars := foldr (fun v acc => (if val v then 1 else 0) + acc) 0 vars in
  match ct with
  | SumEq vars k => total vars =? k
  | SumLe vars k => total vars <=? k
  | BoolOr lits =>
      existsb (fun l => match l with Var v => val v | Not v => negb (val v) end)
        lits
  end.

Fixpoint assignments (n : nat) : list (list bool) :=
  match n with
  | O => [[]]
  | S n' => bs ← assignments n'; [false :: bs; true :: bs]
  end.

Definition exhaustive_solve (model : CpModel) : CpSolver :=
  let ok bs := forallb (holds (fun v => nth v bs false)) (added model) in
  match find ok (assignments (length (bool_vars model))) with
  | Some bs =>
      {| status := OPTIMAL;
         Value := fun v => if nth v bs false then 1 else 0;
         WallTime := PrimFloat.zero |}
  | None =>
      {| status := INFEASIBLE; Value := fun _ => 0; WallTime := PrimFloat.zero |}
  end.

(* ===================================================================== *)
(** ** [optimize_seating] *)
(* ===================================================================== *)

(** The dict [seats]: [(student_id, row, col)] to its Boolean variable. *)
Abbreviation seat_vars := (gmap (atom * Z * Z) nat).

(** [seats[(student_id, row, col)] = model.NewBoolVar(f'seat_s..._r..._c...')] *)
Definition new_seat (student_id : atom) (row col : Z)
    (st : CpModel * seat_vars) : CpModel * seat_vars :=
  let '(model, seats) := st in
  let '(v, model) :=
    NewBoolVar ("seat_s" +:+ str_of_atom student_id +:+ "_r" +:+ str_of_Z row
                  +:+ "_c" +:+ str_of_Z col) model in
  (model, <[(student_id, row, col) := v]> seats).

Definition declare_seats (rows columns : Z) (students : list student)
    (st : CpModel * seat_vars) : CpModel * seat_vars :=
  foldl (fun st student =>
    foldl (fun st row =>
      foldl (fun st col => new_seat (id student) row col st)
        st (range columns))
      st (range rows))
    st students.

(** The pairs of a generator [... for r in range(rows) for c in range(columns)]. *)
Definition grid (rows columns : Z) : list (Z * Z) :=
  r ← range rows; c ← range columns; [(r, c)].

(** Constraint: each student sits in exactly one seat. *)
Definition one_seat_per_student (rows columns : Z) (seats : seat_vars)
    (students : list student) (model : CpModel) : result CpModel :=
  for_each students (fun student model =>
    vars ← gen (fun rc => subscript seats (id student, rc.1, rc.2))
               (grid rows columns);
    Ok (Add (SumEq vars 1) model)) model.

(** Constraint: each seat has at most one student. *)
Definition one_student_per_seat (rows columns : Z) (seats : seat_vars)
    (students : list student) (model : CpModel) : result CpModel :=
  for_each (range rows) (fun row =>
    for_each (range columns) (fun col model =>
      vars ← gen (fun s => subscript seats (id s, row, col)) students;
      Ok (Add (SumLe vars 1) model))) model.

(** The list [adjacent] built for a seat: the neighbours inside the grid,
    diagonals included. *)
Definition adjacent (rows columns row col : Z) : list (Z * Z) :=
  dr ← [-1; 0; 1];
  dc ← [-1; 0; 1];
  if (dr =? 0) && (dc =? 0) then []
  else
    let new_row := row + dr in
    let new_col := col + dc in
    if (0 <=? new_row) && (new_row <? rows)
       && (0 <=? new_col) && (new_col <? columns)
    then [(new_row, new_col)]
    else [].

(** Body of the loop "Apply custom constraints". *)
Definition apply_constraint (rows columns : Z) (seats : seat_vars)
    (c : constraint) (model : CpModel) : result CpModel :=
  let constraint_type := get c "type" in
  if decide (constraint_type = AStr "cannot_sit_together") then
    let student1_id := get c "student1" in
    let student2_id := get c "student2" in
    for_each (range rows) (fun row =>
      for_each (range columns) (fun col =>
        for_each (adjacent rows columns row col) (fun adj model =>
          a ← subscript seats (student1_id, row, col);
          b ← subscript seats (student2_id, adj.1, adj.2);
          Ok (Add (BoolOr [Not a; Not b]) model)))) model
  else if decide (constraint_type = AStr "must_front_row") then
    let student_id := get c "student" in
    vars ← gen (fun c => subscript seats (student_id, 0, c)) (range columns);
    Ok (Add (SumEq vars 1) model)
  else if decide (constraint_type = AStr "cannot_back_row") then
    let student_id := get c "student" in
    vars ← gen (fun c => subscript seats (student_id, rows - 1, c))
               (range columns);
    Ok (Add (SumEq vars 0) model)
  else if decide (constraint_type = AStr "near_door") then
    Ok model
  else if decide (constraint_type = AStr "near_window") then
    Ok model
  else if decide (constraint_type = AStr "cannot_by_window") then
    let student_id := get c "student" in
    vars ← gen (fun r => subscript seats (student_id, r, columns - 1))
               (range rows);
    Ok (Add (SumEq vars 0) model)
  else if decide (constraint_type = AStr "cannot_by_door") then
    let student_id := get c "student" in
    vars ← gen (fun r => subscript seats (student_id, r, 0)) (range rows);
    Ok (Add (SumEq vars 0) model)
  else Ok model.

(** Everything [optimize_seating] does before calling the solver. *)
Definition build_model (rows columns : Z) (students : list student)
    (constraints : list constraint) : result (CpModel * seat_vars) :=
  let '(model, seats) := declare_seats rows columns students (new_model, ∅) in
  model ← one_seat_per_student rows columns seats students model;
  model ← one_student_per_seat rows columns seats students model;
  model ← for_each constraints (apply_constraint rows columns seats) model;
  Ok (model, seats).

(** [seating_chart[row][col] = v] *)
Definition set_cell (chart : list (list pyval)) (row col : Z) (v : pyval)
  : result (list (list pyval)) :=
  r ← index chart row;
  _ ← index r col;
  Ok (<[Z.to_nat row := <[Z.to_nat col := v]> r]> chart).

Definition infeasible_message : string :=
  "Could not find a valid seating arrangement with the given constraints. Try relaxing some constraints.".

Section optimizer.
(** [solver.Solve(model)] followed by the reads of the solver object. *)
Variable Solve : CpModel → CpSolver.

(** "Extract solution": fill the chart from the solver's values. *)
Definition extract_chart (solver : CpSolver) (rows columns : Z)
    (seats : seat_vars) (students : list student)
  : result (list (list pyval)) :=
  let seating_chart :=
    (fun _ => (fun _ => VNone) <$> range columns) <$> range rows in
  for_each students (fun student =>
    for_each (range rows) (fun row =>
      for_each (range columns) (fun col seating_chart =>
        v ← subscript seats (id student, row, col);
        if truthy (VInt (Value solver v)) then
          set_cell seating_chart row col
            (VDict (dict_of [ ("id", of_atom (id student));
                              ("name", VStr (name student)) ]))
        else Ok seating_chart))) seating_chart.

Definition optimize_seating (classroom_layout : gmap string Z)
    (students : list student) (constraints : list constraint)
  : result (gmap atom pyval) :=
  let rows := default 5 (classroom_layout !! "rows") in
  let columns := default 6 (classroom_layout !! "columns") in
  '(model, seats) ← build_model rows columns students constraints;
  (* Solve the model *)
  let solver := Solve model in
  (* Extract solution *)
  match status solver with
  | OPTIMAL | FEASIBLE =>
      seating_chart ← extract_chart solver rows columns seats students;
      Ok (dict_of
        [ ("success", VBool true);
          ("status",
           VStr (match status solver with
                 | OPTIMAL => "optimal"
                 | _ => "feasible"
                 end));
          ("seating_chart", VList (VList <$> seating_chart));
          ("layout", VDict (dict_of [ ("rows", VInt rows);
                                      ("columns", VInt columns) ]));
          ("statistics", VDict (dict_of
             [ ("solve_time_seconds", VFloat (WallTime solver));
               ("constraints_satisfied",
                VInt (Z.of_nat (length constraints))) ])) ])
  | _ =>
      Ok (dict_of
        [ ("success", VBool false);
          ("status", VStr "infeasible");
          ("message", VStr infeasible_message);
          ("seating_chart", VNone) ])
  end.
End optimizer.

(* ===================================================================== *)
(** ** Vocabulary of the statements *)
(* ===================================================================== *)

(** The dimensions [validate_constraints] reads ([.get(..., 0)]). *)
Definition rows_of (classroom_size : gmap string Z) : Z :=
  default 0 (classroom_size !! "rows").
Definition columns_of (classroom_size : gmap string Z) : Z :=
  default 0 (classroom_size !! "columns").

(** The type under which the validator tallies a constraint. *)
Definition tallied_type (c : constraint) : atom :=
  default (AStr "unknown") (c !! "type").

(** How many constraints of the list are tallied under type [t]. *)
Definition count_type (t : atom) (cs : list constraint) : Z :=
  Z.of_nat (length (filter (fun c => tallied_type c = t) cs)).

(** A warning in the wording of the front-row capacity check. *)
Definition is_front_row_warning (v : pyval) : Prop :=
  ∃ columns required, v = VStr (front_row_warning columns required).

(** Inputs for the examples: [{"rows": r, "columns": c}] and a constraint
    dict given by its items. *)
Definition classroom (rows columns : Z) : gmap string Z :=
  <["columns" := columns]> (<["rows" := rows]> ∅).
Definition constraint_of (items : list (string * atom)) : constraint :=
  list_to_map items.
Definition must_front_row (s : atom) : constraint :=
  constraint_of [("type", AStr "must_front_row"); ("student", s)].
Definition cannot_sit_together (s1 s2 : atom) : constraint :=
  constraint_of [("type", AStr "cannot_sit_together");
                 ("student1", s1); ("student2", s2)].
Definition cannot_by_window (s : atom) : constraint :=
  constraint_of [("type", AStr "cannot_by_window"); ("student", s)].
Definition cannot_by_door (s : atom) : constraint :=
  constraint_of [("type", AStr "cannot_by_door"); ("student", s)].
Definition near_door (s : atom) : constraint :=
  constraint_of [("type", AStr "near_door"); ("student", s)].

Definition student_A : student := Student (AStr "A") "Ann".
Definition student_B : student := Student (AStr "B") "Ben".

(** The constraint types [optimize_seating] has a branch for. *)
Definition builder_types : list atom :=
  AStr <$> [ "cannot_sit_together"; "must_front_row"; "cannot_back_row";
             "near_door"; "near_window"; "cannot_by_window";
             "cannot_by_door" ].

(** The dimensions [optimize_seating] reads ([.get('rows', 5)],
    [.get('columns', 6)]). *)
Definition layout_rows (classroom_layout : gmap string Z) : Z :=
  default 5 (classroom_layout !! "rows").
Definition layout_columns (classroom_layout : gmap string Z) : Z :=
  default 6 (classroom_layout !! "columns").

(** The two records [optimize_seating] can return. *)
Definition statistics_of (solver : CpSolver) (n_constraints : nat)
  : gmap atom pyval :=
  dict_of [ ("solve_time_seconds", VFloat (WallTime solver));
            ("constraints_satisfied", VInt (Z.of_nat n_constraints)) ].

Definition success_result (solver : CpSolver) (rows columns : Z)
    (seating_chart : list (list pyval)) (n_constraints : nat)
  : gmap atom pyval :=
  dict_of
    [ ("success", VBool true);
      ("status", VStr (match status solver with
                       | OPTIMAL => "optimal"
                       | _ => "feasible"
                       end));
      ("seating_chart", VList (VList <$> seating_chart));
      ("layout", VDict (dict_of [ ("rows", VInt rows);
                                  ("columns", VInt columns) ]));
      ("statistics", VDict (statistics_of solver n_constraints)) ].

Definition infeasible_result : gmap atom pyval :=
  dict_of [ ("success", VBool false);
            ("status", VStr "infeasible");
            ("message", VStr infeasible_message);
            ("seating_chart", VNone) ].

(** The dimensions [explain_solution] reads off the chart. *)
Definition chart_rows (chart : seating_chart) : Z := Z.of_nat (length chart).
Definition chart_columns (chart : seating_chart) : Z :=
  match chart with
  | row0 :: _ => Z.of_nat (length row0)
  | [] => 0
  end.

(** A chart is a grid: every row has as many cells as the first. *)
Definition rectangular (chart : seating_chart) : Prop :=
  ∀ r, r ∈ chart → Z.of_nat (length r) = chart_columns chart.

(** Student [s] occupies the cell at [(row, col)] of the chart. *)
Definition seated_at (chart : seating_chart) (s : atom) (row col : Z) : Prop :=
  0 ≤ row ∧ 0 ≤ col
  ∧ ∃ r st, chart !! Z.to_nat row = Some r
            ∧ r !! Z.to_nat col = Some (Some st)
            ∧ id st = s.

(** [s] occupies at most one cell; [s] occupies none. *)
Definition seated_once (chart : seating_chart) (s : atom) : Prop :=
  ∀ r c r' c', seated_at chart s r c → seated_at chart s r' c' →
               r = r' ∧ c = c'.
Definition unseated (chart : seating_chart) (s : atom) : Prop :=
  ∀ r c, ¬ seated_at chart s r c.

(** Chebyshev distance between two seats. *)
Definition chebyshev (p q : Z * Z) : Z :=
  Z.max (Z.abs (p.1 - q.1)) (Z.abs (p.2 - q.2)).

(** The constraint types [explain_solution] has a branch for, and the
    students a constraint of such a type names. *)
Definition explained_types : list atom :=
  AStr <$> [ "cannot_sit_together"; "must_front_row"; "cannot_back_row" ].
Definition references (c : constraint) (s : atom) : Prop :=
  (get c "type" = AStr "cannot_sit_together"
   ∧ (s = get c "student1" ∨ s = get c "student2"))
  ∨ ((get c "type" = AStr "must_front_row"
      ∨ get c "type" = AStr "cannot_back_row")
     ∧ s = get c "student").

(** The constraint is of a type [explain_solution] does not handle, or it
    names a student that is not in the chart. *)
Definition yields_no_entry (chart : seating_chart) (c : constraint) : Prop :=
  get c "type" ∉ explained_types ∨ ∃ s, references c s ∧ unseated chart s.

(** The [explanations] list of a returned report. *)
Definition explanations_of (r : result (gmap atom pyval)) : list pyval :=
  match r with
  | Ok d => match d !! AStr "explanations" with
            | Some (VList l) => l
            | _ => []
            end
  | Raise _ => []
  end.

(** The report [explain_solution] assembles from the explanations it has
    collected for [total] constraints. *)
Definition explain_report (explanations : list (gmap atom pyval)) (total : nat)
  : gmap atom pyval :=
  dict_of
    [ ("all_constraints_satisfied",
       VBool (forallb (fun exp => truthy (get_satisfied (VBool true) exp))
                explanations));
      ("total_constraints", VInt (Z.of_nat total));
      ("explanations", VList (VDict <$> explanations));
      ("summary",
       VStr (summary_text
               (Z.of_nat (length (filter
                  (fun e => truthy (get_satisfied VNone e) = true)
                  explanations)))
               (Z.of_nat total))) ].

(** The model built for student A alone in a 1 x 1 classroom, and the cell
    the solved chart holds for A. *)
Definition one_seat_model : CpModel :=
  {| bool_vars := ["seat_sA_r0_c0"];
     added := [SumEq [0%nat] 1; SumLe [0%nat] 1] |}.
Definition student_A_cell : pyval :=
  VDict (dict_of [ ("id", VStr "A"); ("name", VStr "Ann") ]).

(** Scenario 4: a 3 x 3 chart with A and B on diagonal neighbours. *)
Definition scenario4_chart : seating_chart :=
  [ [Some student_A; None; None];
    [None; Some student_B; None];
    [None; None; None] ].

(** A 1 x 2 chart with A in the window column. *)
Definition window_chart : seating_chart := [ [None; Some student_A] ].

(* ===================================================================== *)
(** ** Further vocabulary *)
(* ===================================================================== *)

(** Sum of the counts of a tally. *)
Definition dict_total (m : gmap atom Z) : Z :=
  map_fold (fun _ v acc => v + acc) 0 m.

(** Every row of the chart has at least as many cells as the first. *)
Definition long_enough (chart : seating_chart) : Prop :=
  ∀ r, r ∈ chart → chart_columns chart ≤ Z.of_nat (length r).

(** The entry carries [satisfied = True]; how many entries do. *)
Definition flagged_satisfied (e : gmap atom pyval) : bool :=
  match e !! AStr "satisfied" with
  | Some (VBool b) => b
  | _ => false
  end.
Definition satisfied_count (es : list (gmap atom pyval)) : Z :=
  Z.of_nat (length (filter (fun e => flagged_satisfied e = true) es)).

Definition ragged_chart : seating_chart :=
  [ [Some student_A; None]; [None] ].

(** The ids of the students, in list order. *)
Definition student_ids (students : list student) : list atom := id <$> students.

(** The keys of [seats], in the order the three nested loops create them. *)
Definition seat_keys (rows columns : Z) (students : list student)
  : list (atom * Z * Z) :=
  s ← students; r ← range rows; c ← range columns; [(id s, r, c)].

(** Every student a constraint makes [optimize_seating] look up is one of
    [ids]. *)
Definition known_students (ids : list atom) (c : constraint) : Prop :=
  (get c "type" = AStr "cannot_sit_together" →
   get c "student1" ∈ ids ∧ get c "student2" ∈ ids)
  ∧ (get c "type" ∈ AStr <$> [ "must_front_row"; "cannot_back_row";
                               "cannot_by_window"; "cannot_by_door" ] →
     get c "student" ∈ ids).

(** [model'] has the variables of [model] and its constraints followed by
    further ones. *)
Definition extends (model model' : CpModel) : Prop :=
  bool_vars model' = bool_vars model
  ∧ ∃ extra, added model' = added model ++ extra.

(** The chart has [rows] rows of [columns] cells each. *)
Definition grid_shaped (rows columns : Z) (chart : list (list pyval)) : Prop :=
  length chart = Z.to_nat rows
  ∧ Forall (fun r => length r = Z.to_nat columns) chart.

(** The constraint types [optimize_seating] turns into model constraints. *)
Definition hard_types : list atom :=
  AStr <$> [ "cannot_sit_together"; "must_front_row"; "cannot_back_row";
             "cannot_by_window"; "cannot_by_door" ].

(** The constraint names a student that is not one of [ids], in a field its
    type makes [optimize_seating] look up. *)
Definition names_unknown_student (ids : list atom) (c : constraint) : Prop :=
  (get c "type" = AStr "cannot_sit_together"
   ∧ (get c "student1" ∉ ids ∨ get c "student2" ∉ ids))
  ∨ (get c "type" ∈ AStr <$> [ "must_front_row"; "cannot_back_row";
                               "cannot_by_window"; "cannot_by_door" ]
     ∧ get c "student" ∉ ids).

(** Two outcomes of [optimize_seating] that agree except on the
    [statistics] field. *)
Definition same_seating (r1 r2 : result (gmap atom pyval)) : Prop :=
  match r1, r2 with
  | Ok d1, Ok d2 => ∀ k, k ≠ AStr "statistics" → d1 !! k = d2 !! k
  | Raise e1, Raise e2 => e1 = e2
  | _, _ => False
  end.

(** Distinct keys of [seats] have distinct variables, all created. *)
Definition fresh_vars (model : CpModel) (seats : seat_vars) : Prop :=
  (∀ k v, seats !! k = Some v → (v < length (bool_vars model))%nat)
  ∧ (∀ k1 k2 v, seats !! k1 = Some v → seats !! k2 = Some v → k1 = k2).

(** The value of [sum(vars)] under an assignment of the variables. *)
Definition total (val : nat → bool) (vars : list nat) : Z :=
  foldr (fun v acc => (if val v then 1 else 0) + acc) 0 vars.

(** The assignment satisfies every constraint added to the model. *)
Definition satisfies (val : nat → bool) (model : CpModel) : Prop :=
  Forall (fun ct => holds val ct = true) (added model).

(** Under the assignment, student [sid] is given the seat [(r, c)]. *)
Definition sits (val : nat → bool) (seats : seat_vars) (sid : atom) (r c : Z)
  : Prop :=
  ∃ v, seats !! (sid, r, c) = Some v ∧ val v = true.

(** An example: A and B in a row of three seats, A first and B last. *)
Definition example_constraints : list constraint :=
  [ cannot_sit_together (AStr "A") (AStr "B");
    must_front_row (AStr "A");
    cannot_by_window (AStr "A");
    cannot_by_door (AStr "B") ].
Definition example_val (v : nat) : bool := Nat.eqb v 0 || Nat.eqb v 5.

#[global] Instance known_students_dec ids c : Decision (known_students ids c).
Proof. unfold known_students. apply _. Defined.

(** The dict a solved chart holds for a student. *)
Definition student_cell (s : student) : pyval :=
  VDict (dict_of [ ("id", of_atom (id s)); ("name", VStr (name s)) ]).

(** [chart[r][c]] for indices inside the chart. *)
Definition cell_at (chart : list (list pyval)) (r c : Z) : option pyval :=
  chart !! Z.to_nat r ≫= fun row => row !! Z.to_nat c.

(** The assignment the tool reads off the solver: [if solver.Value(x):]. *)
Definition chosen (solver : CpSolver) (v : nat) : bool :=
  truthy (VInt (Value solver v)).

(* ===================================================================== *)
(** ** Proof tactics *)
(* ===================================================================== *)

(** Equality of loop states, componentwise. *)
Ltac same_state :=
  repeat match goal with |- (_, _) = (_, _) => f_equal end; try done; lia.

(** Case analysis of [seated_at] on a chart given cell by cell. *)
Ltac seat_cases H :=
  let Hr := fresh "Hr" in let Hc := fresh "Hc" in
  let rw := fresh "rw" in let st := fresh "st" in
  let Hrow := fresh "Hrow" in let Hcell := fresh "Hcell" in
  let Hid := fresh "Hid" in
  destruct H as (Hr & Hc & rw & st & Hrow & Hcell & Hid);
  match type of Hrow with
  | _ !! Z.to_nat ?r = _ =>
      let n := fresh "n" in let En := fresh "En" in
      destruct (Z.to_nat r) as [|[|[|n]]] eqn:En;
      cbn in Hrow; try discriminate Hrow;
      injection Hrow as <-
  end;
  match type of Hcell with
  | _ !! Z.to_nat ?c = _ =>
      let n := fresh "n" in let En := fresh "En" in
      destruct (Z.to_nat c) as [|[|[|n]]] eqn:En;
      cbn in Hcell; try discriminate Hcell;
      injection Hcell as <-
  end;
  cbn in Hid; try discriminate Hid.

(* ===================================================================== *)
(** ** Results about [validate_constraints] *)
(* ===================================================================== *)

Lemma append_assoc (a b c : string) : (a +:+ b) +:+ c = a +:+ b +:+ c.
Proof.
  induction a as [|ch a IH]; [done |].
  change (String ch ((a +:+ b) +:+ c) = String ch (a +:+ b +:+ c)).
  by rewrite IH.
Qed.

Lemma mentions_middle (a b c : string) : mentions (a +:+ b +:+ c) b.
Proof. by exists a, c. Qed.

Lemma not_enough_seats_mentions (n t : Z) :
  mentions (not_enough_seats n t) (str_of_Z n)
  ∧ mentions (not_enough_seats n t) (str_of_Z t).
Proof.
  split; unfold not_enough_seats.
  - apply mentions_middle.
  - exists ("Not enough seats: " +:+ str_of_Z n +:+ " students need "), " seats".
    by rewrite !append_assoc.
Qed.

Lemma count_type_nonneg t cs : 0 ≤ count_type t cs.
Proof. unfold count_type. lia. Qed.

Lemma count_type_cons t c cs :
  count_type t (c :: cs) =
  (if decide (tallied_type c = t) then 1 else 0) + count_type t cs.
Proof.
  unfold count_type. rewrite filter_cons.
  destruct (decide (tallied_type c = t)); simpl; lia.
Qed.

(** The tally loop, in closed form. *)
Lemma tally_spec cs : ∀ (m : gmap atom Z) (f b : Z),
  ∃ m', foldl tally_step (m, f, b) cs =
          (m', f + count_type (AStr "must_front_row") cs,
               b + count_type (AStr "cannot_back_row") cs)
        ∧ ∀ t, m' !! t = if decide (count_type t cs = 0) then m !! t
                         else Some (default 0 (m !! t) + count_type t cs).
Proof.
  induction cs as [|c cs IH]; intros m f b.
  - exists m. split; [simpl; unfold count_type; simpl; same_state |].
    intros t. by destruct (decide _).
  - cbn [foldl].
    set (ty := default (AStr "unknown") (c !! "type")).
    set (m1 := <[ty := default 0 (m !! ty) + 1]> m).
    assert (Hstep : tally_step (m, f, b) c =
      (m1, f + (if decide (ty = AStr "must_front_row") then 1 else 0),
           b + (if decide (ty = AStr "cannot_back_row") then 1 else 0))).
    { unfold tally_step. fold ty. fold m1.
      destruct (decide (ty = AStr "must_front_row")) as [E|NE].
      - rewrite decide_False by (rewrite E; discriminate).
        same_state.
      - destruct (decide (ty = AStr "cannot_back_row")); same_state. }
    rewrite Hstep.
    destruct (IH m1 (f + (if decide (ty = AStr "must_front_row") then 1 else 0))
                 (b + (if decide (ty = AStr "cannot_back_row") then 1 else 0)))
      as (m' & Hfold & Hm').
    exists m'. split.
    + rewrite Hfold, !count_type_cons. fold ty. unfold tallied_type. fold ty.
      same_state.
    + intros t. rewrite Hm', count_type_cons. unfold tallied_type. fold ty.
      pose proof (count_type_nonneg t cs) as Hnn.
      unfold m1. destruct (decide (ty = t)) as [->|NE].
      * rewrite lookup_insert_eq. simpl.
        destruct (decide (count_type t cs = 0)) as [E0|N0].
        -- rewrite E0. rewrite decide_False by lia. f_equal; lia.
        -- rewrite decide_False by lia. f_equal; lia.
      * rewrite lookup_insert_ne by done.
        destruct (decide (count_type t cs = 0)) as [E0|N0].
        -- rewrite decide_True by lia. done.
        -- rewrite decide_False by lia. f_equal; lia.
Qed.

Section validate.
Variables (classroom_size : gmap string Z) (num_students : Z)
          (constraints : list constraint).

Let rows := rows_of classroom_size.
Let columns := columns_of classroom_size.
Let total_seats := rows * columns.
Let front := count_type (AStr "must_front_row") constraints.
Let back := count_type (AStr "cannot_back_row") constraints.
Let report := validate_constraints classroom_size num_students constraints.

(** The warnings of a report that passed the capacity check. *)
Let expected_warnings : list pyval :=
  (if front >? columns then [VStr (front_row_warning columns front)] else [])
  ++ (if back + front >? (rows - 1) * columns then [VStr back_row_warning]
      else []).

Let info : pyval :=
  VDict (dict_of [ ("total_seats", VInt total_seats);
                   ("students", VInt num_students);
                   ("available_seats", VInt (total_seats - num_students)) ]).

(** The report when there are more students than seats. *)
Lemma validate_exceeded :
  num_students > total_seats →
  report = dict_of [ ("valid", VBool false);
                     ("warnings", VList []);
                     ("errors",
                      VList [VStr (not_enough_seats num_students total_seats)]);
                     ("info", info) ].
Proof.
  intros Hgt. unfold report, validate_constraints.
  fold (rows_of classroom_size) (columns_of classroom_size).
  fold rows columns. fold total_seats.
  destruct (Z.gtb_spec num_students total_seats) as [_|Hle]; [|lia].
  apply map_eq. intros k. reflexivity.
Qed.

(** The report when every student has a seat. *)
Lemma validate_within :
  num_students ≤ total_seats →
  ∃ counts : gmap atom Z,
    (∀ t, counts !! t = if decide (count_type t constraints = 0) then None
                        else Some (count_type t constraints))
    ∧ report = dict_of [ ("valid", VBool true);
                         ("warnings", VList expected_warnings);
                         ("errors", VList []);
                         ("info", info);
                         ("constraint_summary", VDict (VInt <$> counts)) ].
Proof.
  intros Hle. unfold report, validate_constraints.
  fold (rows_of classroom_size) (columns_of classroom_size).
  fold rows columns. fold total_seats.
  destruct (Z.gtb_spec num_students total_seats) as [Hgt|_]; [lia|].
  destruct (tally_spec constraints ∅ 0 0) as (counts & -> & Hcounts).
  exists counts. split.
  - intros t. rewrite Hcounts, lookup_empty. simpl.
    destruct (decide _); [done | by rewrite Z.add_0_l].
  - rewrite !Z.add_0_l. fold front back. unfold expected_warnings.
    destruct (front >? columns), (back + front >? (rows - 1) * columns);
      apply map_eq; intros k; reflexivity.
Qed.
End validate.

(** C2: when [num_students > rows * columns], [validate_constraints]
    returns [valid = False] with exactly one error, whose text mentions the
    seat count and the student count.  The function returns at once: the
    warnings stay empty, no [constraint_summary] is tallied, and the report
    is the one obtained with no constraints at all.  [validate_constraints]
    takes no solver and calls none. *)
Theorem validate_capacity_exceeded (classroom_size : gmap string Z)
    (num_students : Z) (constraints : list constraint) :
  num_students > rows_of classroom_size * columns_of classroom_size →
  let total_seats := rows_of classroom_size * columns_of classroom_size in
  let report := validate_constraints classroom_size num_students constraints in
  report !! AStr "valid" = Some (VBool false)
  ∧ (∃ msg, report !! AStr "errors" = Some (VList [VStr msg])
            ∧ msg = not_enough_seats num_students total_seats
            ∧ mentions msg (str_of_Z total_seats)
            ∧ mentions msg (str_of_Z num_students))
  ∧ report !! AStr "warnings" = Some (VList [])
  ∧ report !! AStr "constraint_summary" = None
  ∧ report = validate_constraints classroom_size num_students [].
Proof.
  intros Hgt total_seats report.
  pose proof (validate_exceeded classroom_size num_students constraints Hgt) as Hr.
  pose proof (validate_exceeded classroom_size num_students [] Hgt) as Hr0.
  cbv zeta in Hr, Hr0. fold total_seats in Hr, Hr0. fold report in Hr.
  destruct (not_enough_seats_mentions num_students total_seats) as [Hn Ht].
  repeat split.
  - by rewrite Hr.
  - exists (not_enough_seats num_students total_seats). by rewrite Hr.
  - by rewrite Hr.
  - by rewrite Hr.
  - by rewrite Hr, Hr0.
Qed.

(** Scenario 2: one seat, two students. *)
Lemma validate_capacity_exceeded_witness :
  2 > rows_of (classroom 1 1) * columns_of (classroom 1 1)
  ∧ validate_constraints (classroom 1 1) 2 [must_front_row (AInt 1)]
      !! AStr "errors"
    = Some (VList [VStr "Not enough seats: 2 students need 1 seats"]).
Proof.
  split; [reflexivity |].
  destruct (validate_capacity_exceeded (classroom 1 1) 2
              [must_front_row (AInt 1)]) as (_ & (msg & -> & -> & _) & _);
    reflexivity.
Defined.

(** C4, as the code has it: every report carries [valid], [errors],
    [warnings] and [info] (with [total_seats], [students] and
    [available_seats]); [constraint_summary] is present exactly when the
    students fit ([num_students <= rows * columns]), and then maps each
    tallied constraint type to its count. *)
Theorem validate_report_fields (classroom_size : gmap string Z)
    (num_students : Z) (constraints : list constraint) :
  let total_seats := rows_of classroom_size * columns_of classroom_size in
  let report := validate_constraints classroom_size num_students constraints in
  (∃ b, report !! AStr "valid" = Some (VBool b))
  ∧ (∃ errors, report !! AStr "errors" = Some (VList errors))
  ∧ (∃ warnings, report !! AStr "warnings" = Some (VList warnings))
  ∧ report !! AStr "info"
    = Some (VDict (dict_of
        [ ("total_seats", VInt total_seats);
          ("students", VInt num_students);
          ("available_seats", VInt (total_seats - num_students)) ]))
  ∧ if decide (num_students > total_seats)
    then report !! AStr "constraint_summary" = None
    else ∃ counts : gmap atom Z,
           report !! AStr "constraint_summary" = Some (VDict (VInt <$> counts))
           ∧ ∀ t, counts !! t
                  = if decide (count_type t constraints = 0) then None
                    else Some (count_type t constraints).
Proof.
  intros total_seats report.
  destruct (decide (num_students > total_seats)) as [Hgt|Hle].
  - pose proof (validate_exceeded classroom_size num_students constraints Hgt)
      as Hr.
    cbv zeta in Hr. fold total_seats in Hr. fold report in Hr. rewrite Hr.
    repeat split; eauto.
  - destruct (validate_within classroom_size num_students constraints)
      as (counts & Hcounts & Hr); [unfold total_seats in Hle; lia |].
    cbv zeta in Hr. fold total_seats in Hr. fold report in Hr. rewrite Hr.
    repeat split; eauto.
Qed.

(** The capacity-exceeded report has no [constraint_summary] field. *)
Lemma validate_exceeded_lacks_summary :
  validate_constraints (classroom 1 1) 2 [] !! AStr "valid"
    = Some (VBool false)
  ∧ validate_constraints (classroom 1 1) 2 [] !! AStr "constraint_summary"
    = None.
Proof. split; reflexivity. Qed.

Lemma front_row_warning_not_back columns required :
  VStr (front_row_warning columns required) ≠ VStr back_row_warning.
Proof. intros H. inversion H. Qed.

(** C8, as the code has it: once the capacity check has passed
    ([num_students <= rows * columns]), the warnings contain a front-row
    capacity warning exactly when the number of [must_front_row] constraints
    strictly exceeds [columns]; the warning then names both numbers. *)
Theorem front_row_warning_iff (classroom_size : gmap string Z)
    (num_students : Z) (constraints : list constraint) :
  num_students ≤ rows_of classroom_size * columns_of classroom_size →
  let columns := columns_of classroom_size in
  let front := count_type (AStr "must_front_row") constraints in
  ∃ warnings,
    validate_constraints classroom_size num_students constraints
      !! AStr "warnings" = Some (VList warnings)
    ∧ ((∃ w, w ∈ warnings ∧ is_front_row_warning w) ↔ front > columns)
    ∧ (front > columns → VStr (front_row_warning columns front) ∈ warnings).
Proof.
  intros Hle columns front.
  destruct (validate_within classroom_size num_students constraints Hle)
    as (counts & _ & Hr).
  cbv zeta in Hr. fold columns in Hr. fold front in Hr. rewrite Hr.
  eexists. split; [reflexivity |].
  destruct (Z.gtb_spec front columns) as [Hgt|Hngt].
  - split; [| intros _; set_solver].
    split; [intros _; lia |]. intros _.
    exists (VStr (front_row_warning columns front)).
    split; [set_solver | by eexists _, _].
  - split; [| lia].
    split; [| lia]. intros (w & Hw & (k & k' & ->)). exfalso.
    destruct (_ >? _); [| by apply elem_of_nil in Hw].
    apply list_elem_of_singleton in Hw.
    by apply front_row_warning_not_back in Hw.
Qed.

(* ===================================================================== *)
(** ** Results about [optimize_seating] *)
(* ===================================================================== *)

Lemma for_each_app {A S} (xs ys : list A) (body : A → S → result S) (s : S) :
  for_each (xs ++ ys) body s = for_each xs body s ≫= for_each ys body.
Proof.
  revert s. induction xs as [|x xs IH]; intros s; [done |].
  cbn [app for_each]. destruct (body x s) as [s'|e]; [apply IH | done].
Qed.

(** A constraint whose type has no branch leaves the model as it is. *)
Lemma apply_constraint_unrecognized rows columns seats (c : constraint) model :
  get c "type" ∉ builder_types →
  apply_constraint rows columns seats c model = Ok model.
Proof.
  intros Hty. unfold apply_constraint.
  repeat (rewrite decide_False;
          [| intros E; apply Hty; rewrite E; unfold builder_types;
             set_solver]).
  done.
Qed.

Lemma build_model_skip rows columns students cs1 (c : constraint) cs2 :
  get c "type" ∉ builder_types →
  build_model rows columns students (cs1 ++ c :: cs2)
  = build_model rows columns students (cs1 ++ cs2).
Proof.
  intros Hty. unfold build_model.
  destruct (declare_seats _ _ _ _) as [model seats].
  destruct (one_seat_per_student _ _ _ _ _) as [m1|e]; [|done].
  cbn [mbind result_bind].
  destruct (one_student_per_seat _ _ _ _ _) as [m2|e]; [|done].
  cbn [mbind result_bind].
  rewrite !for_each_app.
  destruct (for_each cs1 _ m2) as [m3|e]; [|done].
  cbn [mbind result_bind for_each].
  by rewrite apply_constraint_unrecognized.
Qed.

Section optimizer_results.
Variable Solve : CpModel → CpSolver.
Variables (classroom_layout : gmap string Z) (students : list student)
          (constraints : list constraint).

(** Whatever [optimize_seating] returns is one of its two records. *)
Lemma optimize_seating_inv d :
  optimize_seating Solve classroom_layout students constraints = Ok d →
  ∃ model seats,
    build_model (layout_rows classroom_layout)
      (layout_columns classroom_layout) students constraints
    = Ok (model, seats)
    ∧ ((∃ seating_chart,
          d = success_result (Solve model) (layout_rows classroom_layout)
                (layout_columns classroom_layout) seating_chart
                (length constraints))
       ∨ d = infeasible_result).
Proof.
  unfold optimize_seating, layout_rows, layout_columns.
  destruct (build_model _ _ _ _) as [[model seats]|e]; [|done].
  cbn [mbind result_bind]. intros H. exists model, seats. split; [done |].
  destruct (status (Solve model)) eqn:Hst;
    try (right; by inversion H);
    destruct (extract_chart _ _ _ _ _) as [chart|e]; try done;
    left; exists chart; inversion H; unfold success_result; by rewrite Hst.
Qed.
End optimizer_results.

Lemma statistics_keys solver n k :
  is_Some (statistics_of solver n !! k)
  ↔ k = AStr "solve_time_seconds" ∨ k = AStr "constraints_satisfied".
Proof.
  unfold statistics_of, dict_of. cbn [foldl fst snd].
  rewrite !lookup_insert_is_Some, lookup_empty, is_Some_alt. naive_solver.
Qed.

Lemma result_keys d k :
  (d = infeasible_result ∨ ∃ solver rows columns chart n,
       d = success_result solver rows columns chart n) →
  is_Some (d !! k) →
  k ∈ AStr <$> [ "success"; "status"; "seating_chart"; "layout";
                 "statistics"; "message" ].
Proof.
  intros [->|(solver & rows & columns & chart & n & ->)];
    unfold infeasible_result, success_result, dict_of; cbn [foldl fst snd];
    rewrite !lookup_insert_is_Some, lookup_empty, is_Some_alt;
    intros H; set_solver.
Qed.

(** C3, as the code has it: [validate_constraints] reports an error only
    through the capacity check, so its error list is non-empty exactly when
    [num_students > rows * columns], whatever student ids the constraints
    name and whatever the sign of the dimensions; and a result returned by
    [optimize_seating] has no error field: it is the success record or the
    generic infeasible record. *)
Theorem structural_errors_unchecked (Solve : CpModel → CpSolver)
    (classroom_size : gmap string Z) (num_students : Z)
    (constraints : list constraint) (students : list student) :
  let total_seats := rows_of classroom_size * columns_of classroom_size in
  let report := validate_constraints classroom_size num_students constraints in
  report !! AStr "valid" = Some (VBool (negb (num_students >? total_seats)))
  ∧ report !! AStr "errors"
    = Some (VList (if num_students >? total_seats
                   then [VStr (not_enough_seats num_students total_seats)]
                   else []))
  ∧ ∀ d, optimize_seating Solve classroom_size students constraints = Ok d →
         d !! AStr "errors" = None
         ∧ (d !! AStr "message" = None
            ∨ d !! AStr "message" = Some (VStr infeasible_message))
         ∧ ∀ k, is_Some (d !! k) →
                k ∈ AStr <$> [ "success"; "status"; "seating_chart"; "layout";
                               "statistics"; "message" ].
Proof.
  intros total_seats report.
  assert (Hv : report !! AStr "valid"
               = Some (VBool (negb (num_students >? total_seats)))
             ∧ report !! AStr "errors"
               = Some (VList (if num_students >? total_seats
                   then [VStr (not_enough_seats num_students total_seats)]
                   else []))).
  { destruct (Z.gtb_spec num_students total_seats) as [Hgt|Hle].
    - pose proof (validate_exceeded classroom_size num_students constraints)
        as Hr.
      cbv zeta in Hr. fold total_seats in Hr. fold report in Hr.
      rewrite Hr by lia. by split.
    - destruct (validate_within classroom_size num_students constraints Hle)
        as (counts & _ & Hr).
      fold report in Hr. rewrite Hr. by split. }
  destruct Hv as [Hvalid Herrors]. split; [done |]. split; [done |].
  intros d Hd.
  destruct (optimize_seating_inv _ _ _ _ _ Hd) as (model & seats & _ & Hshape).
  split; [| split].
  - destruct Hshape as [[chart ->]| ->]; reflexivity.
  - destruct Hshape as [[chart ->]| ->]; [by left | by right].
  - intros k. apply result_keys.
    destruct Hshape as [[chart ->]| ->]; [right | by left]. by eexists _, _, _, _, _.
Qed.

(** Zero dimensions and a constraint naming a student nobody has: the
    validator answers valid with no error, the optimizer answers success. *)
Lemma structural_errors_swallowed :
  validate_constraints (classroom 0 0) 0 [near_door (AInt 99)] !! AStr "valid"
    = Some (VBool true)
  ∧ validate_constraints (classroom 0 0) 0 [near_door (AInt 99)]
      !! AStr "errors" = Some (VList [])
  ∧ ∃ d, optimize_seating exhaustive_solve (classroom 0 0) []
           [near_door (AInt 99)] = Ok d
         ∧ d !! AStr "success" = Some (VBool true)
         ∧ d !! AStr "errors" = None
         ∧ d !! AStr "message" = None.
Proof.
  split; [reflexivity |]. split; [reflexivity |].
  exists (success_result (exhaustive_solve new_model) 0 0 [] 1).
  repeat split; reflexivity.
Qed.

(** Where a constraint's seat variable is looked up for a student that has
    none, the call raises instead of returning a record. *)
Example unknown_student_raises :
  optimize_seating exhaustive_solve (classroom 2 2) [student_A]
    [must_front_row (AStr "Z")] = Raise KeyError.
Proof. vm_compute. reflexivity. Qed.

(** C5, as the code has it: a constraint whose type has no branch in
    [optimize_seating] adds nothing to the model, and nothing is reported
    back for it: the returned record has no warnings field, its fields being
    those of the success or the infeasible record. *)
Theorem unrecognized_constraint_dropped (Solve : CpModel → CpSolver)
    (classroom_layout : gmap string Z) (students : list student)
    (before : list constraint) (c : constraint) (after : list constraint) :
  get c "type" ∉ builder_types →
  let rows := layout_rows classroom_layout in
  let columns := layout_columns classroom_layout in
  (∀ seats model, apply_constraint rows columns seats c model = Ok model)
  ∧ build_model rows columns students (before ++ c :: after)
    = build_model rows columns students (before ++ after)
  ∧ ∀ d, optimize_seating Solve classroom_layout students
           (before ++ c :: after) = Ok d →
         d !! AStr "warnings" = None
         ∧ d !! AStr "unrecognized_constraint" = None
         ∧ ∀ k, is_Some (d !! k) →
                k ∈ AStr <$> [ "success"; "status"; "seating_chart"; "layout";
                               "statistics"; "message" ].
Proof.
  intros Hty rows columns. split; [| split].
  - intros seats model. by apply apply_constraint_unrecognized.
  - by apply build_model_skip.
  - intros d Hd.
    destruct (optimize_seating_inv _ _ _ _ _ Hd) as (model & seats & _ & Hshape).
    split; [| split].
    + destruct Hshape as [[chart ->]| ->]; reflexivity.
    + destruct Hshape as [[chart ->]| ->]; reflexivity.
    + intros k. apply result_keys.
      destruct Hshape as [[chart ->]| ->]; [right | by left].
      by eexists _, _, _, _, _.
Qed.

(** An unknown type on a one-seat classroom: the solve succeeds and the
    record says nothing about the constraint. *)
Lemma unrecognized_constraint_no_warning :
  ∃ d, optimize_seating exhaustive_solve (classroom 1 1) [student_A]
         [constraint_of [("type", AStr "sit_on_floor"); ("student", AStr "A")]]
       = Ok d
       ∧ d !! AStr "success" = Some (VBool true)
       ∧ d !! AStr "warnings" = None
       ∧ d !! AStr "unrecognized_constraint" = None.
Proof.
  exists (success_result (exhaustive_solve one_seat_model) 1 1
            [[student_A_cell]] 1).
  repeat split; reflexivity.
Qed.

Lemma unrecognized_constraint_dropped_witness :
  (get (constraint_of [("type", AStr "sit_on_floor"); ("student", AStr "A")])
       "type" ∉ builder_types)
  ∧ build_model 1 1 [student_A]
      ([near_door (AStr "A")]
       ++ constraint_of [("type", AStr "sit_on_floor"); ("student", AStr "A")]
       :: [must_front_row (AStr "A")])
    = build_model 1 1 [student_A]
        ([near_door (AStr "A")] ++ [must_front_row (AStr "A")]).
Proof.
  assert (Hty : get (constraint_of [("type", AStr "sit_on_floor");
                                    ("student", AStr "A")]) "type"
                ∉ builder_types).
  { apply (bool_decide_unpack _). vm_compute. exact I. }
  split; [exact Hty |].
  exact (proj1 (proj2 (unrecognized_constraint_dropped exhaustive_solve
    (classroom 1 1) [student_A] [near_door (AStr "A")] _
    [must_front_row (AStr "A")] Hty))).
Defined.

(** C7, as the code has it: a successful result carries a [statistics]
    record with exactly two entries, [solve_time_seconds] (the solver's wall
    time) and [constraints_satisfied]; no count of search nodes is
    reported. *)
Theorem statistics_fields (Solve : CpModel → CpSolver)
    (classroom_layout : gmap string Z) (students : list student)
    (constraints : list constraint) (d : gmap atom pyval) :
  optimize_seating Solve classroom_layout students constraints = Ok d →
  d !! AStr "success" = Some (VBool true) →
  ∃ stats model seats,
    build_model (layout_rows classroom_layout)
      (layout_columns classroom_layout) students constraints
    = Ok (model, seats)
    ∧ d !! AStr "statistics" = Some (VDict stats)
    ∧ stats !! AStr "solve_time_seconds"
      = Some (VFloat (WallTime (Solve model)))
    ∧ stats !! AStr "nodes_explored" = None
    ∧ ∀ k, is_Some (stats !! k)
           ↔ k = AStr "solve_time_seconds" ∨ k = AStr "constraints_satisfied".
Proof.
  intros Hd Hsuccess.
  destruct (optimize_seating_inv _ _ _ _ _ Hd)
    as (model & seats & Hbuild & [[chart ->]| ->]); [| discriminate Hsuccess].
  exists (statistics_of (Solve model) (length constraints)), model, seats.
  split; [done |]. split; [reflexivity |]. split; [reflexivity |].
  split; [reflexivity |]. intros k. apply statistics_keys.
Qed.

(** A successful solve whose statistics have no [nodes_explored] entry. *)
Lemma statistics_lack_nodes_explored :
  ∃ d stats,
    optimize_seating exhaustive_solve (classroom 1 1) [student_A] [] = Ok d
    ∧ d !! AStr "success" = Some (VBool true)
    ∧ d !! AStr "statistics" = Some (VDict stats)
    ∧ stats !! AStr "nodes_explored" = None.
Proof.
  exists (success_result (exhaustive_solve one_seat_model) 1 1
            [[student_A_cell]] 0),
    (statistics_of (exhaustive_solve one_seat_model) 0).
  repeat split; reflexivity.
Qed.

Lemma statistics_fields_witness :
  ∃ d, optimize_seating exhaustive_solve (classroom 1 1) [student_A] [] = Ok d
       ∧ d !! AStr "success" = Some (VBool true)
       ∧ ∃ stats, d !! AStr "statistics" = Some (VDict stats)
                  ∧ stats !! AStr "nodes_explored" = None
                  ∧ is_Some (stats !! AStr "solve_time_seconds").
Proof.
  exists (success_result (exhaustive_solve one_seat_model) 1 1
            [[student_A_cell]] 0).
  split; [reflexivity |]. split; [reflexivity |].
  destruct (statistics_fields exhaustive_solve (classroom 1 1) [student_A] []
              (success_result (exhaustive_solve one_seat_model) 1 1
                 [[student_A_cell]] 0)
              eq_refl eq_refl)
    as (stats & model & seats & Hbuild & Hstats & Htime & Hnodes & _).
  exists stats. split; [exact Hstats |]. split; [exact Hnodes |].
  rewrite Htime. eexists. reflexivity.
Defined.

(** C9: in every successful result, [statistics.constraints_satisfied] is
    the length of the constraint list that was passed in, whatever the
    constraints are. *)
Theorem constraints_satisfied_is_length (Solve : CpModel → CpSolver)
    (classroom_layout : gmap string Z) (students : list student)
    (constraints : list constraint) (d : gmap atom pyval) :
  optimize_seating Solve classroom_layout students constraints = Ok d →
  d !! AStr "success" = Some (VBool true) →
  ∃ stats, d !! AStr "statistics" = Some (VDict stats)
           ∧ stats !! AStr "constraints_satisfied"
             = Some (VInt (Z.of_nat (length constraints))).
Proof.
  intros Hd Hsuccess.
  destruct (optimize_seating_inv _ _ _ _ _ Hd)
    as (model & seats & Hbuild & [[chart ->]| ->]); [| discriminate Hsuccess].
  exists (statistics_of (Solve model) (length constraints)).
  split; reflexivity.
Qed.

(** A soft preference and a constraint of unknown type, both counted. *)
Lemma constraints_satisfied_is_length_witness :
  ∃ d, optimize_seating exhaustive_solve (classroom 1 1) [student_A]
         [ near_door (AStr "A");
           constraint_of [("type", AStr "sit_on_floor")] ] = Ok d
       ∧ d !! AStr "success" = Some (VBool true)
       ∧ ∃ stats, d !! AStr "statistics" = Some (VDict stats)
                  ∧ stats !! AStr "constraints_satisfied" = Some (VInt 2).
Proof.
  exists (success_result (exhaustive_solve one_seat_model) 1 1
            [[student_A_cell]] 2).
  split; [reflexivity |]. split; [reflexivity |].
  exact (constraints_satisfied_is_length exhaustive_solve (classroom 1 1)
           [student_A]
           [ near_door (AStr "A");
             constraint_of [("type", AStr "sit_on_floor")] ]
           (success_result (exhaustive_solve one_seat_model) 1 1
              [[student_A_cell]] 2)
           eq_refl eq_refl).
Defined.

(* ===================================================================== *)
(** ** Results about [explain_solution] *)
(* ===================================================================== *)

Lemma elem_of_range (n i : Z) : i ∈ range n ↔ 0 ≤ i < n.
Proof.
  unfold range. rewrite list_elem_of_fmap. split.
  - intros (k & -> & Hk). apply elem_of_seq in Hk. lia.
  - intros Hi. exists (Z.to_nat i). split; [lia |]. apply elem_of_seq. lia.
Qed.

(** A loop whose body keeps an invariant of the items done so far runs to
    completion and ends in a state satisfying it for the whole list. *)
Lemma for_each_invariant {A S} (I : list A → S → Prop) (body : A → S → result S)
    (xs : list A) (s0 : S) :
  I [] s0 →
  (∀ done x s, x ∈ xs → I done s → ∃ s', body x s = Ok s' ∧ I (done ++ [x]) s') →
  ∃ s', for_each xs body s0 = Ok s' ∧ I xs s'.
Proof.
  intros H0 Hstep.
  assert (Hgen : ∀ todo done s, (∀ x, x ∈ todo → x ∈ xs) → I done s →
            ∃ s', for_each todo body s = Ok s' ∧ I (done ++ todo) s').
  { induction todo as [|x todo IH]; intros done s Hsub Hs.
    - exists s. by rewrite app_nil_r.
    - destruct (Hstep done x s) as (s1 & Hbody & Hs1);
        [apply Hsub; left | done |].
      destruct (IH (done ++ [x]) s1) as (s' & Hrest & Hs');
        [intros y Hy; apply Hsub; by right | done |].
      exists s'. cbn [for_each]. rewrite Hbody. cbn [mbind result_bind].
      split; [done |]. by rewrite <- app_assoc in Hs'. }
  destruct (Hgen xs [] s0) as (s' & Hrun & Hs'); eauto.
Qed.

Section positions.
Variable chart : seating_chart.
Hypothesis Hgrid : rectangular chart.

(** Every recorded position is a cell the student occupies. *)
Let sound (pos : gmap atom (Z * Z)) : Prop :=
  ∀ s r c, pos !! s = Some (r, c) → seated_at chart s r c.

(** Every student in a visited cell has a recorded position. *)
Let covers (visited : Z → Z → Prop) (pos : gmap atom (Z * Z)) : Prop :=
  ∀ s r c, visited r c → seated_at chart s r c → is_Some (pos !! s).

Lemma seated_at_in_range s r c :
  seated_at chart s r c →
  r ∈ range (chart_rows chart) ∧ c ∈ range (chart_columns chart).
Proof.
  intros (Hr & Hc & rw & st & Hrow & Hcell & _).
  rewrite !elem_of_range. unfold chart_rows.
  pose proof (lookup_lt_Some _ _ _ Hrow) as Hlt.
  pose proof (lookup_lt_Some _ _ _ Hcell) as Hlt'.
  rewrite <- (Hgrid rw) by (eapply list_elem_of_lookup_2; eauto). lia.
Qed.

Lemma record_position_spec row col visited pos :
  row ∈ range (chart_rows chart) → col ∈ range (chart_columns chart) →
  sound pos → covers visited pos →
  ∃ pos', record_position chart row col pos = Ok pos'
          ∧ sound pos'
          ∧ covers (fun r c => visited r c ∨ (r = row ∧ c = col)) pos'.
Proof.
  intros Hrow Hcol Hsound Hcov.
  apply elem_of_range in Hrow. apply elem_of_range in Hcol.
  unfold chart_rows in Hrow.
  destruct (lookup_lt_is_Some_2 chart (Z.to_nat row)) as [rw Hrw]; [lia |].
  assert (Hlen : Z.of_nat (length rw) = chart_columns chart)
    by (apply Hgrid; eapply list_elem_of_lookup_2; eauto).
  destruct (lookup_lt_is_Some_2 rw (Z.to_nat col)) as [cell Hcell]; [lia |].
  unfold record_position, index. rewrite Hrw. cbn [mbind result_bind].
  rewrite Hcell. cbn [mbind result_bind].
  destruct cell as [st|].
  - exists (<[id st := (row, col)]> pos). split; [done |]. split.
    + intros s r c. rewrite lookup_insert. case_decide as Hid.
      * intros [= <- <-]. subst s.
        split; [lia |]. split; [lia |]. by exists rw, st.
      * apply Hsound.
    + intros s r c [Hv | [-> ->]] Hseat.
      * apply lookup_insert_is_Some'. right. by eapply Hcov.
      * destruct Hseat as (_ & _ & rw' & st' & Hrw' & Hcell' & Hid).
        rewrite Hrw in Hrw'. injection Hrw' as <-.
        rewrite Hcell in Hcell'. injection Hcell' as <-.
        rewrite <- Hid. by rewrite lookup_insert_eq.
  - exists pos. split; [done |]. split; [done |].
    intros s r c [Hv | [-> ->]] Hseat; [by eapply Hcov |].
    destruct Hseat as (_ & _ & rw' & st' & Hrw' & Hcell' & _).
    rewrite Hrw in Hrw'. injection Hrw' as <-.
    rewrite Hcell in Hcell'. discriminate.
Qed.

(** The position scan succeeds on a grid; it records a position for
    exactly the students of the chart, each at a cell the student
    occupies. *)
Lemma find_positions_spec :
  ∃ pos, find_positions chart (chart_rows chart) (chart_columns chart) = Ok pos
         ∧ (∀ s r c, pos !! s = Some (r, c) → seated_at chart s r c)
         ∧ (∀ s r c, seated_at chart s r c → is_Some (pos !! s)).
Proof.
  unfold find_positions.
  destruct (for_each_invariant
    (fun rows_done pos =>
       sound pos
       ∧ covers (fun r c => r ∈ rows_done ∧ c ∈ range (chart_columns chart))
           pos)
    (fun row => for_each (range (chart_columns chart))
                  (record_position chart row))
    (range (chart_rows chart)) ∅) as (pos & Hrun & Hsound & Hcov).
  - split; [intros s r c H; by rewrite lookup_empty in H |].
    intros s r c [H _]. by apply elem_of_nil in H.
  - intros rows_done row pos0 Hrow [Hs0 Hc0].
    destruct (for_each_invariant
      (fun cols_done pos =>
         sound pos
         ∧ covers (fun r c =>
               (r ∈ rows_done ∧ c ∈ range (chart_columns chart))
               ∨ (r = row ∧ c ∈ cols_done)) pos)
      (record_position chart row) (range (chart_columns chart)) pos0)
      as (pos1 & Hrun1 & Hs1 & Hc1).
    + split; [done |]. intros s r c [H | [_ H]]; [by eapply Hc0 |].
      by apply elem_of_nil in H.
    + intros cols_done col pos' Hcol [Hs' Hc'].
      destruct (record_position_spec row col _ pos' Hrow Hcol Hs' Hc')
        as (pos'' & Hrec & Hs'' & Hc'').
      exists pos''. split; [done |]. split; [done |].
      intros s r c Hv. apply Hc''.
      destruct Hv as [Hv | [-> Hv]]; [by left; left |].
      apply elem_of_app in Hv as [Hv | Hv]; [left; right; by split |].
      apply list_elem_of_singleton in Hv as ->. by right.
    + exists pos1. split; [done |]. split; [done |].
      intros s r c [Hr Hc]. apply Hc1.
      apply elem_of_app in Hr as [Hr | Hr]; [by left |].
      apply list_elem_of_singleton in Hr as ->. by right.
  - exists pos. split; [done |]. split; [done |].
    intros s r c Hseat. eapply Hcov; [| done].
    by apply seated_at_in_range in Hseat.
Qed.
End positions.

Lemma foldl_append {A B} (f : A → list B) (xs : list A) (acc : list B) :
  foldl (fun acc x => acc ++ f x) acc xs = acc ++ flat_map f xs.
Proof.
  revert acc. induction xs as [|x xs IH]; intros acc; cbn [foldl flat_map].
  - by rewrite app_nil_r.
  - by rewrite IH, app_assoc.
Qed.

(** On a grid, [explain_solution] returns the report built from the
    explanations of the individual constraints, in order. *)
Lemma explain_solution_spec (chart : seating_chart) (cs : list constraint) :
  rectangular chart →
  ∃ pos,
    (∀ s r c, pos !! s = Some (r, c) → seated_at chart s r c)
    ∧ (∀ s r c, seated_at chart s r c → is_Some (pos !! s))
    ∧ ∀ cs, explain_solution chart cs
            = Ok (explain_report
                    (flat_map (explain_constraint (chart_rows chart) pos) cs)
                    (length cs)).
Proof.
  intros Hgrid.
  destruct (find_positions_spec chart Hgrid) as (pos & Hfind & Hsound & Hcov).
  exists pos. split; [done |]. split; [done |]. intros cs'.
  unfold explain_solution.
  change (match chart with
          | [] => 0
          | row0 :: _ => Z.of_nat (length row0)
          end) with (chart_columns chart).
  fold (chart_rows chart). rewrite Hfind. cbn [mbind result_bind].
  by rewrite foldl_append.
Qed.

Lemma explanations_of_report es n :
  explanations_of (Ok (explain_report es n)) = VDict <$> es.
Proof. reflexivity. Qed.

(** A student seated exactly once is recorded at that seat. *)
Lemma position_of_seated chart (pos : gmap atom (Z * Z)) s r c :
  (∀ s r c, pos !! s = Some (r, c) → seated_at chart s r c) →
  (∀ s r c, seated_at chart s r c → is_Some (pos !! s)) →
  seated_at chart s r c → seated_once chart s →
  pos !! s = Some (r, c).
Proof.
  intros Hsound Hcov Hseat Honce.
  destruct (Hcov _ _ _ Hseat) as [[r' c'] Hpos].
  destruct (Honce r c r' c' Hseat (Hsound _ _ _ Hpos)) as [-> ->]. done.
Qed.

Lemma position_of_unseated chart (pos : gmap atom (Z * Z)) s :
  (∀ s r c, pos !! s = Some (r, c) → seated_at chart s r c) →
  unseated chart s → pos !! s = None.
Proof.
  intros Hsound Hun. destruct (pos !! s) as [[r c]|] eqn:Hpos; [| done].
  by destruct (Hun r c (Hsound _ _ _ Hpos)).
Qed.

(** C1: on a grid chart in which both students of a [cannot_sit_together]
    constraint are seated (each once), [explain_solution] adds one entry for
    the constraint, in list order, and its [satisfied] flag is true if and
    only if the Chebyshev distance between the two seats is strictly greater
    than 1; at distance exactly 1 the flag is false. *)
Theorem cannot_sit_together_explained (chart : seating_chart)
    (before : list constraint) (c : constraint) (after : list constraint)
    (s1 s2 : atom) (r1 c1 r2 c2 : Z) :
  rectangular chart →
  get c "type" = AStr "cannot_sit_together" →
  get c "student1" = s1 → get c "student2" = s2 →
  seated_at chart s1 r1 c1 → seated_once chart s1 →
  seated_at chart s2 r2 c2 → seated_once chart s2 →
  let distance := chebyshev (r1, c1) (r2, c2) in
  ∃ report entry satisfied,
    explain_solution chart (before ++ c :: after) = Ok report
    ∧ explanations_of (Ok report)
      = explanations_of (explain_solution chart before)
        ++ VDict entry :: explanations_of (explain_solution chart after)
    ∧ entry !! AStr "constraint"
      = Some (VStr ("Students " +:+ str_of_atom s1 +:+ " and "
                      +:+ str_of_atom s2 +:+ " cannot sit together"))
    ∧ entry !! AStr "satisfied" = Some (VBool satisfied)
    ∧ (satisfied = true ↔ distance > 1)
    ∧ (distance = 1 → satisfied = false).
Proof.
  intros Hgrid Hty Hs1 Hs2 Hseat1 Honce1 Hseat2 Honce2 distance.
  destruct (explain_solution_spec chart [] Hgrid) as (pos & Hsound & Hcov & Hrun).
  pose proof (position_of_seated _ _ _ _ _ Hsound Hcov Hseat1 Honce1) as Hp1.
  pose proof (position_of_seated _ _ _ _ _ Hsound Hcov Hseat2 Honce2) as Hp2.
  assert (Hc : explain_constraint (chart_rows chart) pos c
               = [together_entry s1 s2 distance]).
  { unfold explain_constraint. rewrite Hty, Hs1, Hs2.
    rewrite decide_True by done. by rewrite Hp1, Hp2. }
  exists (explain_report
            (flat_map (explain_constraint (chart_rows chart) pos)
               (before ++ c :: after))
            (length (before ++ c :: after))),
    (together_entry s1 s2 distance), (distance >? 1).
  split; [apply Hrun |]. split.
  - rewrite !Hrun, !explanations_of_report.
    rewrite flat_map_app. cbn [flat_map]. rewrite Hc.
    by rewrite fmap_app.
  - split; [reflexivity |]. split; [reflexivity |].
    split; [rewrite Z.gtb_ltb, Z.ltb_lt; lia |].
    intros ->. reflexivity.
Qed.

Lemma scenario4_grid : rectangular scenario4_chart.
Proof.
  intros r Hr. unfold scenario4_chart in Hr.
  repeat (apply elem_of_cons in Hr as [-> | Hr]; [reflexivity |]).
  by apply elem_of_nil in Hr.
Qed.

Lemma scenario4_A : seated_at scenario4_chart (AStr "A") 0 0
                    ∧ seated_once scenario4_chart (AStr "A").
Proof.
  split.
  - split; [lia |]. split; [lia |]. by eexists _, _.
  - intros r c r' c' H H'. seat_cases H. seat_cases H'. lia.
Qed.

Lemma scenario4_B : seated_at scenario4_chart (AStr "B") 1 1
                    ∧ seated_once scenario4_chart (AStr "B").
Proof.
  split.
  - split; [lia |]. split; [lia |]. by eexists _, _.
  - intros r c r' c' H H'. seat_cases H. seat_cases H'. lia.
Qed.

Lemma cannot_sit_together_explained_witness :
  chebyshev (0, 0) (1, 1) = 1
  ∧ ∃ report entry,
      explain_solution scenario4_chart
        ([] ++ cannot_sit_together (AStr "A") (AStr "B") :: []) = Ok report
      ∧ explanations_of (Ok report) = [VDict entry]
      ∧ entry !! AStr "satisfied" = Some (VBool false).
Proof.
  split; [reflexivity |].
  destruct (cannot_sit_together_explained scenario4_chart []
              (cannot_sit_together (AStr "A") (AStr "B")) []
              (AStr "A") (AStr "B") 0 0 1 1
              scenario4_grid eq_refl eq_refl eq_refl
              (proj1 scenario4_A) (proj2 scenario4_A)
              (proj1 scenario4_B) (proj2 scenario4_B))
    as (report & entry & satisfied & Hrun & Hexp & _ & Hsat & _ & Hone).
  exists report, entry. split; [exact Hrun |]. split.
  - rewrite Hexp. reflexivity.
  - rewrite Hsat, (Hone eq_refl). reflexivity.
Defined.

(** The same scenario evaluated outright. *)
Example scenario4_report :
  explain_solution scenario4_chart
    [cannot_sit_together (AStr "A") (AStr "B")]
  = Ok (explain_report [together_entry (AStr "A") (AStr "B") 1] 1).
Proof. reflexivity. Qed.

(** A constraint that names no seated student, or whose type has no branch,
    appends nothing. *)
Lemma explain_constraint_no_entry chart rows (pos : gmap atom (Z * Z))
    (c : constraint) :
  (∀ s r c, pos !! s = Some (r, c) → seated_at chart s r c) →
  yields_no_entry chart c →
  explain_constraint rows pos c = [].
Proof.
  intros Hsound Hno. unfold explain_constraint.
  destruct Hno as [Hty | (s & Href & Hun)].
  - repeat (rewrite decide_False;
            [| intros E; apply Hty; rewrite E; unfold explained_types;
               set_solver]).
    done.
  - pose proof (position_of_unseated _ _ _ Hsound Hun) as Hnone.
    destruct Href as [[Hty [-> | ->]] | [[Hty | Hty] ->]]; rewrite Hty.
    + rewrite decide_True by done. by rewrite Hnone.
    + rewrite decide_True by done. rewrite Hnone.
      by destruct (pos !! get c "student1").
    + rewrite decide_False by discriminate. rewrite decide_True by done.
      by rewrite Hnone.
    + rewrite decide_False by discriminate.
      rewrite decide_False by discriminate. rewrite decide_True by done.
      by rewrite Hnone.
Qed.

(** C10: when no constraint of the list yields an explanation entry, every
    one being of a type [explain_solution] has no branch for or naming a
    student that is not in the chart, the report has
    [all_constraints_satisfied = True] over an empty explanation list, while
    [total_constraints] is the length of the list and the summary reads
    "0 out of" that length. *)
Theorem no_entries_vacuously_satisfied (chart : seating_chart)
    (constraints : list constraint) :
  rectangular chart →
  Forall (yields_no_entry chart) constraints →
  ∃ report,
    explain_solution chart constraints = Ok report
    ∧ report !! AStr "all_constraints_satisfied" = Some (VBool true)
    ∧ report !! AStr "explanations" = Some (VList [])
    ∧ report !! AStr "total_constraints"
      = Some (VInt (Z.of_nat (length constraints)))
    ∧ report !! AStr "summary"
      = Some (VStr ("Successfully satisfied 0 out of "
                      +:+ str_of_Z (Z.of_nat (length constraints))
                      +:+ " constraints")).
Proof.
  intros Hgrid Hall.
  destruct (explain_solution_spec chart [] Hgrid) as (pos & Hsound & _ & Hrun).
  assert (Hnil : flat_map (explain_constraint (chart_rows chart) pos)
                   constraints = []).
  { induction Hall as [|c cs Hc _ IH]; [done |].
    cbn [flat_map]. rewrite IH.
    by rewrite (explain_constraint_no_entry chart _ _ _ Hsound Hc). }
  exists (explain_report [] (length constraints)).
  split; [by rewrite Hrun, Hnil |]. repeat split; reflexivity.
Qed.

Lemma window_chart_grid : rectangular window_chart.
Proof.
  intros r Hr. apply list_elem_of_singleton in Hr as ->. reflexivity.
Qed.

Lemma window_chart_no_Z : unseated window_chart (AStr "Z").
Proof. intros r c H. seat_cases H. Qed.

Lemma no_entries_vacuously_satisfied_witness :
  ∃ report,
    explain_solution window_chart
      [cannot_by_window (AStr "A"); must_front_row (AStr "Z")] = Ok report
    ∧ report !! AStr "all_constraints_satisfied" = Some (VBool true)
    ∧ report !! AStr "total_constraints" = Some (VInt 2)
    ∧ report !! AStr "summary"
      = Some (VStr "Successfully satisfied 0 out of 2 constraints").
Proof.
  destruct (no_entries_vacuously_satisfied window_chart
              [cannot_by_window (AStr "A"); must_front_row (AStr "Z")]
              window_chart_grid)
    as (report & Hrun & Hall & _ & Htotal & Hsummary).
  { constructor; [| constructor; [| constructor]].
    - left. apply (bool_decide_unpack _). vm_compute. exact I.
    - right. exists (AStr "Z"). split; [| exact window_chart_no_Z].
      right. split; [by left | reflexivity]. }
  exists report. split; [exact Hrun |]. split; [exact Hall |].
  split; [exact Htotal | exact Hsummary].
Defined.

(** [explain_solution] has no branch for [cannot_by_window] and
    [cannot_by_door]: such a constraint gets no entry, whatever the chart. *)
Lemma explain_constraint_window_door rows (pos : gmap atom (Z * Z))
    (c : constraint) :
  get c "type" = AStr "cannot_by_window" ∨ get c "type" = AStr "cannot_by_door" →
  explain_constraint rows pos c = [].
Proof.
  intros [Hty | Hty]; unfold explain_constraint; rewrite Hty;
    by repeat (rewrite decide_False by discriminate).
Qed.

(** C6, evaluated: A sits in the window column and is forbidden to, yet the
    report has no entry for the constraint and declares everything
    satisfied; likewise for the door column. *)
Theorem window_constraint_not_explained :
  explain_solution window_chart [cannot_by_window (AStr "A")]
  = Ok (explain_report [] 1)
  ∧ explain_report [] 1 !! AStr "all_constraints_satisfied"
    = Some (VBool true)
  ∧ explain_report [] 1 !! AStr "explanations" = Some (VList [])
  ∧ explain_solution [ [Some student_A; None] ] [cannot_by_door (AStr "A")]
    = Ok (explain_report [] 1).
Proof. repeat split; reflexivity. Qed.

(** With more students than seats the validator returns before the
    front-row check: two requirements against one column, no warning. *)
Lemma front_row_warning_short_circuited :
  count_type (AStr "must_front_row")
    [must_front_row (AInt 1); must_front_row (AInt 2)]
  > columns_of (classroom 1 1)
  ∧ validate_constraints (classroom 1 1) 2
      [must_front_row (AInt 1); must_front_row (AInt 2)] !! AStr "warnings"
    = Some (VList []).
Proof. split; reflexivity. Qed.

(** Scenario 3, exceeding case: three requirements against two columns. *)
Lemma front_row_warning_iff_witness :
  3 ≤ rows_of (classroom 2 2) * columns_of (classroom 2 2)
  ∧ ∃ warnings,
      validate_constraints (classroom 2 2) 3
        [must_front_row (AInt 1); must_front_row (AInt 2);
         must_front_row (AInt 3)] !! AStr "warnings" = Some (VList warnings)
      ∧ VStr "Front row has only 2 seats but 3 students require it"
        ∈ warnings.
Proof.
  assert (Hle : 3 ≤ rows_of (classroom 2 2) * columns_of (classroom 2 2))
    by (vm_compute; discriminate).
  split; [exact Hle |].
  destruct (front_row_warning_iff (classroom 2 2) 3
              [must_front_row (AInt 1); must_front_row (AInt 2);
               must_front_row (AInt 3)] Hle)
    as (warnings & Hw & _ & Hin).
  exists warnings. split; [exact Hw |]. apply Hin. reflexivity.
Defined.

(** Scenario 3, borderline case: two requirements against two columns give
    no warning. *)
Example front_row_equal_no_warning :
  validate_constraints (classroom 2 2) 2
    [must_front_row (AStr "A"); must_front_row (AStr "B")] !! AStr "warnings"
  = Some (VList []).
Proof. reflexivity. Qed.

(* ===================================================================== *)
(** ** Further results *)
(* ===================================================================== *)

(** X1: once the capacity check has passed, the report is valid and its
    warnings contain the back-row warning exactly when the number of
    [cannot_back_row] plus [must_front_row] constraints exceeds
    [(rows - 1) * columns]. *)
Theorem back_row_warning_iff (classroom_size : gmap string Z)
    (num_students : Z) (constraints : list constraint) :
  num_students ≤ rows_of classroom_size * columns_of classroom_size →
  let non_back_row_seats :=
    (rows_of classroom_size - 1) * columns_of classroom_size in
  let front := count_type (AStr "must_front_row") constraints in
  let back := count_type (AStr "cannot_back_row") constraints in
  ∃ warnings,
    validate_constraints classroom_size num_students constraints
      !! AStr "warnings" = Some (VList warnings)
    ∧ (VStr back_row_warning ∈ warnings ↔ back + front > non_back_row_seats)
    ∧ validate_constraints classroom_size num_students constraints
        !! AStr "valid" = Some (VBool true).
Proof.
  intros Hle non_back front back.
  destruct (validate_within classroom_size num_students constraints Hle)
    as (counts & _ & Hr).
  cbv zeta in Hr. fold front back non_back in Hr. rewrite Hr.
  eexists. split; [reflexivity |]. split; [| reflexivity].
  destruct (Z.gtb_spec (back + front) non_back) as [Hgt|Hngt].
  - split; [intros _; lia |]. intros _. set_solver.
  - split; [| lia]. intros Hin. exfalso.
    rewrite app_nil_r in Hin.
    destruct (_ >? _); [| by apply elem_of_nil in Hin].
    apply list_elem_of_singleton in Hin. symmetry in Hin.
    by apply front_row_warning_not_back in Hin.
Qed.

Lemma back_row_warning_iff_witness :
  2 ≤ rows_of (classroom 1 2) * columns_of (classroom 1 2)
  ∧ ∃ warnings,
      validate_constraints (classroom 1 2) 2
        [constraint_of [("type", AStr "cannot_back_row"); ("student", AInt 1)]]
        !! AStr "warnings" = Some (VList warnings)
      ∧ VStr back_row_warning ∈ warnings.
Proof.
  assert (Hle : 2 ≤ rows_of (classroom 1 2) * columns_of (classroom 1 2))
    by (vm_compute; discriminate).
  split; [exact Hle |].
  destruct (back_row_warning_iff (classroom 1 2) 2
    [constraint_of [("type", AStr "cannot_back_row"); ("student", AInt 1)]] Hle)
    as (warnings & Hw & Hiff & _).
  exists warnings. split; [exact Hw |]. apply Hiff. reflexivity.
Defined.

Lemma count_type_fmap t cs :
  count_type t cs
  = Z.of_nat (length (filter (fun ty => ty = t) (tallied_type <$> cs))).
Proof.
  unfold count_type. f_equal.
  induction cs as [|c cs IH]; [done |].
  rewrite fmap_cons, !filter_cons.
  destruct (decide (tallied_type c = t)); simpl; by rewrite IH.
Qed.

Lemma count_type_perm t cs1 cs2 :
  tallied_type <$> cs1 ≡ₚ tallied_type <$> cs2 →
  count_type t cs1 = count_type t cs2.
Proof. intros Hp. rewrite !count_type_fmap. by rewrite Hp. Qed.

(** X2: the report depends on the constraints only through the multiset of
    their types: reordering the list or changing the students named leaves
    it unchanged. *)
Theorem validate_depends_on_types (classroom_size : gmap string Z)
    (num_students : Z) (cs1 cs2 : list constraint) :
  tallied_type <$> cs1 ≡ₚ tallied_type <$> cs2 →
  validate_constraints classroom_size num_students cs1
  = validate_constraints classroom_size num_students cs2.
Proof.
  intros Hp.
  destruct (Z.le_gt_cases num_students
              (rows_of classroom_size * columns_of classroom_size))
    as [Hle|Hgt].
  - destruct (validate_within classroom_size num_students cs1 Hle)
      as (counts1 & Hc1 & Hr1).
    destruct (validate_within classroom_size num_students cs2 Hle)
      as (counts2 & Hc2 & Hr2).
    cbv zeta in Hr1, Hr2. rewrite Hr1, Hr2.
    assert (counts1 = counts2) as ->.
    { apply map_eq. intros t.
      by rewrite Hc1, Hc2, (count_type_perm t cs1 cs2 Hp). }
    by rewrite !(count_type_perm _ cs1 cs2 Hp).
  - pose proof (validate_exceeded classroom_size num_students cs1) as Hr1.
    pose proof (validate_exceeded classroom_size num_students cs2) as Hr2.
    cbv zeta in Hr1, Hr2. rewrite Hr1, Hr2 by lia. done.
Qed.

Lemma validate_depends_on_types_witness :
  validate_constraints (classroom 2 2) 2
    [must_front_row (AInt 1); cannot_by_door (AInt 2)]
  = validate_constraints (classroom 2 2) 2
      [cannot_by_door (AStr "zoe"); must_front_row (AStr "yan")].
Proof.
  apply (validate_depends_on_types (classroom 2 2) 2
           [must_front_row (AInt 1); cannot_by_door (AInt 2)]
           [cannot_by_door (AStr "zoe"); must_front_row (AStr "yan")]).
  apply perm_swap.
Defined.

Lemma dict_total_insert (m : gmap atom Z) k v :
  dict_total (<[k := v]> m) = dict_total m - default 0 (m !! k) + v.
Proof.
  unfold dict_total.
  destruct (m !! k) as [x|] eqn:Hk; simpl.
  - rewrite <- (insert_delete_eq m k v).
    rewrite map_fold_insert_L; [| intros; lia | apply lookup_delete_eq].
    rewrite (map_fold_delete_L _ _ k x m); [lia | intros; lia | done].
  - rewrite map_fold_insert_L; [lia | intros; lia | done].
Qed.

Lemma tally_total cs : ∀ (m : gmap atom Z) (f b : Z),
  dict_total (foldl tally_step (m, f, b) cs).1.1
  = dict_total m + Z.of_nat (length cs).
Proof.
  induction cs as [|c cs IH]; intros m f b; cbn [foldl length].
  - simpl. lia.
  - assert (Hstep : ∃ f' b', tally_step (m, f, b) c
      = (<[tallied_type c := default 0 (m !! tallied_type c) + 1]> m, f', b')).
    { unfold tally_step, tallied_type.
      repeat case_decide; by eexists _, _. }
    destruct Hstep as (f' & b' & ->). rewrite IH, dict_total_insert. lia.
Qed.

Lemma validate_summary_is_tally (classroom_size : gmap string Z)
    (num_students : Z) (constraints : list constraint) :
  num_students ≤ rows_of classroom_size * columns_of classroom_size →
  validate_constraints classroom_size num_students constraints
    !! AStr "constraint_summary"
  = Some (VDict (VInt <$> (foldl tally_step (∅, 0, 0) constraints).1.1)).
Proof.
  intros Hle. unfold validate_constraints.
  fold (rows_of classroom_size) (columns_of classroom_size).
  destruct (Z.gtb_spec num_students
              (rows_of classroom_size * columns_of classroom_size)); [lia |].
  destruct (foldl tally_step (∅, 0, 0) constraints) as [[m f] b].
  cbn [fst snd]. by rewrite lookup_insert_eq.
Qed.

(** X3: when the students fit, the counts of [constraint_summary] are all
    positive and add up to the number of constraints. *)
Theorem summary_counts_add_up (classroom_size : gmap string Z)
    (num_students : Z) (constraints : list constraint) :
  num_students ≤ rows_of classroom_size * columns_of classroom_size →
  ∃ counts : gmap atom Z,
    validate_constraints classroom_size num_students constraints
      !! AStr "constraint_summary" = Some (VDict (VInt <$> counts))
    ∧ dict_total counts = Z.of_nat (length constraints)
    ∧ ∀ t n, counts !! t = Some n → 0 < n.
Proof.
  intros Hle.
  exists (foldl tally_step (∅, 0, 0) constraints).1.1.
  split; [by apply validate_summary_is_tally |]. split.
  - rewrite tally_total. unfold dict_total. by rewrite map_fold_empty.
  - intros t n Hn.
    destruct (tally_spec constraints ∅ 0 0) as (m' & Hfold & Hm').
    rewrite Hfold in Hn. cbn [fst] in Hn. rewrite Hm', lookup_empty in Hn.
    pose proof (count_type_nonneg t constraints).
    destruct (decide _); [done |]. simpl in Hn. injection Hn as <-. lia.
Qed.

Lemma summary_counts_add_up_witness :
  3 ≤ rows_of (classroom 2 2) * columns_of (classroom 2 2)
  ∧ ∃ counts : gmap atom Z,
      validate_constraints (classroom 2 2) 3
        [must_front_row (AInt 1); near_door (AInt 2); must_front_row (AInt 3)]
        !! AStr "constraint_summary" = Some (VDict (VInt <$> counts))
      ∧ dict_total counts = 3.
Proof.
  assert (Hle : 3 ≤ rows_of (classroom 2 2) * columns_of (classroom 2 2))
    by (vm_compute; discriminate).
  split; [exact Hle |].
  destruct (summary_counts_add_up (classroom 2 2) 3
    [must_front_row (AInt 1); near_door (AInt 2); must_front_row (AInt 3)] Hle)
    as (counts & Hsum & Htot & _).
  exists counts. split; [exact Hsum | exact Htot].
Defined.

(** X4: [info.total_seats] is [info.available_seats] plus the number of
    students, and the report is valid exactly when [available_seats] is not
    negative. *)
Theorem available_seats_sign (classroom_size : gmap string Z)
    (num_students : Z) (constraints : list constraint) :
  let report := validate_constraints classroom_size num_students constraints in
  ∃ info available valid,
    report !! AStr "info" = Some (VDict info)
    ∧ info !! AStr "available_seats" = Some (VInt available)
    ∧ info !! AStr "total_seats" = Some (VInt (available + num_students))
    ∧ report !! AStr "valid" = Some (VBool valid)
    ∧ (valid = true ↔ 0 ≤ available).
Proof.
  intros report.
  set (total := rows_of classroom_size * columns_of classroom_size).
  destruct (Z.le_gt_cases num_students total) as [Hle|Hgt].
  - destruct (validate_within classroom_size num_students constraints Hle)
      as (counts & _ & Hr).
    cbv zeta in Hr. fold report in Hr. fold total in Hr. rewrite Hr.
    eexists _, (total - num_students), true.
    split; [reflexivity |]. split; [reflexivity |].
    split; [by replace (total - num_students + num_students) with total by lia |].
    split; [reflexivity |].
    split; [intros _; lia | done].
  - pose proof (validate_exceeded classroom_size num_students constraints) as Hr.
    cbv zeta in Hr. fold report in Hr. fold total in Hr. rewrite Hr by lia.
    eexists _, (total - num_students), false.
    split; [reflexivity |]. split; [reflexivity |].
    split; [by replace (total - num_students + num_students) with total by lia |].
    split; [reflexivity |].
    split; [done | lia].
Qed.

(** X5: a classroom dict without [rows] or without [columns] counts as
    having no seat at all: the report is valid only when there is no
    student. *)
Theorem missing_dimension_means_no_seats (classroom_size : gmap string Z)
    (num_students : Z) (constraints : list constraint) :
  classroom_size !! "rows" = None ∨ classroom_size !! "columns" = None →
  let report := validate_constraints classroom_size num_students constraints in
  (∃ info, report !! AStr "info" = Some (VDict info)
           ∧ info !! AStr "total_seats" = Some (VInt 0))
  ∧ report !! AStr "valid" = Some (VBool (negb (num_students >? 0))).
Proof.
  intros Hmiss report.
  assert (Htotal : rows_of classroom_size * columns_of classroom_size = 0).
  { unfold rows_of, columns_of. destruct Hmiss as [-> | ->]; simpl; lia. }
  destruct (Z.gtb_spec num_students 0) as [Hgt|Hle].
  - pose proof (validate_exceeded classroom_size num_students constraints) as Hr.
    cbv zeta in Hr. fold report in Hr. rewrite Htotal in Hr.
    rewrite Hr by lia. split; [| reflexivity].
    eexists. split; reflexivity.
  - destruct (validate_within classroom_size num_students constraints)
      as (counts & _ & Hr); [lia |].
    cbv zeta in Hr. fold report in Hr. rewrite Htotal in Hr.
    rewrite Hr. split; [| reflexivity].
    eexists. split; reflexivity.
Qed.

Lemma missing_dimension_means_no_seats_witness :
  ({["rows" := 3]} : gmap string Z) !! "columns" = None
  ∧ validate_constraints {["rows" := 3]} 1 [] !! AStr "valid"
    = Some (VBool false).
Proof.
  split; [reflexivity |].
  exact (proj2 (missing_dimension_means_no_seats {["rows" := 3]} 1 []
                  (or_intror eq_refl))).
Defined.

(** X6: for a [must_front_row] constraint on a student seated once in a
    grid chart, the entry's [satisfied] flag is true exactly when the row is
    0, and its text gives the seat with rows and columns counted from 1. *)
Theorem must_front_row_explained (chart : seating_chart)
    (before : list constraint) (c : constraint) (after : list constraint)
    (s : atom) (row col : Z) :
  rectangular chart →
  get c "type" = AStr "must_front_row" → get c "student" = s →
  seated_at chart s row col → seated_once chart s →
  ∃ report entry satisfied,
    explain_solution chart (before ++ c :: after) = Ok report
    ∧ explanations_of (Ok report)
      = explanations_of (explain_solution chart before)
        ++ VDict entry :: explanations_of (explain_solution chart after)
    ∧ entry !! AStr "satisfied" = Some (VBool satisfied)
    ∧ (satisfied = true ↔ row = 0)
    ∧ entry !! AStr "explanation"
      = Some (VStr ("Seated in row " +:+ str_of_Z (row + 1) +:+ ", column "
                      +:+ str_of_Z (col + 1))).
Proof.
  intros Hgrid Hty Hs Hseat Honce.
  destruct (explain_solution_spec chart [] Hgrid) as (pos & Hsound & Hcov & Hrun).
  pose proof (position_of_seated _ _ _ _ _ Hsound Hcov Hseat Honce) as Hp.
  assert (Hc : explain_constraint (chart_rows chart) pos c
               = [front_row_entry s row col]).
  { unfold explain_constraint. rewrite Hty, Hs.
    rewrite decide_False by discriminate. rewrite decide_True by done.
    by rewrite Hp. }
  eexists _, (front_row_entry s row col), (row =? 0).
  split; [apply Hrun |]. split.
  - rewrite !Hrun, !explanations_of_report.
    rewrite flat_map_app. cbn [flat_map]. rewrite Hc. by rewrite fmap_app.
  - split; [reflexivity |]. split; [apply Z.eqb_eq | reflexivity].
Qed.

Lemma must_front_row_explained_witness :
  ∃ report entry,
    explain_solution scenario4_chart ([] ++ must_front_row (AStr "B") :: [])
    = Ok report
    ∧ explanations_of (Ok report) = [VDict entry]
    ∧ entry !! AStr "satisfied" = Some (VBool false)
    ∧ entry !! AStr "explanation" = Some (VStr "Seated in row 2, column 2").
Proof.
  destruct (must_front_row_explained scenario4_chart []
              (must_front_row (AStr "B")) [] (AStr "B") 1 1
              scenario4_grid eq_refl eq_refl
              (proj1 scenario4_B) (proj2 scenario4_B))
    as (report & entry & satisfied & Hrun & Hexp & Hsat & Hiff & Htext).
  exists report, entry. split; [exact Hrun |]. split; [exact Hexp |].
  split; [| exact Htext].
  rewrite Hsat. destruct satisfied; [| reflexivity].
  discriminate (proj1 Hiff eq_refl).
Defined.

(** X7: for a [cannot_back_row] constraint on a student seated once in a
    grid chart, the entry's [satisfied] flag is true exactly when the row is
    before the last one; the text says "(not back row)" either way. *)
Theorem cannot_back_row_explained (chart : seating_chart)
    (before : list constraint) (c : constraint) (after : list constraint)
    (s : atom) (row col : Z) :
  rectangular chart →
  get c "type" = AStr "cannot_back_row" → get c "student" = s →
  seated_at chart s row col → seated_once chart s →
  ∃ report entry satisfied,
    explain_solution chart (before ++ c :: after) = Ok report
    ∧ explanations_of (Ok report)
      = explanations_of (explain_solution chart before)
        ++ VDict entry :: explanations_of (explain_solution chart after)
    ∧ entry !! AStr "satisfied" = Some (VBool satisfied)
    ∧ (satisfied = true ↔ row < chart_rows chart - 1)
    ∧ entry !! AStr "explanation"
      = Some (VStr ("Seated in row " +:+ str_of_Z (row + 1)
                      +:+ " (not back row)")).
Proof.
  intros Hgrid Hty Hs Hseat Honce.
  destruct (explain_solution_spec chart [] Hgrid) as (pos & Hsound & Hcov & Hrun).
  pose proof (position_of_seated _ _ _ _ _ Hsound Hcov Hseat Honce) as Hp.
  assert (Hc : explain_constraint (chart_rows chart) pos c
               = [back_row_entry s (chart_rows chart) row]).
  { unfold explain_constraint. rewrite Hty, Hs.
    rewrite decide_False by discriminate.
    rewrite decide_False by discriminate. rewrite decide_True by done.
    by rewrite Hp. }
  eexists _, (back_row_entry s (chart_rows chart) row),
    (row <? chart_rows chart - 1).
  split; [apply Hrun |]. split.
  - rewrite !Hrun, !explanations_of_report.
    rewrite flat_map_app. cbn [flat_map]. rewrite Hc. by rewrite fmap_app.
  - split; [reflexivity |]. split; [apply Z.ltb_lt | reflexivity].
Qed.

Lemma cannot_back_row_explained_witness :
  ∃ report entry,
    explain_solution window_chart
      ([] ++ constraint_of [("type", AStr "cannot_back_row");
                            ("student", AStr "A")] :: [])
    = Ok report
    ∧ explanations_of (Ok report) = [VDict entry]
    ∧ entry !! AStr "satisfied" = Some (VBool false)
    ∧ entry !! AStr "explanation"
      = Some (VStr "Seated in row 1 (not back row)").
Proof.
  assert (HA : seated_at window_chart (AStr "A") 0 1
               ∧ seated_once window_chart (AStr "A")).
  { split.
    - split; [lia |]. split; [lia |]. by eexists _, _.
    - intros r c r' c' H H'. seat_cases H. seat_cases H'. lia. }
  destruct (cannot_back_row_explained window_chart []
              (constraint_of [("type", AStr "cannot_back_row");
                              ("student", AStr "A")]) [] (AStr "A") 0 1
              window_chart_grid eq_refl eq_refl (proj1 HA) (proj2 HA))
    as (report & entry & satisfied & Hrun & Hexp & Hsat & Hiff & Htext).
  exists report, entry. split; [exact Hrun |]. split; [exact Hexp |].
  split; [| exact Htext].
  rewrite Hsat. destruct satisfied; [| reflexivity].
  pose proof (proj1 Hiff eq_refl) as Hlt. vm_compute in Hlt. discriminate Hlt.
Defined.

Lemma for_each_raise_kind {A S} (P : pyexc → Prop) (body : A → S → result S)
    (xs : list A) : ∀ s e,
  (∀ x s e, body x s = Raise e → P e) →
  for_each xs body s = Raise e → P e.
Proof.
  induction xs as [|x xs IH]; intros s e Hbody; cbn [for_each]; [done |].
  destruct (body x s) as [s1|e1] eqn:Hx; cbn [mbind result_bind].
  - by apply IH.
  - intros [= <-]. by eapply Hbody.
Qed.

Lemma for_each_ok_elem {A S} (body : A → S → result S) (xs : list A) :
  ∀ s s', for_each xs body s = Ok s' →
          ∀ x, x ∈ xs → ∃ a b, body x a = Ok b.
Proof.
  induction xs as [|x xs IH]; intros s s' Hrun y Hy;
    [by apply elem_of_nil in Hy |].
  cbn [for_each] in Hrun.
  destruct (body x s) as [s1|e1] eqn:Hx; cbn [mbind result_bind] in Hrun;
    [| done].
  apply elem_of_cons in Hy as [-> | Hy]; [by eexists _, _ | by eapply IH].
Qed.

Lemma record_position_raises chart row col pos e :
  record_position chart row col pos = Raise e → e = IndexError.
Proof.
  unfold record_position, index.
  destruct (chart !! Z.to_nat row) as [rw|]; cbn [mbind result_bind];
    [| by intros [= <-]].
  destruct (rw !! Z.to_nat col) as [[st|]|]; cbn [mbind result_bind];
    by intros [= <-].
Qed.

Lemma find_positions_raises chart rows columns e :
  find_positions chart rows columns = Raise e → e = IndexError.
Proof.
  unfold find_positions.
  apply (for_each_raise_kind (fun e => e = IndexError)).
  intros row s e'.
  apply (for_each_raise_kind (fun e => e = IndexError)).
  intros col s' e''. apply record_position_raises.
Qed.

Lemma find_positions_ok_long chart pos :
  find_positions chart (chart_rows chart) (chart_columns chart) = Ok pos →
  long_enough chart.
Proof.
  intros Hrun rw Hrw.
  apply list_elem_of_lookup in Hrw as [i Hi].
  destruct (decide (chart_columns chart ≤ 0)) as [|Hpos]; [lia |].
  pose proof (lookup_lt_Some _ _ _ Hi) as Hlt.
  destruct (for_each_ok_elem _ _ _ _ Hrun (Z.of_nat i)) as (a & b & Hrow).
  { apply elem_of_range. unfold chart_rows. lia. }
  destruct (for_each_ok_elem _ _ _ _ Hrow (chart_columns chart - 1))
    as (a' & b' & Hcell).
  { apply elem_of_range. lia. }
  unfold record_position, index in Hcell.
  rewrite Nat2Z.id, Hi in Hcell. cbn [mbind result_bind] in Hcell.
  destruct (rw !! Z.to_nat (chart_columns chart - 1)) as [cell|] eqn:Hc;
    [| done].
  apply lookup_lt_Some in Hc. lia.
Qed.

Lemma find_positions_long_ok chart :
  long_enough chart →
  ∃ pos, find_positions chart (chart_rows chart) (chart_columns chart) = Ok pos.
Proof.
  intros Hlong. unfold find_positions.
  destruct (for_each_invariant (fun _ _ => True)
    (fun row => for_each (range (chart_columns chart))
                  (record_position chart row))
    (range (chart_rows chart)) ∅) as (pos & Hrun & _); [done | | by exists pos].
  intros _ row pos0 Hrow _.
  destruct (for_each_invariant (fun _ _ => True) (record_position chart row)
    (range (chart_columns chart)) pos0) as (pos1 & Hrun1 & _);
    [done | | by exists pos1].
  intros _ col pos' Hcol _.
  apply elem_of_range in Hrow. apply elem_of_range in Hcol.
  unfold chart_rows in Hrow.
  destruct (lookup_lt_is_Some_2 chart (Z.to_nat row)) as [rw Hrw]; [lia |].
  pose proof (Hlong rw (list_elem_of_lookup_2 _ _ _ Hrw)) as Hlen.
  destruct (lookup_lt_is_Some_2 rw (Z.to_nat col)) as [cell Hcell]; [lia |].
  unfold record_position, index. rewrite Hrw. cbn [mbind result_bind].
  rewrite Hcell. cbn [mbind result_bind].
  destruct cell; by eexists.
Qed.

Lemma explain_solution_find chart cs :
  match find_positions chart (chart_rows chart) (chart_columns chart) with
  | Ok _ => ∃ report, explain_solution chart cs = Ok report
  | Raise e => explain_solution chart cs = Raise e
  end.
Proof.
  unfold explain_solution.
  change (match chart with
          | [] => 0
          | row0 :: _ => Z.of_nat (length row0)
          end) with (chart_columns chart).
  fold (chart_rows chart).
  destruct (find_positions _ _ _); cbn [mbind result_bind]; eauto.
Qed.

(** X8: [explain_solution] returns a report exactly when every row of the
    chart has at least as many cells as the first row; otherwise it raises
    [IndexError], whatever the constraints. *)
Theorem explain_solution_index_error (chart : seating_chart)
    (constraints : list constraint) :
  ((∃ report, explain_solution chart constraints = Ok report)
   ↔ long_enough chart)
  ∧ (explain_solution chart constraints = Raise IndexError
     ↔ ¬ long_enough chart).
Proof.
  pose proof (explain_solution_find chart constraints) as Hfind.
  destruct (find_positions chart (chart_rows chart) (chart_columns chart))
    as [pos|e] eqn:Hpos.
  - pose proof (find_positions_ok_long _ _ Hpos) as Hlong.
    destruct Hfind as [report Hrun]. split; [by split; eauto |].
    rewrite Hrun. split; [done | tauto].
  - assert (e = IndexError) as -> by (by eapply find_positions_raises).
    assert (Hnot : ¬ long_enough chart).
    { intros Hlong. destruct (find_positions_long_ok _ Hlong) as [pos' Hok].
      congruence. }
    rewrite Hfind. split; [| tauto].
    split; [by intros [report ?] | tauto].
Qed.

(** A chart whose second row is shorter than the first. *)
Example ragged_chart_raises :
  explain_solution ragged_chart [must_front_row (AStr "A")] = Raise IndexError.
Proof. reflexivity. Qed.

Lemma explain_constraint_length rows (pos : gmap atom (Z * Z)) (c : constraint) :
  (length (explain_constraint rows pos c) ≤ 1)%nat.
Proof.
  unfold explain_constraint.
  repeat case_decide; repeat case_match; simpl; lia.
Qed.

Lemma flat_map_length_le {A B} (f : A → list B) (xs : list A) :
  (∀ x, (length (f x) ≤ 1)%nat) → (length (flat_map f xs) ≤ length xs)%nat.
Proof.
  intros Hf. induction xs as [|x xs IH]; [done |].
  cbn [flat_map]. rewrite length_app. specialize (Hf x). simpl. lia.
Qed.

(** X9: on a grid chart the explanations of a concatenated constraint list
    are the explanations of the two parts, in order, and there is at most
    one entry per constraint. *)
Theorem explanations_compose (chart : seating_chart)
    (cs1 cs2 : list constraint) :
  rectangular chart →
  explanations_of (explain_solution chart (cs1 ++ cs2))
  = explanations_of (explain_solution chart cs1)
    ++ explanations_of (explain_solution chart cs2)
  ∧ (length (explanations_of (explain_solution chart cs1)) ≤ length cs1)%nat.
Proof.
  intros Hgrid.
  destruct (explain_solution_spec chart [] Hgrid) as (pos & _ & _ & Hrun).
  rewrite !Hrun, !explanations_of_report. split.
  - by rewrite flat_map_app, fmap_app.
  - rewrite length_fmap. apply flat_map_length_le.
    intros c. apply explain_constraint_length.
Qed.

Lemma explanations_compose_witness :
  explanations_of
    (explain_solution scenario4_chart
       ([must_front_row (AStr "A")] ++ [cannot_by_door (AStr "A")]))
  = explanations_of (explain_solution scenario4_chart [must_front_row (AStr "A")])
    ++ explanations_of
         (explain_solution scenario4_chart [cannot_by_door (AStr "A")]).
Proof.
  exact (proj1 (explanations_compose scenario4_chart
                  [must_front_row (AStr "A")] [cannot_by_door (AStr "A")]
                  scenario4_grid)).
Defined.

Lemma explain_constraint_flag rows (pos : gmap atom (Z * Z)) (c : constraint) e :
  e ∈ explain_constraint rows pos c →
  ∃ b, e !! AStr "satisfied" = Some (VBool b).
Proof.
  unfold explain_constraint. intros He.
  repeat case_decide; repeat case_match;
    try (by apply elem_of_nil in He);
    apply list_elem_of_singleton in He as ->; by eexists.
Qed.

Lemma flag_agrees (e : gmap atom pyval) :
  (∃ b, e !! AStr "satisfied" = Some (VBool b)) →
  truthy (get_satisfied (VBool true) e) = flagged_satisfied e
  ∧ truthy (get_satisfied VNone e) = flagged_satisfied e.
Proof.
  intros [b Hb]. unfold get_satisfied, flagged_satisfied. by rewrite Hb.
Qed.

Lemma aggregate_of_flags (es : list (gmap atom pyval)) :
  Forall (fun e => ∃ b, e !! AStr "satisfied" = Some (VBool b)) es →
  Z.of_nat (length (filter (fun e => truthy (get_satisfied VNone e) = true) es))
  = satisfied_count es
  ∧ (forallb (fun e => truthy (get_satisfied (VBool true) e)) es = true
     ↔ satisfied_count es = Z.of_nat (length es))
  ∧ satisfied_count es ≤ Z.of_nat (length es).
Proof.
  unfold satisfied_count.
  induction 1 as [|e es He _ (IH1 & IH2 & IH3)]; [done |].
  destruct (flag_agrees e He) as [Hall Hsum].
  cbn [forallb]. rewrite !filter_cons, Hall, Hsum.
  destruct (flagged_satisfied e); cbn [andb].
  - rewrite decide_True by done. rewrite decide_True by done.
    cbn [length]. split; [lia |]. split; [rewrite IH2; lia | lia].
  - rewrite decide_False by done. rewrite decide_False by done.
    cbn [length]. split; [lia |]. split; [split; [done | lia] | lia].
Qed.

(** X10: on a grid chart the summary counts the entries whose [satisfied]
    flag is true, [all_constraints_satisfied] holds exactly when that count
    is the number of entries, and the number of entries is at most the
    number of constraints. *)
Theorem aggregate_matches_entries (chart : seating_chart)
    (constraints : list constraint) :
  rectangular chart →
  ∃ report es all_satisfied,
    explain_solution chart constraints = Ok report
    ∧ report !! AStr "explanations" = Some (VList (VDict <$> es))
    ∧ report !! AStr "all_constraints_satisfied" = Some (VBool all_satisfied)
    ∧ report !! AStr "summary"
      = Some (VStr (summary_text (satisfied_count es)
                      (Z.of_nat (length constraints))))
    ∧ (all_satisfied = true ↔ satisfied_count es = Z.of_nat (length es))
    ∧ satisfied_count es ≤ Z.of_nat (length es) ≤ Z.of_nat (length constraints).
Proof.
  intros Hgrid.
  destruct (explain_solution_spec chart [] Hgrid) as (pos & _ & _ & Hrun).
  set (es := flat_map (explain_constraint (chart_rows chart) pos) constraints).
  assert (Hflags : Forall (fun e => ∃ b, e !! AStr "satisfied" = Some (VBool b))
                     es).
  { apply Forall_forall. intros e He.
    apply list_elem_of_In, in_flat_map in He as (c & _ & He).
    apply list_elem_of_In in He. by eapply explain_constraint_flag. }
  destruct (aggregate_of_flags es Hflags) as (Hcount & Hall & Hle).
  exists (explain_report es (length constraints)), es,
    (forallb (fun e => truthy (get_satisfied (VBool true) e)) es).
  split; [apply Hrun |]. split; [reflexivity |]. split; [reflexivity |].
  split; [by rewrite <- Hcount |]. split; [exact Hall |].
  split; [exact Hle |].
  apply inj_le, flat_map_length_le. intros c. apply explain_constraint_length.
Qed.

Lemma aggregate_matches_entries_witness :
  ∃ report es,
    explain_solution scenario4_chart
      [must_front_row (AStr "A"); must_front_row (AStr "B")] = Ok report
    ∧ report !! AStr "explanations" = Some (VList (VDict <$> es))
    ∧ report !! AStr "summary"
      = Some (VStr (summary_text (satisfied_count es) 2)).
Proof.
  destruct (aggregate_matches_entries scenario4_chart
              [must_front_row (AStr "A"); must_front_row (AStr "B")]
              scenario4_grid)
    as (report & es & b & Hrun & Hes & _ & Hsum & _).
  exists report, es. split; [exact Hrun |]. split; [exact Hes | exact Hsum].
Defined.

Lemma elem_of_adjacent (rows columns row col r' c' : Z) :
  (r', c') ∈ adjacent rows columns row col
  ↔ 0 ≤ r' < rows ∧ 0 ≤ c' < columns ∧ chebyshev (row, col) (r', c') = 1.
Proof.
  unfold adjacent, chebyshev. cbn [fst snd].
  rewrite list_elem_of_bind. split.
  - intros (dr & Hin & Hdr). apply list_elem_of_bind in Hin as (dc & Hin & Hdc).
    destruct ((dr =? 0) && (dc =? 0)) eqn:Hzero;
      [by apply elem_of_nil in Hin |].
    destruct ((0 <=? row + dr) && (row + dr <? rows)
              && (0 <=? col + dc) && (col + dc <? columns)) eqn:Hgrid;
      [| by apply elem_of_nil in Hin].
    apply list_elem_of_singleton in Hin. injection Hin as -> ->.
    repeat (apply andb_true_iff in Hgrid as [Hgrid ?]).
    apply andb_false_iff in Hzero.
    repeat (apply elem_of_cons in Hdr as [-> | Hdr]);
      try (by apply elem_of_nil in Hdr);
      repeat (apply elem_of_cons in Hdc as [-> | Hdc]);
      try (by apply elem_of_nil in Hdc);
      lia.
  - intros (Hr & Hc & Hd). exists (r' - row). split.
    + apply list_elem_of_bind. exists (c' - col). split.
      * replace ((r' - row =? 0) && (c' - col =? 0)) with false
          by (symmetry; apply andb_false_iff; lia).
        replace ((0 <=? row + (r' - row)) && (row + (r' - row) <? rows)
                 && (0 <=? col + (c' - col)) && (col + (c' - col) <? columns))
          with true by (symmetry; rewrite !andb_true_iff; lia).
        apply list_elem_of_singleton. f_equal; lia.
      * assert (c' - col = -1 ∨ c' - col = 0 ∨ c' - col = 1) as [-> | [-> | ->]]
          by lia; set_solver.
    + assert (r' - row = -1 ∨ r' - row = 0 ∨ r' - row = 1) as [-> | [-> | ->]]
        by lia; set_solver.
Qed.

(** X11: the neighbours the builder lists for a seat are exactly the seats
    of the grid at Chebyshev distance 1; a seat is not its own neighbour and
    being neighbours is symmetric. *)
Theorem adjacent_spec (rows columns row col r' c' : Z) :
  ((r', c') ∈ adjacent rows columns row col
   ↔ 0 ≤ r' < rows ∧ 0 ≤ c' < columns ∧ chebyshev (row, col) (r', c') = 1)
  ∧ ((row, col) ∉ adjacent rows columns row col)
  ∧ (0 ≤ row < rows → 0 ≤ col < columns →
     (r', c') ∈ adjacent rows columns row col →
     (row, col) ∈ adjacent rows columns r' c').
Proof.
  split; [apply elem_of_adjacent |]. split.
  - rewrite elem_of_adjacent. unfold chebyshev. cbn [fst snd]. lia.
  - intros Hrow Hcol. rewrite !elem_of_adjacent. unfold chebyshev.
    cbn [fst snd]. lia.
Qed.


Lemma foldl_bind {A B S} (f : S → B → S) (g : A → list B) (l : list A) :
  ∀ s, foldl f s (l ≫= g) = foldl (fun s x => foldl f s (g x)) s l.
Proof.
  induction l as [|x l IH]; intros s; [done |].
  rewrite bind_cons, foldl_app. cbn [foldl]. apply IH.
Qed.

Lemma foldl_ext_all {A S} (f g : S → A → S) (l : list A) :
  (∀ s x, f s x = g s x) → ∀ s, foldl f s l = foldl g s l.
Proof.
  intros Hfg. induction l as [|x l IH]; intros s; [done |].
  cbn [foldl]. by rewrite Hfg, IH.
Qed.

Lemma declare_seats_flat rows columns students st :
  declare_seats rows columns students st
  = foldl (fun st k => new_seat k.1.1 k.1.2 k.2 st) st
      (seat_keys rows columns students).
Proof.
  unfold declare_seats, seat_keys. rewrite foldl_bind.
  apply foldl_ext_all. intros st1 s. rewrite foldl_bind.
  apply foldl_ext_all. intros st2 r. rewrite foldl_bind.
  apply foldl_ext_all. intros st3 c. reflexivity.
Qed.

Lemma length_range n : length (range n) = Z.to_nat n.
Proof. unfold range. by rewrite length_fmap, length_seq. Qed.

Lemma length_bind_const {A B} (g : A → list B) (l : list A) (n : nat) :
  (∀ x, length (g x) = n) → length (l ≫= g) = (length l * n)%nat.
Proof.
  intros Hg. induction l as [|x l IH]; [done |].
  rewrite bind_cons, length_app, Hg, IH. simpl. lia.
Qed.

Lemma length_seat_keys rows columns students :
  length (seat_keys rows columns students)
  = (length students * (Z.to_nat rows * Z.to_nat columns))%nat.
Proof.
  unfold seat_keys. apply length_bind_const. intros s.
  rewrite (length_bind_const _ _ (Z.to_nat columns)), length_range; [done |].
  intros r. rewrite (length_bind_const _ _ 1%nat), length_range; [lia | done].
Qed.

Lemma elem_of_seat_keys rows columns students sid r c :
  (sid, r, c) ∈ seat_keys rows columns students
  ↔ sid ∈ student_ids students ∧ r ∈ range rows ∧ c ∈ range columns.
Proof.
  unfold seat_keys, student_ids.
  rewrite list_elem_of_bind, list_elem_of_fmap. split.
  - intros (s & Hin & Hs).
    apply list_elem_of_bind in Hin as (r0 & Hin & Hr).
    apply list_elem_of_bind in Hin as (c0 & Hin & Hc).
    apply list_elem_of_singleton in Hin. injection Hin as -> -> ->. eauto.
  - intros ((s & -> & Hs) & Hr & Hc). exists s. split; [| done].
    apply list_elem_of_bind. exists r. split; [| done].
    apply list_elem_of_bind. exists c. split; [| done].
    by apply list_elem_of_singleton.
Qed.

(** The variable-declaration loop over a flat list of keys: it adds one
    variable per key, touches no constraint, and defines exactly the keys. *)
Lemma declare_flat_spec (keys : list (atom * Z * Z)) :
  ∀ (model : CpModel) (seats : seat_vars),
  ∃ model' seats',
    foldl (fun st k => new_seat k.1.1 k.1.2 k.2 st) (model, seats) keys
    = (model', seats')
    ∧ added model' = added model
    ∧ length (bool_vars model')
      = (length (bool_vars model) + length keys)%nat
    ∧ ∀ k, is_Some (seats' !! k) ↔ k ∈ keys ∨ is_Some (seats !! k).
Proof.
  induction keys as [|[[sid r] c] keys IH]; intros model seats.
  - exists model, seats. cbn [foldl length]. split; [done |].
    split; [done |]. split; [lia |]. intros k. set_solver.
  - cbn [foldl fst snd].
    destruct (IH
      {| bool_vars := bool_vars model
           ++ ["seat_s" +:+ str_of_atom sid +:+ "_r" +:+ str_of_Z r
                 +:+ "_c" +:+ str_of_Z c];
         added := added model |}
      (<[(sid, r, c) := length (bool_vars model)]> seats))
      as (model' & seats' & Hfold & Hadded & Hlen & Hdom).
    exists model', seats'. split; [exact Hfold |]. split; [exact Hadded |].
    split.
    + rewrite Hlen. cbn [bool_vars length]. rewrite length_app. simpl. lia.
    + intros k. rewrite Hdom, lookup_insert_is_Some, elem_of_cons.
      destruct (decide ((sid, r, c) = k)) as [-> | Hne]; [tauto |].
      split; [intros [? | [? | [_ ?]]]; auto; done |].
      intros [[-> | ?] | ?]; [done | auto | auto].
Qed.

Lemma gen_ok {A B} (f : A → result B) (xs : list A) :
  (∀ x, x ∈ xs → ∃ b, f x = Ok b) → ∃ bs, gen f xs = Ok bs.
Proof.
  induction xs as [|x xs IH]; intros Hf; [by exists [] |].
  destruct (Hf x) as [b Hb]; [by left |].
  destruct IH as [bs Hbs]; [intros y Hy; apply Hf; by right |].
  exists (b :: bs). cbn [gen]. rewrite Hb. cbn [mbind result_bind].
  by rewrite Hbs.
Qed.

Lemma for_each_preserves {A S} (P : S → Prop) (body : A → S → result S)
    (xs : list A) :
  (∀ x s s', body x s = Ok s' → P s → P s') →
  ∀ s s', for_each xs body s = Ok s' → P s → P s'.
Proof.
  intros Hbody. induction xs as [|x xs IH]; intros s s'; cbn [for_each].
  - by intros [= <-].
  - destruct (body x s) as [s1|e] eqn:Hx; cbn [mbind result_bind]; [| done].
    intros Hrun Hs. eapply IH; [exact Hrun |]. by eapply Hbody.
Qed.

(** A loop whose body succeeds on every item succeeds. *)
Lemma for_each_ok {A S} (body : A → S → result S) (xs : list A) (s : S) :
  (∀ x s, x ∈ xs → ∃ s', body x s = Ok s') → ∃ s', for_each xs body s = Ok s'.
Proof.
  intros Hbody.
  destruct (for_each_invariant (fun _ _ => True) body xs s) as (s' & Hrun & _);
    [done | | by exists s'].
  intros _ x s0 Hx _. destruct (Hbody x s0 Hx) as [s1 Hs1]. by exists s1.
Qed.

Lemma subscript_ok `{Countable K} {A} (d : gmap K A) (k : K) :
  is_Some (d !! k) → ∃ a, subscript d k = Ok a.
Proof. intros [a Ha]. exists a. unfold subscript. by rewrite Ha. Qed.

Section model_building.
Variables (rows columns : Z) (students : list student).

(** What the declaration loop leaves behind. *)
Lemma declare_seats_spec :
  ∃ model seats,
    declare_seats rows columns students (new_model, ∅) = (model, seats)
    ∧ added model = []
    ∧ length (bool_vars model)
      = (length students * (Z.to_nat rows * Z.to_nat columns))%nat
    ∧ ∀ sid r c, is_Some (seats !! (sid, r, c))
                 ↔ sid ∈ student_ids students
                   ∧ r ∈ range rows ∧ c ∈ range columns.
Proof.
  rewrite declare_seats_flat.
  destruct (declare_flat_spec (seat_keys rows columns students) new_model ∅)
    as (model & seats & Hfold & Hadded & Hlen & Hdom).
  exists model, seats. split; [exact Hfold |]. split; [exact Hadded |].
  split; [by rewrite Hlen, length_seat_keys |].
  intros sid r c. rewrite Hdom, elem_of_seat_keys, lookup_empty.
  split; [intros [? | [? ?]]; done | auto].
Qed.

Variable seats : seat_vars.
Hypothesis Hseats : ∀ sid r c,
  is_Some (seats !! (sid, r, c))
  ↔ sid ∈ student_ids students ∧ r ∈ range rows ∧ c ∈ range columns.

Lemma elem_of_grid r c :
  (r, c) ∈ grid rows columns ↔ r ∈ range rows ∧ c ∈ range columns.
Proof.
  unfold grid. rewrite list_elem_of_bind. split.
  - intros (r0 & Hin & Hr). apply list_elem_of_bind in Hin as (c0 & Hin & Hc).
    apply list_elem_of_singleton in Hin. by injection Hin as -> ->.
  - intros [Hr Hc]. exists r. split; [| done].
    apply list_elem_of_bind. exists c. split; [| done].
    by apply list_elem_of_singleton.
Qed.

Lemma one_seat_per_student_ok model :
  ∃ model', one_seat_per_student rows columns seats students model = Ok model'.
Proof.
  unfold one_seat_per_student. apply for_each_ok. intros s m Hs.
  destruct (gen_ok (fun rc => subscript seats (id s, rc.1, rc.2))
              (grid rows columns)) as [vars Hvars].
  { intros [r c] Hrc. apply subscript_ok, Hseats.
    apply elem_of_grid in Hrc as [Hr Hc].
    split; [| done]. unfold student_ids. apply list_elem_of_fmap. eauto. }
  rewrite Hvars. cbn [mbind result_bind]. by eexists.
Qed.

Lemma one_student_per_seat_ok model :
  ∃ model', one_student_per_seat rows columns seats students model = Ok model'.
Proof.
  unfold one_student_per_seat. apply for_each_ok. intros r m0 Hr.
  apply for_each_ok. intros c m Hc.
  destruct (gen_ok (fun s => subscript seats (id s, r, c)) students)
    as [vars Hvars].
  { intros s Hs. apply subscript_ok, Hseats.
    split; [| done]. unfold student_ids. apply list_elem_of_fmap. eauto. }
  rewrite Hvars. cbn [mbind result_bind]. by eexists.
Qed.

(** With at least one row and one column, a constraint that names only
    known students is applied without a failing lookup. *)
Lemma apply_constraint_ok (c : constraint) model :
  1 ≤ rows → 1 ≤ columns →
  known_students (student_ids students) c →
  ∃ model', apply_constraint rows columns seats c model = Ok model'.
Proof.
  intros Hrows Hcols [Hpair Hsingle]. unfold apply_constraint.
  assert (Hgen : ∀ (f : Z → atom * Z * Z) (l : list Z) (ct : list nat → cp_constraint),
            (∀ x, x ∈ l → is_Some (seats !! f x)) →
            ∃ model', (vars ← gen (fun x => subscript seats (f x)) l;
                       Ok (Add (ct vars) model)) = Ok model').
  { intros f l ct Hf.
    destruct (gen_ok (fun x => subscript seats (f x)) l) as [vars Hvars].
    { intros x Hx. by apply subscript_ok, Hf. }
    rewrite Hvars. cbn [mbind result_bind]. by eexists. }
  assert (Hs : ∀ ty, get c "type" = AStr ty →
            ty ∈ [ "must_front_row"; "cannot_back_row";
                   "cannot_by_window"; "cannot_by_door" ] →
            get c "student" ∈ student_ids students).
  { intros ty Hty Hin. apply Hsingle. rewrite Hty.
    apply list_elem_of_fmap. eauto. }
  repeat case_decide.
  - destruct (Hpair ltac:(done)) as [H1 H2].
    apply for_each_ok. intros r m0 Hr.
    apply for_each_ok. intros c0 m1 Hc.
    apply for_each_ok. intros [r' c'] m2 Hadj.
    apply elem_of_adjacent in Hadj as (Hr' & Hc' & _).
    destruct (subscript_ok seats (get c "student1", r, c0)) as [a ->];
      [by apply Hseats |].
    cbn [mbind result_bind fst snd].
    destruct (subscript_ok seats (get c "student2", r', c')) as [b ->];
      [apply Hseats; rewrite !elem_of_range; done |].
    cbn [mbind result_bind]. by eexists.
  - apply (Hgen (fun x => (get c "student", 0, x)) (range columns)
             (fun vars => SumEq vars 1)).
    intros x Hx. apply Hseats. split; [eapply Hs; [done | set_solver] |].
    split; [apply elem_of_range; lia | done].
  - apply (Hgen (fun x => (get c "student", rows - 1, x)) (range columns)
             (fun vars => SumEq vars 0)).
    intros x Hx. apply Hseats. split; [eapply Hs; [done | set_solver] |].
    split; [apply elem_of_range; lia | done].
  - by eexists.
  - by eexists.
  - apply (Hgen (fun x => (get c "student", x, columns - 1)) (range rows)
             (fun vars => SumEq vars 0)).
    intros x Hx. apply Hseats. split; [eapply Hs; [done | set_solver] |].
    split; [done | apply elem_of_range; lia].
  - apply (Hgen (fun x => (get c "student", x, 0)) (range rows)
             (fun vars => SumEq vars 0)).
    intros x Hx. apply Hseats. split; [eapply Hs; [done | set_solver] |].
    split; [done | apply elem_of_range; lia].
  - by eexists.
Qed.
End model_building.

Lemma extends_refl model : extends model model.
Proof. split; [done |]. exists []. by rewrite app_nil_r. Qed.

Lemma extends_trans m1 m2 m3 : extends m1 m2 → extends m2 m3 → extends m1 m3.
Proof.
  intros [Hv1 [e1 He1]] [Hv2 [e2 He2]]. split; [congruence |].
  exists (e1 ++ e2). by rewrite He2, He1, app_assoc.
Qed.

Lemma extends_Add ct model : extends model (Add ct model).
Proof. split; [done |]. by exists [ct]. Qed.

Lemma gen_then_add_extends {A} (f : A → result nat) (l : list A)
    (ct : list nat → cp_constraint) model model' :
  (vars ← gen f l; Ok (Add (ct vars) model)) = Ok model' →
  extends model model'.
Proof.
  destruct (gen f l) as [vars|e]; cbn [mbind result_bind]; [| done].
  intros [= <-]. apply extends_Add.
Qed.

Lemma for_each_extends {A} (body : A → CpModel → result CpModel) (xs : list A) :
  (∀ x m m', body x m = Ok m' → extends m m') →
  ∀ m m', for_each xs body m = Ok m' → extends m m'.
Proof.
  intros Hbody m m' Hrun.
  eapply (for_each_preserves (extends m) body xs);
    [| exact Hrun | apply extends_refl].
  intros x s s' Hx Hs. eapply extends_trans; [exact Hs | by eapply Hbody].
Qed.

Lemma apply_constraint_extends rows columns seats (c : constraint) m m' :
  apply_constraint rows columns seats c m = Ok m' → extends m m'.
Proof.
  unfold apply_constraint. repeat case_decide;
    try (intros [= <-]; apply extends_refl);
    try (apply gen_then_add_extends).
  apply for_each_extends. intros r. apply for_each_extends. intros c0.
  apply for_each_extends. intros adj m1 m2.
  destruct (subscript seats (get c "student1", r, c0)) as [a|e];
    cbn [mbind result_bind]; [| done].
  destruct (subscript seats (get c "student2", adj.1, adj.2)) as [b|e];
    cbn [mbind result_bind]; [| done].
  intros [= <-]. apply extends_Add.
Qed.

(** Unfolding of [build_model] into its four stages. *)
Lemma build_model_stages rows columns students cs model seats :
  build_model rows columns students cs = Ok (model, seats) →
  ∃ m0 m1 m2,
    declare_seats rows columns students (new_model, ∅) = (m0, seats)
    ∧ one_seat_per_student rows columns seats students m0 = Ok m1
    ∧ one_student_per_seat rows columns seats students m1 = Ok m2
    ∧ for_each cs (apply_constraint rows columns seats) m2 = Ok model.
Proof.
  unfold build_model.
  destruct (declare_seats _ _ _ _) as [m0 seats0].
  destruct (one_seat_per_student _ _ _ _ _) as [m1|e] eqn:H1;
    cbn [mbind result_bind]; [| done].
  destruct (one_student_per_seat _ _ _ _ _) as [m2|e] eqn:H2;
    cbn [mbind result_bind]; [| done].
  destruct (for_each cs _ m2) as [m3|e] eqn:H3;
    cbn [mbind result_bind]; [| done].
  intros [= <- <-]. by exists m0, m1, m2.
Qed.

Lemma new_seat_eq (sid : atom) (r c : Z) (model : CpModel)
    (seats : seat_vars) :
  new_seat sid r c (model, seats)
  = ({| bool_vars := bool_vars model
          ++ ["seat_s" +:+ str_of_atom sid +:+ "_r" +:+ str_of_Z r
                +:+ "_c" +:+ str_of_Z c];
        added := added model |},
     <[(sid, r, c) := length (bool_vars model)]> seats).
Proof. reflexivity. Qed.

Lemma new_seat_fresh (sid : atom) (r c : Z) (model : CpModel)
    (seats : seat_vars) :
  fresh_vars model seats →
  fresh_vars (new_seat sid r c (model, seats)).1
             (new_seat sid r c (model, seats)).2.
Proof.
  intros [Hbound Hinj]. rewrite new_seat_eq. unfold fresh_vars.
  cbn [fst snd bool_vars]. split.
  - intros k v. rewrite lookup_insert, length_app. cbn [length].
    case_decide; [intros [= <-]; lia |].
    intros Hk. specialize (Hbound _ _ Hk). lia.
  - intros k1 k2 v. rewrite !lookup_insert.
    repeat case_decide; subst.
    + done.
    + intros [= <-] Hk. specialize (Hbound _ _ Hk). lia.
    + intros Hk [= <-]. specialize (Hbound _ _ Hk). lia.
    + apply Hinj.
Qed.

Lemma declare_seats_fresh rows columns students :
  fresh_vars (declare_seats rows columns students (new_model, ∅)).1
             (declare_seats rows columns students (new_model, ∅)).2.
Proof.
  rewrite declare_seats_flat.
  assert (Hgen : ∀ keys st, fresh_vars st.1 st.2 →
            fresh_vars
              (foldl (fun st k => new_seat k.1.1 k.1.2 k.2 st) st keys).1
              (foldl (fun st k => new_seat k.1.1 k.1.2 k.2 st) st keys).2).
  { induction keys as [|k keys IH]; intros [m s] Hst; [done |].
    cbn [foldl]. apply IH. by apply new_seat_fresh. }
  apply Hgen. unfold fresh_vars. cbn [fst snd].
  split; [intros k v Hk | intros k1 k2 v Hk]; by rewrite lookup_empty in Hk.
Qed.

(** The variables and the keys of [seats] of a model that was built. *)
Lemma build_model_shape (rows columns : Z) (students : list student)
    (constraints : list constraint) (model : CpModel) (seats : seat_vars) :
  build_model rows columns students constraints = Ok (model, seats) →
  length (bool_vars model)
  = (length students * (Z.to_nat rows * Z.to_nat columns))%nat
  ∧ ∀ sid r c, is_Some (seats !! (sid, r, c))
               ↔ sid ∈ student_ids students
                 ∧ 0 ≤ r < rows ∧ 0 ≤ c < columns.
Proof.
  intros Hbuild.
  destruct (build_model_stages _ _ _ _ _ _ Hbuild)
    as (m0 & m1 & m2 & Hdecl & H1 & H2 & H3).
  destruct (declare_seats_spec rows columns students)
    as (m0' & seats' & Hdecl' & _ & Hlen & Hdom).
  rewrite Hdecl in Hdecl'. injection Hdecl' as <- <-.
  split.
  - assert (Hext : extends m0 model).
    { eapply extends_trans; [| eapply extends_trans].
      - eapply for_each_extends; [| exact H1].
        intros s m m'. apply gen_then_add_extends.
      - eapply for_each_extends; [| exact H2].
        intros r. apply for_each_extends. intros c m m'.
        apply gen_then_add_extends.
      - eapply for_each_extends; [| exact H3].
        intros c. apply apply_constraint_extends. }
    destruct Hext as [-> _]. exact Hlen.
  - intros sid r c. rewrite Hdom, !elem_of_range. done.
Qed.

(** X12: a model that builds has one Boolean variable per student and
    seat; [seats] maps every (student, seat) pair to a created variable,
    has no other key, and gives distinct keys distinct variables. *)
Theorem build_model_variables (rows columns : Z) (students : list student)
    (constraints : list constraint) (model : CpModel) (seats : seat_vars) :
  build_model rows columns students constraints = Ok (model, seats) →
  length (bool_vars model)
  = (length students * (Z.to_nat rows * Z.to_nat columns))%nat
  ∧ (∀ s r c, s ∈ students → 0 ≤ r < rows → 0 ≤ c < columns →
              ∃ v, seats !! (id s, r, c) = Some v
                   ∧ (v < length (bool_vars model))%nat)
  ∧ (∀ sid r c, is_Some (seats !! (sid, r, c)) →
                sid ∈ student_ids students ∧ 0 ≤ r < rows ∧ 0 ≤ c < columns)
  ∧ (∀ k1 k2 v, seats !! k1 = Some v → seats !! k2 = Some v → k1 = k2).
Proof.
  intros Hbuild.
  destruct (build_model_shape _ _ _ _ _ _ Hbuild) as [Hlen Hdom].
  destruct (build_model_stages _ _ _ _ _ _ Hbuild)
    as (m0 & m1 & m2 & Hdecl & H1 & H2 & H3).
  pose proof (declare_seats_fresh rows columns students) as [Hbound Hinj].
  rewrite Hdecl in Hbound, Hinj. cbn [fst snd] in Hbound, Hinj.
  destruct (declare_seats_spec rows columns students)
    as (m0' & seats' & Hdecl' & _ & Hlen0 & _).
  rewrite Hdecl in Hdecl'. injection Hdecl' as <- <-.
  split; [exact Hlen |]. split; [| split; [intros sid r c; apply Hdom | exact Hinj]].
  intros s r c Hs Hr Hc.
  destruct (proj2 (Hdom (id s) r c)) as [v Hv].
  { split; [| done]. unfold student_ids. apply list_elem_of_fmap. eauto. }
  exists v. split; [done |].
  specialize (Hbound _ _ Hv). rewrite Hlen. by rewrite <- Hlen0.
Qed.

(** With at least one row and one column and only known students named,
    the model is built without a failing lookup. *)
Lemma build_model_ok rows columns students cs :
  1 ≤ rows → 1 ≤ columns →
  Forall (known_students (student_ids students)) cs →
  ∃ model seats, build_model rows columns students cs = Ok (model, seats).
Proof.
  intros Hrows Hcols Hknown. unfold build_model.
  destruct (declare_seats_spec rows columns students)
    as (m0 & seats & -> & _ & _ & Hdom).
  destruct (one_seat_per_student_ok rows columns students seats Hdom m0)
    as [m1 ->]. cbn [mbind result_bind].
  destruct (one_student_per_seat_ok rows columns students seats Hdom m1)
    as [m2 ->]. cbn [mbind result_bind].
  destruct (for_each_ok (apply_constraint rows columns seats) cs m2)
    as [m3 ->]; [| by eexists _, _].
  intros c m Hc. apply (apply_constraint_ok rows columns students); try done.
  by eapply Forall_forall in Hknown.
Qed.

Lemma build_model_variables_witness :
  ∃ model seats,
    build_model 2 3 [student_A; student_B] [near_door (AStr "A")]
    = Ok (model, seats)
    ∧ length (bool_vars model) = 12%nat.
Proof.
  destruct (build_model_ok 2 3 [student_A; student_B] [near_door (AStr "A")])
    as (model & seats & Hbuild); [lia | lia | |].
  { constructor; [| constructor]. split; intros H.
    - discriminate H.
    - exfalso. revert H. apply (bool_decide_unpack _). vm_compute. exact I. }
  exists model, seats. split; [exact Hbuild |].
  exact (proj1 (build_model_variables 2 3 [student_A; student_B]
                  [near_door (AStr "A")] model seats Hbuild)).
Defined.

Lemma set_cell_ok rows columns chart row col v :
  grid_shaped rows columns chart →
  row ∈ range rows → col ∈ range columns →
  ∃ chart', set_cell chart row col v = Ok chart'
            ∧ grid_shaped rows columns chart'.
Proof.
  intros [Hlen Hrows] Hrow Hcol.
  apply elem_of_range in Hrow. apply elem_of_range in Hcol.
  destruct (lookup_lt_is_Some_2 chart (Z.to_nat row)) as [rw Hrw]; [lia |].
  pose proof (proj1 (Forall_forall _ _) Hrows rw
                (list_elem_of_lookup_2 _ _ _ Hrw)) as Hrwlen.
  cbv beta in Hrwlen.
  destruct (lookup_lt_is_Some_2 rw (Z.to_nat col)) as [cell Hcell]; [lia |].
  unfold set_cell, index. rewrite Hrw. cbn [mbind result_bind].
  rewrite Hcell. cbn [mbind result_bind].
  eexists. split; [done |]. split.
  - by rewrite length_insert.
  - apply Forall_insert; [done |]. by rewrite length_insert.
Qed.

(** Reading the solution back never fails, and yields a chart of the
    classroom's shape. *)
Lemma extract_chart_ok (solver : CpSolver) (rows columns : Z)
    (seats : seat_vars) (students : list student) :
  (∀ sid r c, is_Some (seats !! (sid, r, c))
              ↔ sid ∈ student_ids students
                ∧ r ∈ range rows ∧ c ∈ range columns) →
  ∃ chart, extract_chart solver rows columns seats students = Ok chart
           ∧ grid_shaped rows columns chart.
Proof.
  intros Hdom. unfold extract_chart.
  destruct (for_each_invariant (fun _ chart => grid_shaped rows columns chart)
    (fun student =>
       for_each (range rows) (fun row =>
         for_each (range columns) (fun col seating_chart =>
           v ← subscript seats (id student, row, col);
           if truthy (VInt (Value solver v)) then
             set_cell seating_chart row col
               (VDict (dict_of [ ("id", of_atom (id student));
                                 ("name", VStr (name student)) ]))
           else Ok seating_chart)))
    students
    ((fun _ => (fun _ => VNone) <$> range columns) <$> range rows))
    as (chart & Hrun & Hshape);
    [| | exists chart; split; [exact Hrun | exact Hshape]].
  - split; [by rewrite length_fmap, length_range |].
    apply Forall_fmap, Forall_forall. intros r _. simpl.
    by rewrite length_fmap, length_range.
  - intros _ s chart0 Hs Hshape0.
    apply (for_each_invariant (fun _ chart => grid_shaped rows columns chart));
      [done |].
    intros _ row chart1 Hrow Hshape1.
    apply (for_each_invariant (fun _ chart => grid_shaped rows columns chart));
      [done |].
    intros _ col chart2 Hcol Hshape2.
    destruct (subscript_ok seats (id s, row, col)) as [v ->].
    { apply Hdom. split; [| done]. unfold student_ids.
      apply list_elem_of_fmap. eauto. }
    cbn [mbind result_bind]. destruct (truthy _); [| by eexists].
    by apply set_cell_ok.
Qed.

(** X13: with at least one row and one column and constraints that name
    only students of the list, [optimize_seating] raises nothing: it returns
    the infeasible record or a success record whose chart has [rows] rows of
    [columns] cells. *)
Theorem optimize_seating_total (Solve : CpModel → CpSolver)
    (classroom_layout : gmap string Z) (students : list student)
    (constraints : list constraint) :
  1 ≤ layout_rows classroom_layout →
  1 ≤ layout_columns classroom_layout →
  Forall (known_students (student_ids students)) constraints →
  ∃ d, optimize_seating Solve classroom_layout students constraints = Ok d
       ∧ (d = infeasible_result
          ∨ ∃ chart,
              d !! AStr "success" = Some (VBool true)
              ∧ d !! AStr "seating_chart" = Some (VList (VList <$> chart))
              ∧ grid_shaped (layout_rows classroom_layout)
                  (layout_columns classroom_layout) chart).
Proof.
  intros Hrows Hcols Hknown.
  destruct (build_model_ok _ _ students constraints Hrows Hcols Hknown)
    as (model & seats & Hbuild).
  destruct (build_model_shape _ _ _ _ _ _ Hbuild) as [_ Hdom'].
  assert (Hdom : ∀ sid r c, is_Some (seats !! (sid, r, c))
            ↔ sid ∈ student_ids students
              ∧ r ∈ range (layout_rows classroom_layout)
              ∧ c ∈ range (layout_columns classroom_layout)).
  { intros sid r c. by rewrite Hdom', !elem_of_range. }
  destruct (extract_chart_ok (Solve model) _ _ seats students Hdom)
    as (chart & Hchart & Hshape).
  unfold optimize_seating.
  fold (layout_rows classroom_layout) (layout_columns classroom_layout).
  rewrite Hbuild. cbn [mbind result_bind].
  destruct (status (Solve model)) eqn:Hst;
    try (eexists; split; [reflexivity | by left]);
    rewrite Hchart; cbn [mbind result_bind];
    (eexists; split; [reflexivity |]; right; exists chart;
     split; [reflexivity |]; split; [reflexivity | exact Hshape]).
Qed.

Lemma optimize_seating_total_witness :
  ∃ d, optimize_seating exhaustive_solve (classroom 1 1) [student_A]
         [must_front_row (AStr "A")] = Ok d.
Proof.
  destruct (optimize_seating_total exhaustive_solve (classroom 1 1)
              [student_A] [must_front_row (AStr "A")]) as (d & Hd & _).
  - by vm_compute.
  - by vm_compute.
  - constructor; [| constructor]. split; intros H.
    + discriminate H.
    + apply list_elem_of_singleton. reflexivity.
  - exists d. exact Hd.
Defined.

(** X14: once the model is built [optimize_seating] returns a record:
    "optimal" for OPTIMAL, "feasible" for FEASIBLE, and the same infeasible
    record for INFEASIBLE, UNKNOWN and MODEL_INVALID. *)
Theorem status_reporting (Solve : CpModel → CpSolver)
    (classroom_layout : gmap string Z) (students : list student)
    (constraints : list constraint) (model : CpModel) (seats : seat_vars) :
  build_model (layout_rows classroom_layout) (layout_columns classroom_layout)
    students constraints = Ok (model, seats) →
  ∃ d, optimize_seating Solve classroom_layout students constraints = Ok d
       ∧ match status (Solve model) with
         | OPTIMAL => d !! AStr "success" = Some (VBool true)
                      ∧ d !! AStr "status" = Some (VStr "optimal")
         | FEASIBLE => d !! AStr "success" = Some (VBool true)
                       ∧ d !! AStr "status" = Some (VStr "feasible")
         | _ => d = infeasible_result
         end.
Proof.
  intros Hbuild.
  destruct (build_model_shape _ _ _ _ _ _ Hbuild) as [_ Hdom'].
  assert (Hdom : ∀ sid r c, is_Some (seats !! (sid, r, c))
            ↔ sid ∈ student_ids students
              ∧ r ∈ range (layout_rows classroom_layout)
              ∧ c ∈ range (layout_columns classroom_layout)).
  { intros sid r c. by rewrite Hdom', !elem_of_range. }
  destruct (extract_chart_ok (Solve model) _ _ seats students Hdom)
    as (chart & Hchart & _).
  unfold optimize_seating.
  fold (layout_rows classroom_layout) (layout_columns classroom_layout).
  rewrite Hbuild. cbn [mbind result_bind].
  destruct (status (Solve model)) eqn:Hst;
    try (eexists; split; reflexivity);
    rewrite Hchart; cbn [mbind result_bind];
    (eexists; split; [reflexivity |]; split; reflexivity).
Qed.

Lemma status_reporting_witness :
  ∃ model seats d,
    build_model (layout_rows (classroom 1 1)) (layout_columns (classroom 1 1))
      [student_A; student_B] [] = Ok (model, seats)
    ∧ optimize_seating (fun _ => {| status := UNKNOWN; Value := fun _ => 0;
                                    WallTime := PrimFloat.zero |})
        (classroom 1 1) [student_A; student_B] [] = Ok d
    ∧ d = infeasible_result.
Proof.
  destruct (build_model_ok (layout_rows (classroom 1 1))
              (layout_columns (classroom 1 1)) [student_A; student_B] [])
    as (model & seats & Hbuild); [by vm_compute | by vm_compute | constructor |].
  destruct (status_reporting
              (fun _ => {| status := UNKNOWN; Value := fun _ => 0;
                           WallTime := PrimFloat.zero |})
              (classroom 1 1) [student_A; student_B] [] model seats Hbuild)
    as (d & Hd & Hshape).
  exists model, seats, d. split; [exact Hbuild |]. split; [exact Hd |].
  exact Hshape.
Defined.

Lemma apply_constraint_inert rows columns seats (c : constraint) model :
  get c "type" ∉ hard_types →
  apply_constraint rows columns seats c model = Ok model.
Proof.
  intros Hty. unfold apply_constraint.
  repeat case_decide; try done;
    exfalso; apply Hty; unfold hard_types;
    match goal with H : get c "type" = _ |- _ => rewrite H end; set_solver.
Qed.

Lemma build_model_inert rows columns students before (c : constraint) after :
  get c "type" ∉ hard_types →
  build_model rows columns students (before ++ c :: after)
  = build_model rows columns students (before ++ after).
Proof.
  intros Hty. unfold build_model.
  destruct (declare_seats _ _ _ _) as [model seats].
  destruct (one_seat_per_student _ _ _ _ _) as [m1|e]; [|done].
  cbn [mbind result_bind].
  destruct (one_student_per_seat _ _ _ _ _) as [m2|e]; [|done].
  cbn [mbind result_bind].
  rewrite !for_each_app.
  destruct (for_each before _ m2) as [m3|e]; [|done].
  cbn [mbind result_bind for_each].
  by rewrite apply_constraint_inert.
Qed.

(** X15: a constraint whose type is not one of the five enforced types (a
    [near_door] or [near_window] preference, an unknown or a missing type)
    changes nothing in the outcome except the [statistics] field. *)
Theorem soft_preference_inert (Solve : CpModel → CpSolver)
    (classroom_layout : gmap string Z) (students : list student)
    (before : list constraint) (c : constraint) (after : list constraint) :
  get c "type" ∉ hard_types →
  same_seating
    (optimize_seating Solve classroom_layout students (before ++ c :: after))
    (optimize_seating Solve classroom_layout students (before ++ after)).
Proof.
  intros Hty. unfold optimize_seating.
  rewrite (build_model_inert _ _ _ _ _ _ Hty).
  destruct (build_model _ _ _ _) as [[model seats]|e]; [| done].
  cbn [mbind result_bind].
  destruct (status (Solve model)); try (intros k _; reflexivity);
    (destruct (extract_chart _ _ _ _ _) as [chart|e]; [| done]);
    cbn [mbind result_bind same_seating]; intros k Hk;
    unfold dict_of; cbn [foldl fst snd];
    by rewrite !(lookup_insert_ne _ (AStr "statistics")).
Qed.

Lemma soft_preference_inert_witness :
  (get (near_door (AStr "nobody")) "type" ∉ hard_types)
  ∧ same_seating
      (optimize_seating exhaustive_solve (classroom 1 1) [student_A]
         ([] ++ near_door (AStr "nobody") :: []))
      (optimize_seating exhaustive_solve (classroom 1 1) [student_A]
         ([] ++ [])).
Proof.
  assert (Hty : get (near_door (AStr "nobody")) "type" ∉ hard_types)
    by (apply (bool_decide_unpack _); vm_compute; exact I).
  split; [exact Hty |].
  exact (soft_preference_inert exhaustive_solve (classroom 1 1) [student_A]
           [] (near_door (AStr "nobody")) [] Hty).
Defined.

Lemma range_head n : 1 ≤ n → ∃ tl, range n = 0 :: tl.
Proof.
  intros Hn. unfold range.
  destruct (Z.to_nat n) as [|k] eqn:Hk; [lia |].
  cbn [seq fmap list_fmap]. by eexists.
Qed.

Lemma gen_head_raises {A B} (f : A → result B) x xs e :
  f x = Raise e → gen f (x :: xs) = Raise e.
Proof. intros Hx. cbn [gen]. by rewrite Hx. Qed.

Lemma subscript_missing `{Countable K} {A} (d : gmap K A) (k : K) :
  d !! k = None → subscript d k = Raise KeyError.
Proof. intros Hk. unfold subscript. by rewrite Hk. Qed.

Lemma for_each_head_raises {A S} (body : A → S → result S) x xs s e :
  body x s = Raise e → for_each (x :: xs) body s = Raise e.
Proof. intros Hx. cbn [for_each]. by rewrite Hx. Qed.

Section unknown_student.
Variables (rows columns : Z) (students : list student) (seats : seat_vars).
Hypothesis Hseats : ∀ sid r c,
  is_Some (seats !! (sid, r, c))
  ↔ sid ∈ student_ids students ∧ r ∈ range rows ∧ c ∈ range columns.
Hypothesis Hrows : 1 ≤ rows.
Hypothesis Hcols : 1 ≤ columns.

Lemma seat_of_unknown sid r c :
  sid ∉ student_ids students → seats !! (sid, r, c) = None.
Proof.
  intros Hsid. apply eq_None_not_Some. rewrite Hseats. tauto.
Qed.

(** A constraint naming an unknown student fails at its first lookup. *)
Lemma apply_constraint_unknown (c : constraint) model :
  2 ≤ rows ∨ 2 ≤ columns ∨ get c "type" ≠ AStr "cannot_sit_together" →
  names_unknown_student (student_ids students) c →
  apply_constraint rows columns seats c model = Raise KeyError.
Proof.
  intros Hsize Hunknown. unfold apply_constraint.
  destruct (range_head rows Hrows) as [rtl Hr].
  destruct (range_head columns Hcols) as [ctl Hc].
  assert (Hgen : ∀ (f : Z → atom * Z * Z) (l : list Z)
                   (ct : list nat → cp_constraint),
            (∃ tl, l = 0 :: tl) → seats !! f 0 = None →
            (vars ← gen (fun x => subscript seats (f x)) l;
             Ok (Add (ct vars) model)) = Raise KeyError).
  { intros f l ct [tl ->] Hnone.
    by rewrite (gen_head_raises (fun x => subscript seats (f x)) 0 tl KeyError
                  (subscript_missing _ _ Hnone)). }
  destruct Hunknown as [[Hty Hpair] | [Hty Hsid]].
  - rewrite Hty. rewrite decide_True by done.
    assert (Hadj : ∃ a l, adjacent rows columns 0 0 = a :: l
                          ∧ a.1 ∈ range rows ∧ a.2 ∈ range columns).
    { assert (∃ a, a ∈ adjacent rows columns 0 0) as [a Ha].
      { destruct Hsize as [H2 | [H2 | H2]]; [| | done].
        - exists (1, 0). apply elem_of_adjacent. unfold chebyshev. simpl. lia.
        - exists (0, 1). apply elem_of_adjacent. unfold chebyshev. simpl. lia. }
      destruct (adjacent rows columns 0 0) as [|a0 l] eqn:Hl;
        [by apply elem_of_nil in Ha |].
      exists a0, l. split; [done |].
      assert (Ha0 : a0 ∈ adjacent rows columns 0 0) by (rewrite Hl; by left).
      destruct a0 as [r' c']. apply elem_of_adjacent in Ha0.
      rewrite !elem_of_range. cbn [fst snd]. lia. }
    destruct Hadj as (a & l & Hl & Har & Hac).
    rewrite Hr. apply for_each_head_raises.
    rewrite Hc. apply for_each_head_raises.
    rewrite Hl. apply for_each_head_raises.
    destruct (decide (get c "student1" ∈ student_ids students)) as [H1 | H1].
    + destruct (subscript_ok seats (get c "student1", 0, 0)) as [v ->].
      { apply Hseats. rewrite !elem_of_range. split; [done | lia]. }
      cbn [mbind result_bind].
      rewrite (subscript_missing seats (get c "student2", a.1, a.2));
        [done |].
      apply seat_of_unknown. tauto.
    + by rewrite (subscript_missing seats (get c "student1", 0, 0))
        by (by apply seat_of_unknown).
  - apply list_elem_of_fmap in Hty as (ty & Hty & Hin). rewrite Hty.
    repeat (apply elem_of_cons in Hin as [-> | Hin]);
      [| | | | by apply elem_of_nil in Hin];
      repeat (rewrite decide_False by discriminate);
      rewrite decide_True by done.
    + apply Hgen; [by rewrite Hc; eexists | by apply seat_of_unknown].
    + apply Hgen; [by rewrite Hc; eexists | by apply seat_of_unknown].
    + apply Hgen; [by rewrite Hr; eexists | by apply seat_of_unknown].
    + apply Hgen; [by rewrite Hr; eexists | by apply seat_of_unknown].
Qed.
End unknown_student.

(** X16: the first constraint that names a student outside the list, in a
    field its type makes the builder look up, makes [optimize_seating] raise
    [KeyError] (for [cannot_sit_together], provided the grid has a pair of
    neighbouring seats). *)
Theorem unknown_student_key_error (Solve : CpModel → CpSolver)
    (classroom_layout : gmap string Z) (students : list student)
    (before : list constraint) (c : constraint) (after : list constraint) :
  1 ≤ layout_rows classroom_layout →
  1 ≤ layout_columns classroom_layout →
  2 ≤ layout_rows classroom_layout ∨ 2 ≤ layout_columns classroom_layout
    ∨ get c "type" ≠ AStr "cannot_sit_together" →
  Forall (known_students (student_ids students)) before →
  names_unknown_student (student_ids students) c →
  optimize_seating Solve classroom_layout students (before ++ c :: after)
  = Raise KeyError.
Proof.
  intros Hrows Hcols Hsize Hknown Hunknown.
  unfold optimize_seating.
  fold (layout_rows classroom_layout) (layout_columns classroom_layout).
  set (rows := layout_rows classroom_layout) in *.
  set (columns := layout_columns classroom_layout) in *.
  assert (build_model rows columns students (before ++ c :: after)
          = Raise KeyError) as ->; [| done].
  unfold build_model.
  destruct (declare_seats_spec rows columns students)
    as (m0 & seats & -> & _ & _ & Hdom).
  destruct (one_seat_per_student_ok rows columns students seats Hdom m0)
    as [m1 ->]. cbn [mbind result_bind].
  destruct (one_student_per_seat_ok rows columns students seats Hdom m1)
    as [m2 ->]. cbn [mbind result_bind].
  rewrite for_each_app.
  destruct (for_each_ok (apply_constraint rows columns seats) before m2)
    as [m3 ->].
  { intros c0 m Hc0. apply (apply_constraint_ok rows columns students);
      try done. by eapply Forall_forall in Hknown. }
  cbn [mbind result_bind for_each].
  by rewrite (apply_constraint_unknown rows columns students seats Hdom
                Hrows Hcols c m3 Hsize Hunknown).
Qed.

Lemma unknown_student_key_error_witness :
  optimize_seating exhaustive_solve (classroom 2 2) [student_A]
    ([near_door (AStr "A")]
     ++ cannot_sit_together (AStr "A") (AStr "Z") :: [])
  = Raise KeyError.
Proof.
  apply (unknown_student_key_error exhaustive_solve (classroom 2 2)
           [student_A] [near_door (AStr "A")]
           (cannot_sit_together (AStr "A") (AStr "Z")) []).
  - by vm_compute.
  - by vm_compute.
  - left. by vm_compute.
  - constructor; [| constructor]. split; intros H.
    + discriminate H.
    + exfalso. revert H. apply (bool_decide_unpack _). vm_compute. exact I.
  - left. split; [reflexivity |]. right.
    apply (bool_decide_unpack _). vm_compute. exact I.
Defined.

Lemma total_nonneg val vars : 0 ≤ total val vars.
Proof.
  induction vars as [|v vars IH]; simpl; [lia |]. destruct (val v); lia.
Qed.

Lemma total_true val vars v :
  v ∈ vars → val v = true → 1 ≤ total val vars.
Proof.
  induction vars as [|w vars IH]; intros Hin Hv; [by apply elem_of_nil in Hin |].
  pose proof (total_nonneg val vars). cbn [total foldr]. fold (total val vars).
  apply elem_of_cons in Hin as [<- | Hin].
  - rewrite Hv. lia.
  - specialize (IH Hin Hv). destruct (val w); lia.
Qed.

Lemma total_zero val vars v :
  total val vars = 0 → v ∈ vars → val v = false.
Proof.
  intros Hz Hin. destruct (val v) eqn:Hv; [| done].
  pose proof (total_true val vars v Hin Hv). lia.
Qed.

Lemma total_positive val vars :
  1 ≤ total val vars → ∃ v, v ∈ vars ∧ val v = true.
Proof.
  induction vars as [|w vars IH]; cbn [total foldr]; [lia |].
  fold (total val vars). destruct (val w) eqn:Hw.
  - intros _. exists w. split; [by left | done].
  - intros H. destruct IH as (v & Hin & Hv); [lia |].
    exists v. split; [by right | done].
Qed.

(** At most one variable of the list is true when the sum is at most 1:
    two true entries at different positions are the same variable only if
    the list repeats it, and then the sum is already 2. *)
Lemma total_le_one val vars i j v w :
  total val vars ≤ 1 → vars !! i = Some v → vars !! j = Some w →
  val v = true → val w = true → i = j.
Proof.
  revert i j. induction vars as [|u vars IH]; intros i j Hle Hi Hj Hv Hw;
    [done |].
  cbn [total foldr] in Hle. fold (total val vars) in Hle.
  pose proof (total_nonneg val vars).
  destruct i as [|i], j as [|j]; cbn in Hi, Hj.
  - done.
  - injection Hi as ->. rewrite Hv in Hle.
    pose proof (total_true val vars w (list_elem_of_lookup_2 _ _ _ Hj) Hw). lia.
  - injection Hj as ->. rewrite Hw in Hle.
    pose proof (total_true val vars v (list_elem_of_lookup_2 _ _ _ Hi) Hv). lia.
  - f_equal. apply IH; try done. destruct (val u); lia.
Qed.


Lemma gen_lookup {A B} (f : A → result B) (xs : list A) :
  ∀ bs, gen f xs = Ok bs →
        length bs = length xs
        ∧ ∀ i x, xs !! i = Some x → ∃ b, bs !! i = Some b ∧ f x = Ok b.
Proof.
  induction xs as [|x xs IH]; intros bs; cbn [gen].
  - intros [= <-]. split; [done |]. intros i y Hy. by destruct i.
  - destruct (f x) as [b|e] eqn:Hx; cbn [mbind result_bind]; [| done].
    destruct (gen f xs) as [bs'|e]; cbn [mbind result_bind]; [| done].
    intros [= <-]. destruct (IH bs' eq_refl) as [Hlen Hlook].
    split; [cbn; by rewrite Hlen |].
    intros [|i] y Hy; cbn in Hy.
    + injection Hy as <-. by exists b.
    + by apply Hlook.
Qed.

Lemma extends_elem ct m m' : extends m m' → ct ∈ added m → ct ∈ added m'.
Proof. intros [_ [extra ->]] Hin. apply elem_of_app. by left. Qed.

(** What a loop over model-extending bodies leaves in the model: the fact
    each body establishes for its item survives the later iterations. *)
Lemma for_each_records {A} (body : A → CpModel → result CpModel)
    (Q : A → CpModel → Prop) (xs : list A) :
  (∀ x m m', body x m = Ok m' → extends m m' ∧ Q x m') →
  (∀ x m m', Q x m → extends m m' → Q x m') →
  ∀ m m', for_each xs body m = Ok m' → ∀ x, x ∈ xs → Q x m'.
Proof.
  intros Hbody Hmono.
  induction xs as [|y xs IH]; intros m m' Hrun x Hx;
    [by apply elem_of_nil in Hx |].
  cbn [for_each] in Hrun.
  destruct (body y m) as [m1|e] eqn:Hy; cbn [mbind result_bind] in Hrun;
    [| done].
  apply elem_of_cons in Hx as [-> | Hx]; [| by eapply IH].
  destruct (Hbody _ _ _ Hy) as [_ HQ]. eapply Hmono; [exact HQ |].
  eapply for_each_extends; [| exact Hrun].
  intros z a b Hz. by destruct (Hbody _ _ _ Hz).
Qed.

Lemma gen_then_add_inv {A} (f : A → result nat) (l : list A)
    (ct : list nat → cp_constraint) model model' :
  (vars ← gen f l; Ok (Add (ct vars) model)) = Ok model' →
  ∃ vars, gen f l = Ok vars ∧ ct vars ∈ added model'.
Proof.
  destruct (gen f l) as [vars|e]; cbn [mbind result_bind]; [| done].
  intros [= <-]. exists vars. split; [done |].
  cbn [Add added]. apply elem_of_app. right. by left.
Qed.

Section model_contents.
Variables (rows columns : Z) (students : list student)
          (constraints : list constraint)
          (model : CpModel) (seats : seat_vars).
Hypothesis Hbuild :
  build_model rows columns students constraints = Ok (model, seats).

(** The exactly-one constraint of each student is in the model. *)
Lemma model_has_student_sum s :
  s ∈ students →
  ∃ vars, gen (fun rc => subscript seats (id s, rc.1, rc.2))
            (grid rows columns) = Ok vars
          ∧ SumEq vars 1 ∈ added model.
Proof.
  intros Hs.
  destruct (build_model_stages _ _ _ _ _ _ Hbuild)
    as (m0 & m1 & m2 & _ & H1 & H2 & H3).
  assert (Hext : extends m1 model).
  { eapply extends_trans.
    - eapply for_each_extends; [| exact H2].
      intros r. apply for_each_extends. intros c m m'.
      apply gen_then_add_extends.
    - eapply for_each_extends; [| exact H3].
      intros c. apply apply_constraint_extends. }
  unfold one_seat_per_student in H1.
  assert (HQ : ∃ vars, gen (fun rc => subscript seats (id s, rc.1, rc.2))
                         (grid rows columns) = Ok vars
                       ∧ SumEq vars 1 ∈ added m1).
  { eapply (for_each_records _
      (fun s m => ∃ vars, gen (fun rc => subscript seats (id s, rc.1, rc.2))
                            (grid rows columns) = Ok vars
                          ∧ SumEq vars 1 ∈ added m)
      students); [| | exact H1 | exact Hs].
    - intros x m m' Hx. cbv beta in Hx. split.
      + exact (gen_then_add_extends _ _ (fun vars => SumEq vars 1) _ _ Hx).
      + exact (gen_then_add_inv _ _ (fun vars => SumEq vars 1) _ _ Hx).
    - intros x m m' (vars & Hv & Hin) Hext'. exists vars.
      split; [done | by eapply extends_elem]. }
  destruct HQ as (vars & Hvars & Hin).
  exists vars. split; [done | by eapply extends_elem].
Qed.

(** The at-most-one constraint of each seat is in the model. *)
Lemma model_has_seat_sum r c :
  r ∈ range rows → c ∈ range columns →
  ∃ vars, gen (fun s => subscript seats (id s, r, c)) students = Ok vars
          ∧ SumLe vars 1 ∈ added model.
Proof.
  intros Hr Hc.
  destruct (build_model_stages _ _ _ _ _ _ Hbuild)
    as (m0 & m1 & m2 & _ & H1 & H2 & H3).
  assert (Hext : extends m2 model).
  { eapply for_each_extends; [| exact H3].
    intros c0. apply apply_constraint_extends. }
  pose (Q := fun (r c : Z) (m : CpModel) =>
    ∃ vars, gen (fun s => subscript seats (id s, r, c)) students = Ok vars
            ∧ SumLe vars 1 ∈ added m).
  assert (Hmono : ∀ r c m m', Q r c m → extends m m' → Q r c m').
  { intros r0 c0 m m' (vars & Hv & Hin) Hext'. exists vars.
    split; [done | by eapply extends_elem]. }
  unfold one_student_per_seat in H2.
  assert (HQ : ∀ c, c ∈ range columns → Q r c m2).
  { eapply (for_each_records _
      (fun r m => ∀ c, c ∈ range columns → Q r c m) (range rows));
      [| | exact H2 | exact Hr].
    - intros r0 m m' Hrow. split.
      + eapply for_each_extends; [| exact Hrow].
        intros c0 a b. apply gen_then_add_extends.
      + intros c0 Hc0.
        eapply (for_each_records _ (Q r0) (range columns));
          [| | exact Hrow | exact Hc0].
        * intros c1 a b Hx. cbv beta in Hx. split.
          -- exact (gen_then_add_extends _ _ (fun vars => SumLe vars 1) _ _ Hx).
          -- exact (gen_then_add_inv _ _ (fun vars => SumLe vars 1) _ _ Hx).
        * intros c1 a b. apply Hmono.
    - intros r0 m m' HQ Hext' c0 Hc0. eapply Hmono; [by apply HQ | done]. }
  destruct (HQ c Hc) as (vars & Hvars & Hin).
  exists vars. split; [done | by eapply extends_elem].
Qed.

(** Each declared constraint was applied to some model that the final
    model extends. *)
Lemma model_has_applied c :
  c ∈ constraints →
  ∃ m m', apply_constraint rows columns seats c m = Ok m'
          ∧ extends m' model.
Proof.
  intros Hc.
  destruct (build_model_stages _ _ _ _ _ _ Hbuild)
    as (m0 & m1 & m2 & _ & H1 & H2 & H3).
  eapply (for_each_records _
    (fun c m1 => ∃ m m', apply_constraint rows columns seats c m = Ok m'
                         ∧ extends m' m1) constraints);
    [| | exact H3 | exact Hc].
  - intros x m m' Hx. split; [by eapply apply_constraint_extends |].
    exists m, m'. split; [done | apply extends_refl].
  - intros x m m' (a & b & Hab & Hext) Hext'. exists a, b.
    split; [done | by eapply extends_trans].
Qed.
End model_contents.

Lemma subscript_Some `{Countable K} {A} (d : gmap K A) (k : K) (a : A) :
  subscript d k = Ok a ↔ d !! k = Some a.
Proof.
  unfold subscript. destruct (d !! k); split; intros E; by inversion E.
Qed.

Lemma satisfies_elem val model ct :
  satisfies val model → ct ∈ added model → holds val ct = true.
Proof. intros Hsat Hin. by eapply Forall_forall in Hsat. Qed.

Section model_meaning.
Variables (rows columns : Z) (students : list student)
          (constraints : list constraint)
          (model : CpModel) (seats : seat_vars) (val : nat → bool).
Hypothesis Hbuild :
  build_model rows columns students constraints = Ok (model, seats).
Hypothesis Hsat : satisfies val model.

Lemma sits_in_grid sid r c :
  sits val seats sid r c →
  sid ∈ student_ids students ∧ r ∈ range rows ∧ c ∈ range columns.
Proof.
  intros (v & Hv & _).
  destruct (build_model_shape _ _ _ _ _ _ Hbuild) as [_ Hdom].
  rewrite !elem_of_range. apply Hdom. by eexists.
Qed.

(** The variable of a seat that is true, found in a generated list. *)
Lemma sits_in_gen {A} (f : A → atom * Z * Z) (xs : list A) vars x sid r c :
  gen (fun x => subscript seats (f x)) xs = Ok vars →
  x ∈ xs → f x = (sid, r, c) → sits val seats sid r c →
  ∃ i v, xs !! i = Some x ∧ vars !! i = Some v ∧ val v = true.
Proof.
  intros Hgen Hx Hf (v & Hv & Htrue).
  apply list_elem_of_lookup in Hx as [i Hi].
  destruct (gen_lookup _ _ _ Hgen) as [_ Hlook].
  destruct (Hlook i x Hi) as (b & Hb & Hsub).
  rewrite Hf in Hsub. apply subscript_Some in Hsub.
  rewrite Hv in Hsub. injection Hsub as <-. by exists i, v.
Qed.

(** A true variable of a generated list is the seat of its item. *)
Lemma gen_true_sits {A} (f : A → atom * Z * Z) (xs : list A) vars v :
  gen (fun x => subscript seats (f x)) xs = Ok vars →
  v ∈ vars → val v = true →
  ∃ x, x ∈ xs ∧ sits val seats (f x).1.1 (f x).1.2 (f x).2.
Proof.
  intros Hgen Hv Htrue.
  apply list_elem_of_lookup in Hv as [i Hi].
  destruct (gen_lookup _ _ _ Hgen) as [Hlen Hlook].
  destruct (lookup_lt_is_Some_2 xs i) as [x Hx].
  { rewrite <- Hlen. by eapply lookup_lt_Some. }
  destruct (Hlook i x Hx) as (b & Hb & Hsub).
  rewrite Hi in Hb. injection Hb as <-.
  exists x. split; [by eapply list_elem_of_lookup_2 |].
  exists v. split; [| done].
  apply subscript_Some. by destruct (f x) as [[? ?] ?].
Qed.

(** A student has at most one seat. *)
Lemma sits_unique sid r c r' c' :
  sits val seats sid r c → sits val seats sid r' c' → r' = r ∧ c' = c.
Proof.
  intros Hs Hs'.
  destruct (sits_in_grid _ _ _ Hs) as (Hid & Hr & Hc).
  destruct (sits_in_grid _ _ _ Hs') as (_ & Hr' & Hc').
  apply list_elem_of_fmap in Hid as (s & -> & Hin).
  destruct (model_has_student_sum _ _ _ _ _ _ Hbuild s Hin)
    as (vars & Hgen & Hct).
  pose proof (satisfies_elem _ _ _ Hsat Hct) as Hholds.
  cbn in Hholds. fold (total val vars) in Hholds. apply Z.eqb_eq in Hholds.
  destruct (sits_in_gen (fun rc => (id s, rc.1, rc.2)) _ vars (r, c)
              (id s) r c Hgen) as (i & v & Hi & Hvi & Hv);
    [by apply elem_of_grid | done | done |].
  destruct (sits_in_gen (fun rc => (id s, rc.1, rc.2)) _ vars (r', c')
              (id s) r' c' Hgen) as (j & w & Hj & Hwj & Hw);
    [by apply elem_of_grid | done | done |].
  assert (i = j) as -> by (eapply (total_le_one val vars); eauto; lia).
  rewrite Hi in Hj. by injection Hj as -> ->.
Qed.

(** A seat holds at most one student. *)
Lemma seat_holds_one_student sid1 sid2 r c :
  sits val seats sid1 r c → sits val seats sid2 r c → sid1 = sid2.
Proof.
  intros Hs1 Hs2.
  destruct (sits_in_grid _ _ _ Hs1) as (Hid1 & Hr & Hc).
  destruct (sits_in_grid _ _ _ Hs2) as (Hid2 & _ & _).
  apply list_elem_of_fmap in Hid1 as (s1 & -> & Hin1).
  apply list_elem_of_fmap in Hid2 as (s2 & -> & Hin2).
  destruct (model_has_seat_sum _ _ _ _ _ _ Hbuild r c Hr Hc)
    as (vars & Hgen & Hct).
  pose proof (satisfies_elem _ _ _ Hsat Hct) as Hholds.
  cbn in Hholds. fold (total val vars) in Hholds. apply Z.leb_le in Hholds.
  destruct (sits_in_gen (fun s => (id s, r, c)) _ vars s1 (id s1) r c Hgen)
    as (i & v & Hi & Hvi & Hv); [done | done | done |].
  destruct (sits_in_gen (fun s => (id s, r, c)) _ vars s2 (id s2) r c Hgen)
    as (j & w & Hj & Hwj & Hw); [done | done | done |].
  assert (i = j) as -> by (eapply (total_le_one val vars); eauto).
  rewrite Hi in Hj. by injection Hj as ->.
Qed.

(** X17: under any assignment that satisfies the built model, every
    student of the list has exactly one seat, inside the grid, and no seat
    has two students. *)
Theorem assignment_total_injective :
  (∀ sid, sid ∈ student_ids students →
     ∃ r c, sits val seats sid r c
            ∧ 0 ≤ r < rows ∧ 0 ≤ c < columns
            ∧ ∀ r' c', sits val seats sid r' c' → r' = r ∧ c' = c)
  ∧ (∀ sid1 sid2 r c,
       sits val seats sid1 r c → sits val seats sid2 r c → sid1 = sid2).
Proof.
  split; [| apply seat_holds_one_student].
  intros sid Hid. apply list_elem_of_fmap in Hid as (s & -> & Hin).
  destruct (model_has_student_sum _ _ _ _ _ _ Hbuild s Hin)
    as (vars & Hgen & Hct).
  pose proof (satisfies_elem _ _ _ Hsat Hct) as Hholds.
  cbn in Hholds. fold (total val vars) in Hholds. apply Z.eqb_eq in Hholds.
  destruct (total_positive val vars) as (v & Hv & Htrue); [lia |].
  destruct (gen_true_sits (fun rc => (id s, rc.1, rc.2)) _ vars v Hgen Hv Htrue)
    as ([r c] & Hrc & Hsits).
  cbn [fst snd] in Hsits. exists r, c. split; [done |].
  apply elem_of_grid in Hrc as [Hr Hc]. apply elem_of_range in Hr, Hc.
  split; [done |]. split; [done |].
  intros r' c' Hs'. by eapply sits_unique.
Qed.
End model_meaning.

Section hard_constraints.
Variables (rows columns : Z) (students : list student)
          (constraints : list constraint)
          (model : CpModel) (seats : seat_vars) (val : nat → bool).
Hypothesis Hbuild :
  build_model rows columns students constraints = Ok (model, seats).
Hypothesis Hsat : satisfies val model.

(** The sum constraint a single-student constraint adds is in the model. *)
Lemma model_has_line (c : constraint) (f : Z → atom * Z * Z) (l : list Z)
    (k : Z) :
  c ∈ constraints →
  (∀ m, apply_constraint rows columns seats c m
        = (vars ← gen (fun x => subscript seats (f x)) l;
           Ok (Add (SumEq vars k) m))) →
  ∃ vars, gen (fun x => subscript seats (f x)) l = Ok vars
          ∧ total val vars = k.
Proof.
  intros Hc Happly.
  destruct (model_has_applied _ _ _ _ _ _ Hbuild c Hc) as (m & m' & Hm & Hext).
  rewrite Happly in Hm.
  destruct (gen_then_add_inv _ _ (fun vars => SumEq vars k) _ _ Hm)
    as (vars & Hgen & Hin).
  exists vars. split; [done |].
  pose proof (satisfies_elem _ _ _ Hsat (extends_elem _ _ _ Hext Hin)) as Hh.
  cbn in Hh. fold (total val vars) in Hh. by apply Z.eqb_eq in Hh.
Qed.

(** A student named by a row or column constraint is seated as the
    constraint demands. *)
Lemma model_row_column_hold (c : constraint) (r c0 : Z) :
  c ∈ constraints →
  sits val seats (get c "student") r c0 →
  (get c "type" = AStr "must_front_row" → r = 0)
  ∧ (get c "type" = AStr "cannot_back_row" → r ≠ rows - 1)
  ∧ (get c "type" = AStr "cannot_by_window" → c0 ≠ columns - 1)
  ∧ (get c "type" = AStr "cannot_by_door" → c0 ≠ 0).
Proof.
  intros Hc Hsits.
  destruct (sits_in_grid _ _ _ _ _ _ _ Hbuild _ _ _ Hsits) as (_ & Hr & Hc0).
  assert (Hzero : ∀ (f : Z → atom * Z * Z) (l : list Z) x,
            (∀ m, apply_constraint rows columns seats c m
                  = (vars ← gen (fun x => subscript seats (f x)) l;
                     Ok (Add (SumEq vars 0) m))) →
            x ∈ l → f x = (get c "student", r, c0) → False).
  { intros f l x Happly Hx Hf.
    destruct (model_has_line c f l 0 Hc Happly) as (vars & Hgen & Htotal).
    destruct (sits_in_gen seats val f l vars x _ r c0 Hgen Hx Hf Hsits)
      as (i & v & _ & Hvi & Hv).
    pose proof (total_zero val vars v Htotal (list_elem_of_lookup_2 _ _ _ Hvi)).
    congruence. }
  repeat split; intros Hty.
  - destruct (model_has_line c (fun x => (get c "student", 0, x))
                (range columns) 1 Hc) as (vars & Hgen & Htotal).
    { intros m. unfold apply_constraint. rewrite Hty.
      rewrite decide_False by discriminate. by rewrite decide_True. }
    destruct (total_positive val vars) as (v & Hv & Htrue); [lia |].
    destruct (gen_true_sits seats val
                (fun x => (get c "student", 0, x)) _ vars v Hgen Hv Htrue)
      as (x & Hx & Hsits0).
    cbn [fst snd] in Hsits0.
    by destruct (sits_unique _ _ _ _ _ _ _ Hbuild Hsat _ _ _ _ _ Hsits0 Hsits).
  - intros ->.
    apply (Hzero (fun x => (get c "student", rows - 1, x)) (range columns) c0);
      [| done | done].
    intros m. unfold apply_constraint. rewrite Hty.
    repeat (rewrite decide_False by discriminate). by rewrite decide_True.
  - intros ->.
    apply (Hzero (fun x => (get c "student", x, columns - 1)) (range rows) r);
      [| done | done].
    intros m. unfold apply_constraint. rewrite Hty.
    repeat (rewrite decide_False by discriminate). by rewrite decide_True.
  - intros ->.
    apply (Hzero (fun x => (get c "student", x, 0)) (range rows) r);
      [| done | done].
    intros m. unfold apply_constraint. rewrite Hty.
    repeat (rewrite decide_False by discriminate). by rewrite decide_True.
Qed.

(** The exclusion clauses of a [cannot_sit_together] constraint are in the
    model, one per seat and neighbour. *)
Lemma model_has_exclusions (c : constraint) row col adj :
  c ∈ constraints → get c "type" = AStr "cannot_sit_together" →
  row ∈ range rows → col ∈ range columns →
  adj ∈ adjacent rows columns row col →
  ∃ a b, seats !! (get c "student1", row, col) = Some a
         ∧ seats !! (get c "student2", adj.1, adj.2) = Some b
         ∧ BoolOr [Not a; Not b] ∈ added model.
Proof.
  intros Hc Hty Hrow Hcol Hadj.
  destruct (model_has_applied _ _ _ _ _ _ Hbuild c Hc) as (m & m' & Hm & Hext).
  unfold apply_constraint in Hm. rewrite Hty in Hm.
  rewrite decide_True in Hm by done.
  pose (Q := fun (row col : Z) (adj : Z * Z) (m : CpModel) =>
    ∃ a b, seats !! (get c "student1", row, col) = Some a
           ∧ seats !! (get c "student2", adj.1, adj.2) = Some b
           ∧ BoolOr [Not a; Not b] ∈ added m).
  assert (Hmono : ∀ row col adj m m',
            Q row col adj m → extends m m' → Q row col adj m').
  { intros r0 c0 a0 m1 m2 (a & b & Ha & Hb & Hin) He. exists a, b.
    split; [done |]. split; [done | by eapply extends_elem]. }
  assert (Hbody : ∀ r0 c0 a0 m1 m2,
            (a ← subscript seats (get c "student1", r0, c0);
             b ← subscript seats (get c "student2", a0.1, a0.2);
             Ok (Add (BoolOr [Not a; Not b]) m1)) = Ok m2 →
            extends m1 m2 ∧ Q r0 c0 a0 m2).
  { intros r0 c0 a0 m1 m2.
    destruct (subscript seats (get c "student1", r0, c0)) as [a|e] eqn:Ha;
      cbn [mbind result_bind]; [| done].
    destruct (subscript seats (get c "student2", a0.1, a0.2)) as [b|e] eqn:Hb;
      cbn [mbind result_bind]; [| done].
    intros [= <-]. split; [apply extends_Add |].
    exists a, b. apply subscript_Some in Ha, Hb.
    split; [done |]. split; [done |].
    cbn [Add added]. apply elem_of_app. right. by left. }
  assert (HQ : Q row col adj m').
  { eapply (for_each_records _
      (fun row m => ∀ col adj, col ∈ range columns →
                      adj ∈ adjacent rows columns row col → Q row col adj m)
      (range rows)); [| | exact Hm | exact Hrow | exact Hcol | exact Hadj].
    - intros r0 m1 m2 Hrun. split.
      + eapply for_each_extends; [| exact Hrun].
        intros c0. apply for_each_extends. intros a0 a b Hab.
        by destruct (Hbody _ _ _ _ _ Hab).
      + intros c0 a0 Hc0 Ha0.
        eapply (for_each_records _
          (fun col m => ∀ adj, adj ∈ adjacent rows columns r0 col →
                          Q r0 col adj m)
          (range columns)); [| | exact Hrun | exact Hc0 | exact Ha0].
        * intros c1 m3 m4 Hrun1. split.
          -- eapply for_each_extends; [| exact Hrun1].
             intros a1 a b Hab. by destruct (Hbody _ _ _ _ _ Hab).
          -- intros a1 Ha1.
             eapply (for_each_records _ (Q r0 c1)
                       (adjacent rows columns r0 c1));
               [| | exact Hrun1 | exact Ha1].
             ++ intros a2 a b Hab. apply (Hbody _ _ _ _ _ Hab).
             ++ intros a2 a b. apply Hmono.
        * intros c1 m3 m4 HQ1 He a1 Ha1. eapply Hmono; [by apply HQ1 | done].
    - intros r0 m1 m2 HQ1 He c1 a1 Hc1 Ha1.
      eapply Hmono; [by apply HQ1 | done]. }
  destruct HQ as (a & b & Ha & Hb & Hin). exists a, b.
  split; [done |]. split; [done | by eapply extends_elem].
Qed.

(** The two students of a [cannot_sit_together] constraint are not seated
    on neighbouring seats. *)
Lemma model_exclusion_holds (c : constraint) (r1 c1 r2 c2 : Z) :
  c ∈ constraints → get c "type" = AStr "cannot_sit_together" →
  sits val seats (get c "student1") r1 c1 →
  sits val seats (get c "student2") r2 c2 →
  chebyshev (r1, c1) (r2, c2) ≠ 1
  ∧ (get c "student1" ≠ get c "student2" → chebyshev (r1, c1) (r2, c2) > 1).
Proof.
  intros Hc Hty Hs1 Hs2.
  destruct (sits_in_grid _ _ _ _ _ _ _ Hbuild _ _ _ Hs1) as (_ & Hr1 & Hc1).
  destruct (sits_in_grid _ _ _ _ _ _ _ Hbuild _ _ _ Hs2) as (_ & Hr2 & Hc2).
  assert (Hne : chebyshev (r1, c1) (r2, c2) ≠ 1).
  { intros Hd.
    destruct (model_has_exclusions c r1 c1 (r2, c2) Hc Hty Hr1 Hc1)
      as (a & b & Ha & Hb & Hin).
    { apply elem_of_adjacent. apply elem_of_range in Hr2, Hc2. done. }
    pose proof (satisfies_elem _ _ _ Hsat Hin) as Hh.
    destruct Hs1 as (a' & Ha' & Hva). destruct Hs2 as (b' & Hb' & Hvb).
    cbn [fst snd] in Hb. rewrite Ha in Ha'. rewrite Hb in Hb'.
    injection Ha' as <-. injection Hb' as <-.
    cbn in Hh. by rewrite Hva, Hvb in Hh. }
  split; [done |]. intros Hdiff.
  assert (chebyshev (r1, c1) (r2, c2) ≠ 0).
  { unfold chebyshev. cbn [fst snd]. intros Hz.
    assert (r2 = r1 ∧ c2 = c1) as [-> ->] by lia.
    apply Hdiff.
    by apply (seat_holds_one_student _ _ _ _ _ _ _ Hbuild Hsat _ _ r1 c1). }
  unfold chebyshev in *. cbn [fst snd] in *. lia.
Qed.
End hard_constraints.

Lemma satisfies_forallb val model :
  forallb (holds val) (added model) = true → satisfies val model.
Proof.
  intros H. apply Forall_forall. intros ct Hct.
  apply list_elem_of_In in Hct. by eapply forallb_forall in H.
Qed.

(** The example model builds, and the example assignment satisfies it. *)
Lemma example_model_built :
  ∃ model seats,
    build_model 1 3 [student_A; student_B] example_constraints
    = Ok (model, seats)
    ∧ satisfies example_val model
    ∧ sits example_val seats (AStr "A") 0 0
    ∧ sits example_val seats (AStr "B") 0 2.
Proof.
  destruct (build_model_ok 1 3 [student_A; student_B] example_constraints)
    as (model & seats & Hbuild); [lia | lia | |].
  { apply (bool_decide_unpack _). by vm_compute. }
  assert (Hm : model = match build_model 1 3 [student_A; student_B]
                               example_constraints with
                       | Ok (m, _) => m
                       | Raise _ => new_model
                       end) by (by rewrite Hbuild).
  assert (Hs : seats = match build_model 1 3 [student_A; student_B]
                               example_constraints with
                       | Ok (_, s) => s
                       | Raise _ => ∅
                       end) by (by rewrite Hbuild).
  exists model, seats. split; [done |]. split; [| split].
  - rewrite Hm. apply satisfies_forallb. vm_compute. reflexivity.
  - exists 0%nat. split; [| reflexivity]. rewrite Hs. vm_compute. reflexivity.
  - exists 5%nat. split; [| reflexivity]. rewrite Hs. vm_compute. reflexivity.
Qed.

Lemma assignment_total_injective_witness :
  ∃ model seats r c,
    build_model 1 3 [student_A; student_B] example_constraints
    = Ok (model, seats)
    ∧ satisfies example_val model
    ∧ sits example_val seats (AStr "B") r c
    ∧ 0 ≤ r < 1 ∧ 0 ≤ c < 3.
Proof.
  destruct example_model_built as (model & seats & Hbuild & Hsat & _ & _).
  destruct (proj1 (assignment_total_injective 1 3 [student_A; student_B]
              example_constraints model seats example_val Hbuild Hsat)
              (AStr "B")) as (r & c & Hs & Hr & Hc & _).
  { apply (bool_decide_unpack _). by vm_compute. }
  exists model, seats, r, c. split; [exact Hbuild |]. split; [exact Hsat |].
  split; [exact Hs |]. split; [exact Hr | exact Hc].
Defined.

Lemma cell_at_set_cell rows columns chart r0 c0 v chart' r c :
  grid_shaped rows columns chart →
  r0 ∈ range rows → c0 ∈ range columns →
  set_cell chart r0 c0 v = Ok chart' →
  r ∈ range rows → c ∈ range columns →
  cell_at chart' r c = if decide (r = r0 ∧ c = c0) then Some v
                       else cell_at chart r c.
Proof.
  intros [Hlen Hrows] Hr0 Hc0 Hset Hr Hc.
  apply elem_of_range in Hr0, Hc0, Hr, Hc.
  unfold set_cell, index in Hset.
  destruct (chart !! Z.to_nat r0) as [rw|] eqn:Hrw;
    cbn [mbind result_bind] in Hset; [| done].
  destruct (rw !! Z.to_nat c0) as [old|] eqn:Hold;
    cbn [mbind result_bind] in Hset; [| done].
  injection Hset as <-. unfold cell_at.
  pose proof (lookup_lt_Some _ _ _ Hrw) as Hlt.
  pose proof (lookup_lt_Some _ _ _ Hold) as Hlt'.
  destruct (decide (r = r0)) as [-> | Hne].
  - rewrite list_lookup_insert_eq by done. cbn [mbind option_bind].
    destruct (decide (c = c0)) as [-> | Hnc].
    + rewrite decide_True by done. by rewrite list_lookup_insert_eq.
    + rewrite decide_False by tauto.
      rewrite list_lookup_insert_ne by lia. by rewrite Hrw.
  - rewrite decide_False by tauto.
    by rewrite list_lookup_insert_ne by lia.
Qed.

Lemma NoDup_ids_inj (students : list student) s s' :
  NoDup (student_ids students) → s ∈ students → s' ∈ students →
  id s = id s' → s = s'.
Proof.
  unfold student_ids. intros Hnd Hs Hs' Hid.
  apply list_elem_of_lookup in Hs as [i Hi].
  apply list_elem_of_lookup in Hs' as [j Hj].
  assert (i = j) as ->.
  { eapply NoDup_lookup; [exact Hnd | |].
    - by rewrite list_lookup_fmap, Hi.
    - rewrite list_lookup_fmap, Hj. simpl. by rewrite Hid. }
  congruence.
Qed.

Section extraction.
Variables (solver : CpSolver) (rows columns : Z) (students : list student)
          (constraints : list constraint)
          (model : CpModel) (seats : seat_vars).
Hypothesis Hbuild :
  build_model rows columns students constraints = Ok (model, seats).
Hypothesis Hnodup : NoDup (student_ids students).
Hypothesis Hsat : satisfies (chosen solver) model.

(** The chart shows, in every cell, the visited student seated there, and
    [None] where no visited student is seated. *)
Let shows (P : student → Z → Z → Prop) (chart : list (list pyval)) : Prop :=
  grid_shaped rows columns chart
  ∧ ∀ r c, r ∈ range rows → c ∈ range columns →
      ∃ cell, cell_at chart r c = Some cell
        ∧ (∀ s, P s r c → sits (chosen solver) seats (id s) r c →
                cell = student_cell s)
        ∧ (cell = VNone
           ∨ ∃ s, P s r c ∧ sits (chosen solver) seats (id s) r c
                  ∧ cell = student_cell s).

Lemma shows_ext (P P' : student → Z → Z → Prop) chart :
  (∀ s r c, r ∈ range rows → c ∈ range columns → P' s r c ↔ P s r c) →
  shows P chart → shows P' chart.
Proof.
  intros Heq [Hshape Hcells]. split; [done |]. intros r c Hr Hc.
  destruct (Hcells r c Hr Hc) as (cell & Hcell & Hsome & Hnone).
  exists cell. split; [done |]. split.
  - intros s Hs. apply Hsome. by apply Heq.
  - destruct Hnone as [-> | (s & HP & Hs & ->)]; [by left |].
    right. exists s. split; [by apply Heq | done].
Qed.

Lemma extract_step (P : student → Z → Z → Prop) chart s0 r0 c0 :
  shows P chart → (∀ s r c, P s r c → s ∈ students) →
  s0 ∈ students → r0 ∈ range rows → c0 ∈ range columns →
  ∃ chart',
    (v ← subscript seats (id s0, r0, c0);
     if truthy (VInt (Value solver v)) then
       set_cell chart r0 c0
         (VDict (dict_of [ ("id", of_atom (id s0));
                           ("name", VStr (name s0)) ]))
     else Ok chart) = Ok chart'
    ∧ shows (fun s r c => P s r c ∨ (s = s0 ∧ r = r0 ∧ c = c0)) chart'.
Proof.
  intros [Hshape Hcells] Hwithin Hs0 Hr0 Hc0.
  destruct (build_model_shape _ _ _ _ _ _ Hbuild) as [_ Hdom].
  destruct (proj2 (Hdom (id s0) r0 c0)) as [v Hv].
  { apply elem_of_range in Hr0, Hc0. split; [| done].
    unfold student_ids. apply list_elem_of_fmap. eauto. }
  rewrite (proj2 (subscript_Some _ _ _) Hv). cbn [mbind result_bind].
  fold (chosen solver v). destruct (chosen solver v) eqn:Hval.
  - assert (Hsits0 : sits (chosen solver) seats (id s0) r0 c0)
      by (by exists v).
    destruct (set_cell_ok rows columns chart r0 c0 (student_cell s0)
                Hshape Hr0 Hc0) as (chart' & Hset & Hshape').
    exists chart'. split; [exact Hset |]. split; [done |].
    intros r c Hr Hc.
    rewrite (cell_at_set_cell _ _ _ _ _ _ _ _ _ Hshape Hr0 Hc0 Hset Hr Hc).
    case_decide as Heq.
    + destruct Heq as [-> ->]. exists (student_cell s0).
      split; [done |]. split.
      * intros s HP Hsits. f_equal.
        assert (s ∈ students) by (destruct HP as [HP | [-> _]]; eauto).
        symmetry. apply (NoDup_ids_inj students); try done.
        by eapply (seat_holds_one_student _ _ _ _ _ _ _ Hbuild Hsat).
      * right. exists s0. split; [by right | done].
    + destruct (Hcells r c Hr Hc) as (cell & Hcell & Hsome & Hnone).
      exists cell. split; [done |]. split.
      * intros s [HP | (_ & -> & ->)]; [by apply Hsome | tauto].
      * destruct Hnone as [-> | (s & HP & Hs & ->)]; [by left |].
        right. exists s. split; [by left | done].
  - assert (Hnot : ¬ sits (chosen solver) seats (id s0) r0 c0).
    { intros (w & Hw & Hwt). rewrite Hv in Hw. injection Hw as <-.
      congruence. }
    exists chart. split; [done |]. split; [done |].
    intros r c Hr Hc.
    destruct (Hcells r c Hr Hc) as (cell & Hcell & Hsome & Hnone).
    exists cell. split; [done |]. split.
    + intros s [HP | (-> & -> & ->)]; [by apply Hsome | tauto].
    + destruct Hnone as [-> | (s & HP & Hs & ->)]; [by left |].
      right. exists s. split; [by left | done].
Qed.

(** The three nested loops, one level at a time. *)
Lemma extract_row (P : student → Z → Z → Prop) chart s0 r0 :
  shows P chart → (∀ s r c, P s r c → s ∈ students) →
  s0 ∈ students → r0 ∈ range rows →
  ∃ chart',
    for_each (range columns) (fun col seating_chart =>
      v ← subscript seats (id s0, r0, col);
      if truthy (VInt (Value solver v)) then
        set_cell seating_chart r0 col
          (VDict (dict_of [ ("id", of_atom (id s0));
                            ("name", VStr (name s0)) ]))
      else Ok seating_chart) chart = Ok chart'
    ∧ shows (fun s r c => P s r c ∨ (s = s0 ∧ r = r0)) chart'.
Proof.
  intros Hshow Hwithin Hs0 Hr0.
  destruct (for_each_invariant
    (fun cdone chart =>
       shows (fun s r c => P s r c ∨ (s = s0 ∧ r = r0 ∧ c ∈ cdone)) chart)
    (fun col seating_chart =>
       v ← subscript seats (id s0, r0, col);
       if truthy (VInt (Value solver v)) then
         set_cell seating_chart r0 col
           (VDict (dict_of [ ("id", of_atom (id s0));
                             ("name", VStr (name s0)) ]))
       else Ok seating_chart)
    (range columns) chart) as (chart' & Hrun & Hshow').
  - eapply shows_ext; [| exact Hshow]. intros s r c _ _.
    split; [intros [? | (_ & _ & H)]; [done | by apply elem_of_nil in H]
           | auto].
  - intros cdone c0 chart1 Hc0 Hshow1.
    destruct (extract_step _ chart1 s0 r0 c0 Hshow1)
      as (chart2 & Hstep & Hshow2); try done.
    { intros s r c [? | (-> & _)]; eauto. }
    exists chart2. split; [exact Hstep |].
    eapply shows_ext; [| exact Hshow2]. intros s r c _ _.
    rewrite elem_of_app, list_elem_of_singleton. tauto.
  - exists chart'. split; [exact Hrun |].
    eapply shows_ext; [| exact Hshow']. intros s r c _ Hc. tauto.
Qed.

Lemma extract_student (P : student → Z → Z → Prop) chart s0 :
  shows P chart → (∀ s r c, P s r c → s ∈ students) → s0 ∈ students →
  ∃ chart',
    for_each (range rows) (fun row =>
      for_each (range columns) (fun col seating_chart =>
        v ← subscript seats (id s0, row, col);
        if truthy (VInt (Value solver v)) then
          set_cell seating_chart row col
            (VDict (dict_of [ ("id", of_atom (id s0));
                              ("name", VStr (name s0)) ]))
        else Ok seating_chart)) chart = Ok chart'
    ∧ shows (fun s r c => P s r c ∨ s = s0) chart'.
Proof.
  intros Hshow Hwithin Hs0.
  destruct (for_each_invariant
    (fun rdone chart =>
       shows (fun s r c => P s r c ∨ (s = s0 ∧ r ∈ rdone)) chart)
    (fun row =>
       for_each (range columns) (fun col seating_chart =>
         v ← subscript seats (id s0, row, col);
         if truthy (VInt (Value solver v)) then
           set_cell seating_chart row col
             (VDict (dict_of [ ("id", of_atom (id s0));
                               ("name", VStr (name s0)) ]))
         else Ok seating_chart))
    (range rows) chart) as (chart' & Hrun & Hshow').
  - eapply shows_ext; [| exact Hshow]. intros s r c _ _.
    split; [intros [? | (_ & H)]; [done | by apply elem_of_nil in H] | auto].
  - intros rdone r0 chart1 Hr0 Hshow1.
    destruct (extract_row _ chart1 s0 r0 Hshow1) as (chart2 & Hstep & Hshow2);
      try done.
    { intros s r c [? | (-> & _)]; eauto. }
    exists chart2. split; [exact Hstep |].
    eapply shows_ext; [| exact Hshow2]. intros s r c _ _.
    rewrite elem_of_app, list_elem_of_singleton. tauto.
  - exists chart'. split; [exact Hrun |].
    eapply shows_ext; [| exact Hshow']. intros s r c Hr _. tauto.
Qed.

(** What the extraction loop returns: a chart of the classroom's shape
    in which a cell holds the dict of the student seated there, and [None]
    when nobody is. *)
Lemma extract_chart_shows :
  ∃ chart,
    extract_chart solver rows columns seats students = Ok chart
    ∧ grid_shaped rows columns chart
    ∧ ∀ r c, 0 ≤ r < rows → 0 ≤ c < columns →
        ∃ cell, cell_at chart r c = Some cell
          ∧ (∀ s, s ∈ students →
                  sits (chosen solver) seats (id s) r c →
                  cell = student_cell s)
          ∧ (cell = VNone
             ∨ ∃ s, s ∈ students ∧ sits (chosen solver) seats (id s) r c
                    ∧ cell = student_cell s).
Proof.
  unfold extract_chart.
  destruct (for_each_invariant
    (fun sdone chart => shows (fun s r c => s ∈ sdone ∧ s ∈ students) chart)
    (fun student =>
       for_each (range rows) (fun row =>
         for_each (range columns) (fun col seating_chart =>
           v ← subscript seats (id student, row, col);
           if truthy (VInt (Value solver v)) then
             set_cell seating_chart row col
               (VDict (dict_of [ ("id", of_atom (id student));
                                 ("name", VStr (name student)) ]))
           else Ok seating_chart)))
    students
    ((fun _ => (fun _ => VNone) <$> range columns) <$> range rows))
    as (chart & Hrun & Hshape & Hcells).
  - split.
    + split; [by rewrite length_fmap, length_range |].
      apply Forall_fmap, Forall_forall. intros r _. simpl.
      by rewrite length_fmap, length_range.
    + intros r c Hr Hc. exists VNone. split.
      * unfold cell_at. apply elem_of_range in Hr, Hc.
        rewrite list_lookup_fmap.
        destruct (lookup_lt_is_Some_2 (range rows) (Z.to_nat r)) as [x ->];
          [rewrite length_range; lia |].
        cbn [fmap option_fmap option_map mbind option_bind].
        rewrite list_lookup_fmap.
        destruct (lookup_lt_is_Some_2 (range columns) (Z.to_nat c)) as [y ->];
          [rewrite length_range; lia | done].
      * split; [| by left]. intros s [Hin _]. by apply elem_of_nil in Hin.
  - intros sdone s0 chart0 Hs0 Hshow0.
    destruct (extract_student _ chart0 s0 Hshow0) as (chart1 & Hstep & Hshow1);
      [by intros s r c [_ ?] | done |].
    exists chart1. split; [exact Hstep |].
    eapply shows_ext; [| exact Hshow1]. intros s r c _ _.
    rewrite elem_of_app, list_elem_of_singleton.
    split; [intros [[? | ->] ?]; auto | intros [[? ?] | ->]; auto].
  - exists chart. split; [exact Hrun |]. split; [exact Hshape |].
    intros r c Hr Hc.
    destruct (Hcells r c) as (cell & Hcell & Hsome & Hnone);
      [by apply elem_of_range | by apply elem_of_range |].
    exists cell. split; [done |]. split.
    + intros s Hs. by apply Hsome.
    + destruct Hnone as [-> | (s & [_ HP] & Hs & ->)]; [by left |].
      right. by exists s.
Qed.
End extraction.

Lemma of_atom_inj a b : of_atom a = of_atom b → a = b.
Proof. destruct a, b; simpl; congruence. Qed.

Lemma student_cell_id s s' : student_cell s = student_cell s' → id s = id s'.
Proof.
  intros H. apply of_atom_inj.
  assert (Hid : ∀ t, match student_cell t with
                     | VDict d => d !! AStr "id"
                     | _ => None
                     end = Some (of_atom (id t))) by (intros t; reflexivity).
  pose proof (Hid s) as H1. rewrite H, Hid in H1. congruence.
Qed.

Lemma optimize_seating_success (Solve : CpModel → CpSolver)
    (classroom_layout : gmap string Z) (students : list student)
    (constraints : list constraint) (model : CpModel) (seats : seat_vars)
    (chart : list (list pyval)) :
  build_model (layout_rows classroom_layout) (layout_columns classroom_layout)
    students constraints = Ok (model, seats) →
  status (Solve model) = OPTIMAL ∨ status (Solve model) = FEASIBLE →
  extract_chart (Solve model) (layout_rows classroom_layout)
    (layout_columns classroom_layout) seats students = Ok chart →
  optimize_seating Solve classroom_layout students constraints
  = Ok (success_result (Solve model) (layout_rows classroom_layout)
          (layout_columns classroom_layout) chart (length constraints)).
Proof.
  intros Hbuild Hstatus Hchart. unfold optimize_seating.
  fold (layout_rows classroom_layout) (layout_columns classroom_layout).
  rewrite Hbuild. cbn [mbind result_bind].
  destruct Hstatus as [Hst | Hst]; rewrite Hst, Hchart;
    cbn [mbind result_bind]; unfold success_result; by rewrite Hst.
Qed.

Section sound_solve.
Variables (Solve : CpModel → CpSolver) (classroom_layout : gmap string Z)
          (students : list student) (constraints : list constraint)
          (model : CpModel) (seats : seat_vars).
Let rows := layout_rows classroom_layout.
Let columns := layout_columns classroom_layout.
Hypothesis Hbuild :
  build_model rows columns students constraints = Ok (model, seats).
Hypothesis Hnodup : NoDup (student_ids students).
Hypothesis Hstatus :
  status (Solve model) = OPTIMAL ∨ status (Solve model) = FEASIBLE.
Hypothesis Hsound : satisfies (chosen (Solve model)) model.

(** The chart of the returned record, cell by cell. *)
Lemma solved_chart :
  ∃ chart,
    optimize_seating Solve classroom_layout students constraints
    = Ok (success_result (Solve model) rows columns chart (length constraints))
    ∧ grid_shaped rows columns chart
    ∧ (∀ s r c, s ∈ students → 0 ≤ r → 0 ≤ c →
         (cell_at chart r c = Some (student_cell s)
          ↔ sits (chosen (Solve model)) seats (id s) r c))
    ∧ (∀ r c, 0 ≤ r < rows → 0 ≤ c < columns →
         ∃ cell, cell_at chart r c = Some cell
                 ∧ (cell = VNone ∨ ∃ s, s ∈ students ∧ cell = student_cell s)).
Proof.
  destruct (extract_chart_shows (Solve model) rows columns students
              constraints model seats Hbuild Hnodup Hsound)
    as (chart & Hchart & Hshape & Hcells).
  exists chart.
  split; [exact (optimize_seating_success Solve classroom_layout students
                   constraints model seats chart Hbuild Hstatus Hchart) |].
  split; [done |]. split.
  - intros s r c Hs Hr Hc. split.
    + intros Hcell.
      assert (Hin : r < rows ∧ c < columns).
      { destruct Hshape as [Hlen Hrows]. unfold cell_at in Hcell.
        destruct (chart !! Z.to_nat r) as [rw|] eqn:Hrw; [| done].
        cbn [mbind option_bind] in Hcell.
        pose proof (lookup_lt_Some _ _ _ Hrw).
        pose proof (lookup_lt_Some _ _ _ Hcell).
        pose proof (proj1 (Forall_forall _ _) Hrows rw
                      (list_elem_of_lookup_2 _ _ _ Hrw)) as Hl.
        cbv beta in Hl. lia. }
      destruct (Hcells r c) as (cell & Hcell' & _ & Hnone); [lia | lia |].
      rewrite Hcell in Hcell'. injection Hcell' as <-.
      destruct Hnone as [Hnone | (s' & Hs' & Hsits & Heq)]; [done |].
      apply student_cell_id in Heq. by rewrite Heq.
    + intros Hsits.
      destruct (sits_in_grid _ _ _ _ _ _ _ Hbuild _ _ _ Hsits)
        as (_ & Hr' & Hc').
      apply elem_of_range in Hr', Hc'.
      destruct (Hcells r c Hr' Hc') as (cell & Hcell & Hsome & _).
      by rewrite Hcell, (Hsome s Hs Hsits).
  - intros r c Hr Hc.
    destruct (Hcells r c Hr Hc) as (cell & Hcell & _ & Hnone).
    exists cell. split; [done |].
    destruct Hnone as [-> | (s & Hs & _ & ->)]; [by left | right; eauto].
Qed.

(** X18: when the solver's values satisfy the model and the ids are
    distinct, the returned chart shows every student in exactly one cell,
    and every cell is [None] or the dict of a student of the list. *)
Theorem solved_chart_places_every_student :
  ∃ d chart,
    optimize_seating Solve classroom_layout students constraints = Ok d
    ∧ d !! AStr "success" = Some (VBool true)
    ∧ d !! AStr "seating_chart" = Some (VList (VList <$> chart))
    ∧ grid_shaped rows columns chart
    ∧ (∀ s, s ∈ students →
         ∃ r c, 0 ≤ r < rows ∧ 0 ≤ c < columns
                ∧ cell_at chart r c = Some (student_cell s)
                ∧ ∀ r' c', 0 ≤ r' → 0 ≤ c' →
                           cell_at chart r' c' = Some (student_cell s) →
                           r' = r ∧ c' = c)
    ∧ (∀ r c, 0 ≤ r < rows → 0 ≤ c < columns →
         ∃ cell, cell_at chart r c = Some cell
                 ∧ (cell = VNone ∨ ∃ s, s ∈ students ∧ cell = student_cell s)).
Proof.
  destruct solved_chart as (chart & Hrun & Hshape & Hcell & Hall).
  eexists _, chart. split; [exact Hrun |]. split; [reflexivity |].
  split; [reflexivity |]. split; [done |]. split; [| done].
  intros s Hs.
  assert (Hid : id s ∈ student_ids students)
    by (unfold student_ids; apply list_elem_of_fmap; eauto).
  destruct (model_has_student_sum _ _ _ _ _ _ Hbuild s Hs)
    as (vars & Hgen & Hct).
  pose proof (satisfies_elem _ _ _ Hsound Hct) as Hholds.
  assert (Htotal : total (chosen (Solve model)) vars = 1)
    by (apply Z.eqb_eq; exact Hholds).
  destruct (total_positive (chosen (Solve model)) vars) as (v & Hv & Htrue);
    [lia |].
  destruct (gen_true_sits seats (chosen (Solve model))
              (fun rc => (id s, rc.1, rc.2)) _ vars v Hgen Hv Htrue)
    as ([r c] & Hrc & Hsits).
  cbn [fst snd] in Hsits.
  apply elem_of_grid in Hrc as [Hr Hc]. apply elem_of_range in Hr, Hc.
  exists r, c. split; [done |]. split; [done |].
  split; [apply Hcell; [done | lia | lia | done] |].
  intros r' c' Hr' Hc' Hcell'.
  apply Hcell in Hcell'; [| done | done | done].
  by eapply (sits_unique _ _ _ _ _ _ _ Hbuild Hsound).
Qed.

(** X19: when the solver's values satisfy the model and the ids are
    distinct, the seat the returned chart gives a student obeys each
    [must_front_row], [cannot_back_row], [cannot_by_window] and
    [cannot_by_door] constraint on that student. *)
Theorem solved_chart_respects_rows_and_columns :
  ∃ d chart,
    optimize_seating Solve classroom_layout students constraints = Ok d
    ∧ d !! AStr "seating_chart" = Some (VList (VList <$> chart))
    ∧ ∀ c s r c0, c ∈ constraints → s ∈ students →
        id s = get c "student" → 0 ≤ r → 0 ≤ c0 →
        cell_at chart r c0 = Some (student_cell s) →
        (get c "type" = AStr "must_front_row" → r = 0)
        ∧ (get c "type" = AStr "cannot_back_row" → r ≠ rows - 1)
        ∧ (get c "type" = AStr "cannot_by_window" → c0 ≠ columns - 1)
        ∧ (get c "type" = AStr "cannot_by_door" → c0 ≠ 0).
Proof.
  destruct solved_chart as (chart & Hrun & Hshape & Hcell & Hall).
  eexists _, chart. split; [exact Hrun |]. split; [reflexivity |].
  intros c s r c0 Hc Hs Hid Hr Hc0 Hcell0.
  apply Hcell in Hcell0; [| done | done | done]. rewrite Hid in Hcell0.
  by apply (model_row_column_hold _ _ _ _ _ _ _ Hbuild Hsound).
Qed.

(** X20: when the solver's values satisfy the model and the ids are
    distinct, the returned chart seats the two (different) students of a
    [cannot_sit_together] constraint at Chebyshev distance greater than 1. *)
Theorem solved_chart_keeps_apart :
  ∃ d chart,
    optimize_seating Solve classroom_layout students constraints = Ok d
    ∧ d !! AStr "seating_chart" = Some (VList (VList <$> chart))
    ∧ (∀ c s1 s2 r1 c1 r2 c2, c ∈ constraints →
         get c "type" = AStr "cannot_sit_together" →
         s1 ∈ students → s2 ∈ students →
         id s1 = get c "student1" → id s2 = get c "student2" →
         id s1 ≠ id s2 →
         0 ≤ r1 → 0 ≤ c1 → 0 ≤ r2 → 0 ≤ c2 →
         cell_at chart r1 c1 = Some (student_cell s1) →
         cell_at chart r2 c2 = Some (student_cell s2) →
         chebyshev (r1, c1) (r2, c2) > 1).
Proof.
  destruct solved_chart as (chart & Hrun & Hshape & Hcell & Hall).
  eexists _, chart. split; [exact Hrun |]. split; [reflexivity |].
  intros c s1 s2 r1 c1 r2 c2 Hc Hty Hs1 Hs2 Hid1 Hid2 Hne
    Hr1 Hc1 Hr2 Hc2 Hcell1 Hcell2.
  apply Hcell in Hcell1; [| done | done | done].
  apply Hcell in Hcell2; [| done | done | done].
  rewrite Hid1 in Hcell1. rewrite Hid2 in Hcell2.
  apply (model_exclusion_holds _ _ _ _ _ _ _ Hbuild Hsound c);
    try done. by rewrite <- Hid1, <- Hid2.
Qed.
End sound_solve.

(** The example classroom solved by exhaustive search: the model builds,
    the search reports OPTIMAL and its values satisfy the model. *)
Lemma example_solved :
  ∃ model seats,
    build_model (layout_rows (classroom 1 3)) (layout_columns (classroom 1 3))
      [student_A; student_B] example_constraints = Ok (model, seats)
    ∧ NoDup (student_ids [student_A; student_B])
    ∧ (status (exhaustive_solve model) = OPTIMAL
       ∨ status (exhaustive_solve model) = FEASIBLE)
    ∧ satisfies (chosen (exhaustive_solve model)) model.
Proof.
  destruct (build_model_ok (layout_rows (classroom 1 3))
              (layout_columns (classroom 1 3)) [student_A; student_B]
              example_constraints)
    as (model & seats & Hbuild); [by vm_compute | by vm_compute | |].
  { apply (bool_decide_unpack _). by vm_compute. }
  assert (Hm : model = match build_model (layout_rows (classroom 1 3))
                               (layout_columns (classroom 1 3))
                               [student_A; student_B] example_constraints with
                       | Ok (m, _) => m
                       | Raise _ => new_model
                       end) by (by rewrite Hbuild).
  exists model, seats. split; [done |]. split; [| split].
  - apply (bool_decide_unpack _). by vm_compute.
  - left. rewrite Hm. vm_compute. reflexivity.
  - rewrite Hm. apply satisfies_forallb. vm_compute. reflexivity.
Qed.

Lemma solved_chart_places_every_student_witness :
  ∃ d, optimize_seating exhaustive_solve (classroom 1 3)
         [student_A; student_B] example_constraints = Ok d
       ∧ d !! AStr "success" = Some (VBool true).
Proof.
  destruct example_solved as (model & seats & Hbuild & Hnodup & Hst & Hsound).
  destruct (solved_chart_places_every_student exhaustive_solve (classroom 1 3)
              [student_A; student_B] example_constraints model seats
              Hbuild Hnodup Hst Hsound) as (d & chart & Hrun & Hok & _).
  exists d. split; [exact Hrun | exact Hok].
Defined.

Lemma solved_chart_respects_rows_and_columns_witness :
  ∃ d chart,
    optimize_seating exhaustive_solve (classroom 1 3)
      [student_A; student_B] example_constraints = Ok d
    ∧ d !! AStr "seating_chart" = Some (VList (VList <$> chart))
    ∧ (cell_at chart 0 0 = Some (student_cell student_B) → 0 ≠ 0).
Proof.
  destruct example_solved as (model & seats & Hbuild & Hnodup & Hst & Hsound).
  destruct (solved_chart_respects_rows_and_columns exhaustive_solve
              (classroom 1 3) [student_A; student_B] example_constraints
              model seats Hbuild Hnodup Hst Hsound)
    as (d & chart & Hrun & Hchart & Hcs).
  exists d, chart. split; [exact Hrun |]. split; [exact Hchart |].
  intros Hcell.
  assert (Hc : cannot_by_door (AStr "B") ∈ example_constraints)
    by (apply (bool_decide_unpack _); by vm_compute).
  assert (HB : student_B ∈ [student_A; student_B]) by (right; left).
  exact (proj2 (proj2 (proj2 (Hcs (cannot_by_door (AStr "B")) student_B 0 0
           Hc HB eq_refl (Z.le_refl 0) (Z.le_refl 0) Hcell))) eq_refl).
Defined.

Lemma solved_chart_keeps_apart_witness :
  ∃ d chart,
    optimize_seating exhaustive_solve (classroom 1 3)
      [student_A; student_B] example_constraints = Ok d
    ∧ d !! AStr "seating_chart" = Some (VList (VList <$> chart))
    ∧ (cell_at chart 0 0 = Some (student_cell student_A) →
       cell_at chart 0 1 = Some (student_cell student_B) →
       chebyshev (0, 0) (0, 1) > 1).
Proof.
  destruct example_solved as (model & seats & Hbuild & Hnodup & Hst & Hsound).
  destruct (solved_chart_keeps_apart exhaustive_solve
              (classroom 1 3) [student_A; student_B] example_constraints
              model seats Hbuild Hnodup Hst Hsound)
    as (d & chart & Hrun & Hchart & Hcs).
  exists d, chart. split; [exact Hrun |]. split; [exact Hchart |].
  intros HA HB.
  assert (Hc : cannot_sit_together (AStr "A") (AStr "B") ∈ example_constraints)
    by (apply (bool_decide_unpack _); by vm_compute).
  assert (HinA : student_A ∈ [student_A; student_B]) by left.
  assert (HinB : student_B ∈ [student_A; student_B]) by (right; left).
  assert (Hne : id student_A ≠ id student_B) by discriminate.
  exact (Hcs (cannot_sit_together (AStr "A") (AStr "B")) student_A student_B
           0 0 0 1 Hc eq_refl HinA HinB eq_refl eq_refl Hne
           (Z.le_refl 0) (Z.le_refl 0) (Z.le_refl 0) (Z.le_0_1) HA HB).
Defined.
